(** * StageTwo web interface: secret store, rotating PIN, sessions, access gate

    A shallow embedding of the authentication layer of
    [stagtwo_webgui/web_interface_server.py]:

    - [NVMSecretManager]: the framed secret in byte-addressable NVM;
    - [DisplayAuth] (the rate-limited definition, the first one in the
      file): rotating PIN, per-client attempt counters, session tokens;
    - [EnhancedWebServer._check_auth]: the per-request access gate.

    Python objects become records, the device (clock, random source, NVM,
    display) becomes an explicit [world] threaded through a state monad,
    [try]/[except] becomes [option] with a handler.  A [str] is a [string]
    whose characters are code points below 256, an [int] is a [Z], and the
    float readings of [time.monotonic()] are rationals.  Output made with
    [print] is left out.

    Sums, differences and products of clock readings are exact here; the
    code computes them in binary64, rounded to nearest.  Rounding is
    monotone and leaves 0, 120 and the whole numbers below [2^53] as they
    are, so a bound on an exact difference by such a number holds of the
    rounded one as well.  The statements below rest on nothing more:
    where rounding could decide an outcome, they keep the margin it needs
    or leave the number open, and the sample runs use readings on which
    the float operations give the same results. *)

From Stdlib Require Import ZArith QArith Qround Lqa Lia Bool List.
From Stdlib Require Import Ascii String.
From Stdlib.Strings Require Import Byte.
From stdpp Require Import base gmap sets list strings.

Import ListNotations.
Local Open Scope string_scope.
Local Open Scope Z_scope.

(** ** Python values and built-ins used by the code *)

Module Py.

(** [needle in hay] on [str]. *)
Fixpoint str_contains (needle hay : string) : bool :=
  if String.prefix needle hay then true
  else match hay with
       | EmptyString => false
       | String _ rest => str_contains needle rest
       end.

(** [c * n] for a one-character string [c]. *)
Fixpoint str_repeat (c : ascii) (n : nat) : string :=
  match n with
  | O => EmptyString
  | S k => String c (str_repeat c k)
  end.

(** [s.ljust(width, fill)]. *)
Definition ljust (s : string) (width : nat) (fill : ascii) : string :=
  s ++ str_repeat fill (width - String.length s).

(** [s.rjust(width, fill)], used by the [06d] format. *)
Definition rjust (s : string) (width : nat) (fill : ascii) : string :=
  str_repeat fill (width - String.length s) ++ s.

(** [s[:n]]. *)
Definition slice_to (s : string) (n : nat) : string := String.substring 0 n s.

(** [s[i]]; [None] is [IndexError]. *)
Definition str_index (s : string) (i : Z) : option ascii :=
  if (0 <=? i) && (i <? Z.of_nat (String.length s))
  then String.get (Z.to_nat i) s else None.

Definition digit_char (d : Z) : ascii := ascii_of_nat (48 + Z.to_nat d).

(** Decimal digits of a non-negative integer, most significant first. *)
Fixpoint dec_digits (fuel : nat) (n : Z) (acc : string) : string :=
  match fuel with
  | O => acc
  | S f =>
      let acc' := String (digit_char (n mod 10)) acc in
      if n / 10 =? 0 then acc' else dec_digits f (n / 10) acc'
  end.

Definition dec_of_nonneg (n : Z) : string :=
  dec_digits (S (Z.to_nat (Z.log2 n))) n EmptyString.

(** [str(n)] for an [int]. *)
Definition str_int (n : Z) : string :=
  if n <? 0 then String "-" (dec_of_nonneg (- n)) else dec_of_nonneg n.

(** [int(s)] for a string of decimal digits, on top of the value [acc] of
    the digits already read. *)
Fixpoint dec_value_from (acc : Z) (s : string) : Z :=
  match s with
  | EmptyString => acc
  | String c rest =>
      dec_value_from (10 * acc + (Z.of_nat (nat_of_ascii c) - 48)) rest
  end.

Definition dec_value (s : string) : Z := dec_value_from 0 s.

(** [f"{n:06d}"] for a non-negative [int]. *)
Definition format_06d (n : Z) : string := rjust (str_int n) 6 "0".

(** [int(x)] for a real [x]: truncation towards zero. *)
Definition int_of (x : Q) : Z := Z.quot (Qnum x) (Zpos (Qden x)).

(** [x % m] on floats, read over the rationals: the result has the sign
    of [m]. *)
Definition fmod (x m : Q) : Q := (x - m * inject_Z (Qfloor (x / m)))%Q.

(** [max(0, x)]. *)
Definition max0 (x : Q) : Q := if Qle_bool x 0 then 0%Q else x.

(** The values the code hands to [str()]: [None], a string, or an integer
    (the JSON body may carry the PIN as a string or as a number). *)
Inductive value :=
| VNone
| VStr (s : string)
| VInt (n : Z).

Definition str (v : value) : string :=
  match v with
  | VNone => "None"
  | VStr s => s
  | VInt n => str_int n
  end.

(** [x > y] on reals. *)
Definition gt (x y : Q) : bool := negb (Qle_bool x y).

Definition is_digit (c : ascii) : bool :=
  let n := nat_of_ascii c in (48 <=? n)%nat && (n <=? 57)%nat.

Fixpoint all_chars (p : ascii -> bool) (s : string) : bool :=
  match s with
  | EmptyString => true
  | String c rest => p c && all_chars p rest
  end.

Fixpoint mem_char (c : ascii) (s : string) : bool :=
  match s with
  | EmptyString => false
  | String d rest => Ascii.eqb c d || mem_char c rest
  end.

(** [bytes] values are lists of bytes.  [bytes([n])] raises [ValueError]
    outside [0..255]: this is [Byte.of_nat]. *)
Definition is_ascii_char (c : ascii) : bool := (nat_of_ascii c <? 128)%nat.
Definition is_ascii_byte (b : byte) : bool := (Byte.to_nat b <? 128)%nat.

(** [s.encode('ascii')]; [None] is [UnicodeEncodeError]. *)
Definition encode_ascii (s : string) : option (list byte) :=
  if all_chars is_ascii_char s then Some (list_byte_of_string s) else None.

(** [b.decode('ascii')]; [None] is [UnicodeDecodeError]. *)
Definition decode_ascii (b : list byte) : option string :=
  if forallb is_ascii_byte b then Some (string_of_list_byte b) else None.

Fixpoint bytes_eqb (a b : list byte) : bool :=
  match a, b with
  | [], [] => true
  | x :: a', y :: b' => Byte.eqb x y && bytes_eqb a' b'
  | _, _ => false
  end.

(** [buf[a:b]] on a byte array, for [0 <= a <= b]: out-of-range bounds
    are clamped. *)
Definition slice (buf : list byte) (a b : nat) : list byte :=
  firstn (b - a) (skipn a buf).

(** [buf[i]]; [None] is [IndexError]. *)
Definition index (buf : list byte) (i : nat) : option byte := nth_error buf i.

(** [buf[a:a+len(data)] = data] on the fixed-size NVM array; [None] is the
    [ValueError] raised when the clamped slice and the data differ in
    length. *)
Definition store (buf : list byte) (a : nat) (data : list byte)
  : option (list byte) :=
  if (a + length data <=? length buf)%nat
  then Some (firstn a buf ++ data ++ skipn (a + length data) buf)%list
  else None.

(** [s.lower()] on code points below 256: the ASCII capitals and the
    Latin-1 capitals move up by 32. *)
Definition lower_char (c : ascii) : ascii :=
  let n := nat_of_ascii c in
  if ((65 <=? n) && (n <=? 90) || (192 <=? n) && (n <=? 214)
      || (216 <=? n) && (n <=? 222))%nat
  then ascii_of_nat (n + 32) else c.

Fixpoint lower (s : string) : string :=
  match s with
  | EmptyString => EmptyString
  | String c rest => String (lower_char c) (lower rest)
  end.

Definition single_quote : ascii := ascii_of_nat 39.
Definition double_quote : ascii := ascii_of_nat 34.
Definition backslash : ascii := ascii_of_nat 92.

Definition hex_digit (n : nat) : ascii :=
  if (n <? 10)%nat then ascii_of_nat (48 + n) else ascii_of_nat (87 + n).

(** One character inside [repr(s)], [q] being the quote in use: the quote
    and the backslash are escaped, tab, line feed and carriage return have
    their letters, the other unprintable code points are written in
    hexadecimal. *)
Definition repr_char (q c : ascii) : string :=
  let n := nat_of_ascii c in
  if Ascii.eqb c q || Ascii.eqb c backslash
  then String backslash (String c EmptyString)
  else if (n =? 9)%nat then String backslash "t"
  else if (n =? 10)%nat then String backslash "n"
  else if (n =? 13)%nat then String backslash "r"
  else if ((n <? 32) || (n =? 127) || (128 <=? n) && (n <=? 160)
           || (n =? 173))%nat
  then String backslash
         (String "x" (String (hex_digit (n / 16))
                        (String (hex_digit (n mod 16)) EmptyString)))
  else String c EmptyString.

Fixpoint repr_chars (q : ascii) (s : string) : string :=
  match s with
  | EmptyString => EmptyString
  | String c rest => repr_char q c ++ repr_chars q rest
  end.

(** [repr(s)] for a [str]: single quotes, unless the string holds a
    single quote and no double quote. *)
Definition repr_str (s : string) : string :=
  let q := if mem_char single_quote s && negb (mem_char double_quote s)
           then double_quote else single_quote in
  String q (repr_chars q s ++ String q EmptyString).

(** [", ".join(parts)]. *)
Fixpoint comma_join (parts : list string) : string :=
  match parts with
  | [] => EmptyString
  | [x] => x
  | x :: rest => x ++ ", " ++ comma_join rest
  end.

(** [repr] of a list of [str]. *)
Definition repr_list (l : list string) : string :=
  "[" ++ comma_join (map repr_str l) ++ "]".

(** [repr] of a [dict] from [str] to lists of [str], its items in
    insertion order. *)
Definition repr_dict (d : list (string * list string)) : string :=
  "{" ++ comma_join (map (fun kv => repr_str (fst kv) ++ ": " ++ repr_list (snd kv)) d)
      ++ "}".

End Py.

(** ** The device: clock, random source, NVM and display *)

(** [clock] lists the successive readings of [time.monotonic()], [ticks]
    counts the readings taken so far.  [urandom] is [None] when
    [import urandom] fails, otherwise the stream of raw random words the
    module will hand out, [draws] of which have been consumed.  [nvm] is
    [microcontroller.nvm]; [screen] records the PINs passed to
    [DisplayManager.show_auth_screen], most recent first. *)
Record world := World {
  clock : nat -> Q;
  ticks : nat;
  urandom : option (nat -> Z);
  draws : nat;
  nvm : list byte;
  screen : list string
}.

(** ** State monad *)

Definition M (S A : Type) : Type := S -> A * S.

Definition ret {S A} (a : A) : M S A := fun s => (a, s).

Definition bind {S A B} (m : M S A) (k : A -> M S B) : M S B :=
  fun s => let '(a, s') := m s in k a s'.

Declare Scope monad_scope.
Delimit Scope monad_scope with monad.
Notation "'let*' x := m 'in' k" := (bind m (fun x => k))
  (at level 10, x pattern, m at level 100, k at level 200) : monad_scope.
Notation "'run*' m 'in' k" := (bind m (fun _ => k))
  (at level 10, m at level 100, k at level 200) : monad_scope.
Local Open Scope monad_scope.

Module Device.

(** The device after one more clock reading. *)
Definition ticked (w : world) : world :=
  World (clock w) (S (ticks w)) (urandom w) (draws w) (nvm w) (screen w).

(** [time.monotonic()]. *)
Definition monotonic : M world Q := fun w => (clock w (ticks w), ticked w).

(** The device after one more random word. *)
Definition drawn (w : world) : world :=
  World (clock w) (ticks w) (urandom w) (S (draws w)) (nvm w) (screen w).

(** One raw word of an imported [urandom]. *)
Definition raw_word (src : nat -> Z) : M world Z :=
  fun w => (src (draws w), drawn w).

(** [urandom.randint(a, b)]: a value in [a..b]. *)
Definition randint (src : nat -> Z) (a b : Z) : M world Z :=
  let* r := raw_word src in ret (a + r mod (b - a + 1)).

(** [urandom.getrandbits(k)]: a value in [0..2^k-1]. *)
Definition getrandbits (src : nat -> Z) (k : Z) : M world Z :=
  let* r := raw_word src in ret (r mod 2 ^ k).

(** [DisplayManager.show_auth_screen(pin)]; it catches its own errors. *)
Definition show_auth_screen (pin : string) : M world unit :=
  fun w =>
    (tt, World (clock w) (ticks w) (urandom w) (draws w) (nvm w)
               (pin :: screen w)).

Definition set_nvm (bytes : list byte) : M world unit :=
  fun w =>
    (tt, World (clock w) (ticks w) (urandom w) (draws w) bytes (screen w)).

End Device.

(** ** NVMSecretManager *)

Module NVM.

Record NVMSecretManager := Manager {
  nvm_offset : nat;
  secret_length : nat;
  nvm_size : nat;
  magic : list byte
}.

(** [NVMSecretManager(nvm_offset=0, secret_length=16)]. *)
Definition __init__ (nvm_offset secret_length : nat) : NVMSecretManager :=
  {| nvm_offset := nvm_offset;
     secret_length := secret_length;
     nvm_size := secret_length + 4;
     magic := list_byte_of_string "TOTP" |}.

Definition default : NVMSecretManager := __init__ 0 16.

Definition chars : string := "ABCDEFGHIJKLMNOPQRSTUVWXYZ234567".

(** The loop of the [try] branch of [generate_secret]; [None] is an
    exception, handled by the [except] branch. *)
Fixpoint random_chars (src : nat -> Z) (n : nat) (secret : string)
  : M world (option string) :=
  match n with
  | O => ret (Some secret)
  | S k =>
      let* r := Device.getrandbits src 5 in
      match Py.str_index chars r with
      | Some c => random_chars src k (secret ++ String c EmptyString)
      | None => ret None
      end
  end.

(** The loop of the [except] branch, at index [i] with [n] rounds to go;
    [None] is an exception, which nothing catches. *)
Fixpoint seeded_chars (seed : Z) (i : Z) (n : nat) (secret : string)
  : option string :=
  match n with
  | O => Some secret
  | S k =>
      match Py.str_index chars ((seed + i) mod 32) with
      | Some c => seeded_chars seed (i + 1) k (secret ++ String c EmptyString)
      | None => None
      end
  end.

Definition generate_secret_fallback (self : NVMSecretManager)
  : M world (option string) :=
  let* t := Device.monotonic in
  let seed := Py.int_of (t * 1000) mod 32 in
  ret (seeded_chars seed 0 (secret_length self) EmptyString).

Definition generate_secret (self : NVMSecretManager)
  : M world (option string) :=
  fun w =>
    match urandom w with
    | Some src =>
        let '(r, w') := random_chars src (secret_length self) EmptyString w in
        match r with
        | Some secret => (Some secret, w')
        | None => generate_secret_fallback self w'
        end
    | None => generate_secret_fallback self w
    end.

(** The secret as [save_secret] writes it: cut or padded with ['A']. *)
Definition fit (self : NVMSecretManager) (secret : string) : string :=
  if (secret_length self <? String.length secret)%nat
  then Py.slice_to secret (secret_length self)
  else if (String.length secret <? secret_length self)%nat
       then Py.ljust secret (secret_length self) "A"
       else secret.

(** [self.magic + bytes([len(secret)]) + secret.encode('ascii')]. *)
Definition frame (self : NVMSecretManager) (secret : string)
  : option (list byte) :=
  match Byte.of_nat (String.length secret) with
  | Some len_byte =>
      match Py.encode_ascii secret with
      | Some payload => Some (magic self ++ [len_byte] ++ payload)%list
      | None => None
      end
  | None => None
  end.

Definition save_secret (self : NVMSecretManager) (secret : string)
  : M world bool :=
  fun w =>
    let secret := fit self secret in
    match frame self secret with
    | Some data =>
        match Py.store (nvm w) (nvm_offset self) data with
        | Some nvm' => let '(_, w') := Device.set_nvm nvm' w in (true, w')
        | None => (false, w)
        end
    | None => (false, w)
    end.

Definition _generate_and_save_new_secret (self : NVMSecretManager)
  : M world (option string) :=
  let* g := generate_secret self in
  match g with
  | Some secret =>
      let* saved := save_secret self secret in
      if saved then ret (Some secret) else ret (Some "JBSWY3DPEHPK3PXP")
  | None => ret None
  end.

(** The [try] block of [load_secret]; [None] is an exception raised in
    it. *)
Definition load_secret_try (self : NVMSecretManager)
  : M world (option string) :=
  fun w =>
    let off := nvm_offset self in
    let magic_check := Py.slice (nvm w) off (off + 4) in
    if negb (Py.bytes_eqb magic_check (magic self))
    then _generate_and_save_new_secret self w
    else
      match Py.index (nvm w) (off + 4) with
      | None => (None, w)
      | Some b =>
          let secret_len := Byte.to_nat b in
          if (secret_len =? 0)%nat || (secret_length self <? secret_len)%nat
          then _generate_and_save_new_secret self w
          else
            let secret_start := (off + 5)%nat in
            let secret_bytes :=
              Py.slice (nvm w) secret_start (secret_start + secret_len) in
            (Py.decode_ascii secret_bytes, w)
      end.

(** [load_secret]: the result is [None] when an exception reaches the
    caller. *)
Definition load_secret (self : NVMSecretManager) : M world (option string) :=
  let* r := load_secret_try self in
  match r with
  | Some secret => ret (Some secret)
  | None => _generate_and_save_new_secret self
  end.

Definition clear_secret (self : NVMSecretManager) : M world bool :=
  fun w =>
    let zeros := repeat x00 (nvm_size self) in
    match Py.store (nvm w) (nvm_offset self) zeros with
    | Some nvm' => let '(_, w') := Device.set_nvm nvm' w in (true, w')
    | None => (false, w)
    end.

End NVM.

(** ** DisplayAuth (with rate limiting) *)

Module Auth.

Record DisplayAuth := Self {
  display_manager : bool;
  current_pin : Py.value;
  pin_generated_time : Q;
  pin_duration : Q;
  session_tokens : gset string;
  pin_attempts : gmap string Z;
  max_attempts : Z
}.

(** The object together with the device it runs on. *)
Definition system : Type := DisplayAuth * world.

Definition device {A} (m : M world A) : M system A :=
  fun '(self, w) => let '(a, w') := m w in (a, (self, w')).

Definition get : M system DisplayAuth := fun '(self, w) => (self, (self, w)).

Definition update (f : DisplayAuth -> DisplayAuth) : M system unit :=
  fun '(self, w) => (tt, (f self, w)).

Definition set_current_pin (v : Py.value) (self : DisplayAuth) :=
  Self (display_manager self) v (pin_generated_time self) (pin_duration self)
       (session_tokens self) (pin_attempts self) (max_attempts self).

Definition set_pin_generated_time (t : Q) (self : DisplayAuth) :=
  Self (display_manager self) (current_pin self) t (pin_duration self)
       (session_tokens self) (pin_attempts self) (max_attempts self).

Definition set_session_tokens (ts : gset string) (self : DisplayAuth) :=
  Self (display_manager self) (current_pin self) (pin_generated_time self)
       (pin_duration self) ts (pin_attempts self) (max_attempts self).

Definition set_pin_attempts (m : gmap string Z) (self : DisplayAuth) :=
  Self (display_manager self) (current_pin self) (pin_generated_time self)
       (pin_duration self) (session_tokens self) m (max_attempts self).

(** The [try] loop of [_generate_random_pin]. *)
Fixpoint random_digits (src : nat -> Z) (n : nat) (pin : string)
  : M world string :=
  match n with
  | O => ret pin
  | S k =>
      let* d := Device.randint src 0 9 in
      random_digits src k (pin ++ Py.str_int d)
  end.

Definition _generate_random_pin : M world string :=
  fun w =>
    match urandom w with
    | Some src => random_digits src 6 EmptyString w
    | None =>
        (let* t := Device.monotonic in
         let seed := Py.int_of (Py.fmod (t * 1000000) 1000000) in
         ret (Py.format_06d seed)) w
    end.

Definition refresh_pin : M system string :=
  let* pin := device _generate_random_pin in
  run* update (set_current_pin (Py.VStr pin)) in
  let* t := device Device.monotonic in
  run* update (set_pin_generated_time t) in
  let* self := get in
  run* (if display_manager self
        then device (Device.show_auth_screen pin)
        else ret tt) in
  ret pin.

(** [current_time - self.pin_generated_time] is the exact difference; the
    rounded one of the code exceeds the duration 120 whenever the exact
    one reaches the next float, [120 + 2^-46], and never when the exact one
    is at most 120. *)
Definition get_current_pin : M system Py.value :=
  let* current_time := device Device.monotonic in
  let* self := get in
  run* (if Py.gt (current_time - pin_generated_time self) (pin_duration self)
        then (run* refresh_pin in ret tt)
        else ret tt) in
  let* self := get in
  ret (current_pin self).

Definition get_pin_time_remaining : M system Z :=
  let* now := device Device.monotonic in
  let* self := get in
  let elapsed := (now - pin_generated_time self)%Q in
  let remaining := Py.max0 (pin_duration self - elapsed) in
  ret (Py.int_of remaining).

Definition token_chars : string :=
  "ABCDEFGHIJKLMNOPQRSTUVWXYZabcdefghijklmnopqrstuvwxyz0123456789".

(** The [try] loop of [_generate_session_token]; [None] is an exception,
    handled by the bare [except]. *)
Fixpoint random_token (src : nat -> Z) (n : nat) (token : string)
  : M world (option string) :=
  match n with
  | O => ret (Some token)
  | S k =>
      let* r :=
        Device.randint src 0 (Z.of_nat (String.length token_chars) - 1) in
      match Py.str_index token_chars r with
      | Some c => random_token src k (token ++ String c EmptyString)
      | None => ret None
      end
  end.

(** The [except] branch: [f"session_{int(time.monotonic() * 1000)}"], with
    the exact product; the rounded product of the code can truncate to a
    neighbouring integer. *)
Definition session_token_fallback : M world string :=
  let* t := Device.monotonic in
  ret ("session_" ++ Py.str_int (Py.int_of (t * 1000))).

Definition _generate_session_token : M world string :=
  fun w =>
    match urandom w with
    | Some src =>
        let '(r, w') := random_token src 32 EmptyString w in
        match r with
        | Some token => (token, w')
        | None => session_token_fallback w'
        end
    | None => session_token_fallback w
    end.

Definition lockout_message : string :=
  "Too many failed attempts. Wait for PIN refresh.".

Definition invalid_pin_message (remaining_attempts remaining_time : Z)
  : string :=
  "Invalid PIN. " ++ Py.str_int remaining_attempts
    ++ " attempts remaining. PIN changes in "
    ++ Py.str_int remaining_time ++ "s".

(** [if client_ip in self.pin_attempts: del self.pin_attempts[client_ip]] *)
Definition reset_attempts (client_ip : string) (self : DisplayAuth) :=
  match pin_attempts self !! client_ip with
  | Some _ => set_pin_attempts (delete client_ip (pin_attempts self)) self
  | None => self
  end.

(** [self.session_tokens.add(token)] *)
Definition add_token (token : string) (self : DisplayAuth) :=
  set_session_tokens ({[ token ]} ∪ session_tokens self) self.

(** [if client_ip not in self.pin_attempts: self.pin_attempts[client_ip] = 0] *)
Definition open_counter (client_ip : string) (self : DisplayAuth) :=
  match pin_attempts self !! client_ip with
  | Some _ => self
  | None => set_pin_attempts (<[ client_ip := 0 ]> (pin_attempts self)) self
  end.

(** [self.pin_attempts[client_ip] += 1] *)
Definition increment_counter (client_ip : string) (self : DisplayAuth) :=
  match pin_attempts self !! client_ip with
  | Some n =>
      set_pin_attempts (<[ client_ip := n + 1 ]> (pin_attempts self)) self
  | None => self
  end.

(** [verify_pin] past the rate-limit check. *)
Definition verify_pin_checked (entered_pin : Py.value) (client_ip : string)
  : M system (bool * string) :=
  let* current_pin := get_current_pin in
  if String.eqb (Py.str entered_pin) (Py.str current_pin)
  then
    run* update (reset_attempts client_ip) in
    let* token := device _generate_session_token in
    run* update (add_token token) in
    ret (true, token)
  else
    run* update (open_counter client_ip) in
    run* update (increment_counter client_ip) in
    let* self := get in
    let remaining_attempts :=
      max_attempts self - default 0 (pin_attempts self !! client_ip) in
    let* remaining_time := get_pin_time_remaining in
    ret (false, invalid_pin_message remaining_attempts remaining_time).

Definition verify_pin (entered_pin : Py.value) (client_ip : string)
  : M system (bool * string) :=
  let* self := get in
  match pin_attempts self !! client_ip with
  | Some n =>
      if max_attempts self <=? n
      then ret (false, lockout_message)
      else verify_pin_checked entered_pin client_ip
  | None => verify_pin_checked entered_pin client_ip
  end.

Definition verify_token (token : string) (self : DisplayAuth) : bool :=
  bool_decide (token ∈ session_tokens self).

Record auth_info := Info {
  info_pin : Py.value;
  info_time_remaining : Z;
  info_duration : Q;
  info_message : string
}.

Definition get_auth_info : M system auth_info :=
  let* current_pin := get_current_pin in
  let* remaining_time := get_pin_time_remaining in
  let* self := get in
  ret (Info current_pin remaining_time (pin_duration self)
         ("Enter PIN from display. Changes in "
            ++ Py.str_int remaining_time ++ "s")).

Definition logout_all : M system unit :=
  update (set_session_tokens ∅).

(** [DisplayAuth(display_manager)]. *)
Definition __init__ (display_manager : bool) : M world DisplayAuth :=
  fun w =>
    let self := Self display_manager Py.VNone 0 120 ∅ ∅ 5 in
    let '(_, (self', w')) := refresh_pin (self, w) in
    (self', w').

(** *** Calls on a [DisplayAuth] object and runs of them *)

Inductive call :=
| RefreshPin
| GetCurrentPin
| GetPinTimeRemaining
| VerifyPin (entered_pin : Py.value) (client_ip : string)
| VerifyToken (token : string)
| GetAuthInfo
| LogoutAll.

Inductive reply :=
| RStr (s : string)
| RValue (v : Py.value)
| RInt (n : Z)
| RVerify (ok : bool) (detail : string)
| RBool (b : bool)
| RInfo (i : auth_info)
| RNone.

Definition exec (c : call) : M system reply :=
  match c with
  | RefreshPin => let* p := refresh_pin in ret (RStr p)
  | GetCurrentPin => let* p := get_current_pin in ret (RValue p)
  | GetPinTimeRemaining => let* n := get_pin_time_remaining in ret (RInt n)
  | VerifyPin entered_pin client_ip =>
      let* r := verify_pin entered_pin client_ip in
      ret (RVerify (fst r) (snd r))
  | VerifyToken token =>
      let* self := get in ret (RBool (verify_token token self))
  | GetAuthInfo => let* i := get_auth_info in ret (RInfo i)
  | LogoutAll => run* logout_all in ret RNone
  end.

(** A run: the calls in order, each with what it returned. *)
Fixpoint run (cs : list call) : M system (list (call * reply)) :=
  match cs with
  | [] => ret []
  | c :: rest =>
      let* r := exec c in
      let* trace := run rest in
      ret ((c, r) :: trace)
  end.

End Auth.

(** ** EnhancedWebServer._check_auth *)

Module Gate.

(** [request.headers] is either a plain [dict] or some other object, in
    practice the HTTP library's header container; the gate tells them
    apart with [isinstance]. *)
Inductive headers :=
| HeadersDict (d : gmap string string)
| HeadersObject (fields : list (string * string)).

(** A request; [headers] is [None] when the attribute is missing or
    [None]. *)
Record Request := Req { req_headers : option headers }.

Record EnhancedWebServer := Server { auth_required : bool }.

Definition literal : string := "authenticated_session_token".

(** The header container of [adafruit_httpserver], the type of
    [request.headers] that the server receives, keeps a [dict] from the
    lower-cased header name to the list of the values received under it:
    [Headers.add] appends to the list of a name already there and opens a
    list for a new one. *)
Fixpoint add_field (name value : string) (storage : list (string * list string))
  : list (string * list string) :=
  match storage with
  | [] => [(name, [value])]
  | (k, vs) :: rest =>
      if String.eqb k name then (k, (vs ++ [value])%list) :: rest
      else (k, vs) :: add_field name value rest
  end.

Definition Headers_storage (fields : list (string * string))
  : list (string * list string) :=
  fold_left (fun storage f => add_field (Py.lower (fst f)) (snd f) storage)
            fields [].

(** [str(request.headers)] for the container: it has no [__str__], so
    this is its [__repr__], the class name and the [repr] of the storage
    between angle brackets. *)
Definition Headers_str (fields : list (string * string)) : string :=
  "<Headers " ++ Py.repr_dict (Headers_storage fields) ++ ">".

(** The value bound to [auth_header].  An empty [dict] is falsy, and so is
    a container without headers, whose length is zero: both give the empty
    string.  Nothing in the [try] block raises on these inputs, so the
    [except] branch is not reached. *)
Definition auth_header (request : Request) : string :=
  match req_headers request with
  | Some (HeadersDict d) =>
      if bool_decide (d = ∅) then EmptyString
      else default EmptyString (d !! "Authorization")
  | Some (HeadersObject fields) =>
      match fields with
      | [] => EmptyString
      | _ :: _ => Headers_str fields
      end
  | None => EmptyString
  end.

Definition _check_auth (self : EnhancedWebServer) (request : Request)
  : bool :=
  if negb (auth_required self) then true
  else Py.str_contains literal (auth_header request).

(** The value of the request's [Authorization] header, the empty string
    when there is none; header names match whatever their case. *)
Fixpoint field_value (name : string) (fields : list (string * string))
  : string :=
  match fields with
  | [] => EmptyString
  | (k, v) :: rest =>
      if String.eqb (Py.lower k) (Py.lower name) then v
      else field_value name rest
  end.

Definition authorization_value (request : Request) : string :=
  match req_headers request with
  | Some (HeadersDict d) => default EmptyString (d !! "Authorization")
  | Some (HeadersObject fields) => field_value "Authorization" fields
  | None => EmptyString
  end.

End Gate.

(** ** Sample devices *)

Module Samples.

Definition quiet_clock (t : Q) : nat -> Q := fun _ => t.

(** A device whose random source keeps counting up. *)
Definition counting (t : Q) (size : nat) : world :=
  World (quiet_clock t) 0 (Some (fun i => Z.of_nat i)) 0 (repeat x00 size) [].

(** A device without [urandom]. *)
Definition bare (t : Q) (size : nat) : world :=
  World (quiet_clock t) 0 None 0 (repeat x00 size) [].

End Samples.

(** ** Named intermediate states of the DisplayAuth methods *)

Module AuthViews.
Import Py Auth.

(** The state [refresh_pin] leaves behind when [_generate_random_pin]
    returned [pin] on device [w1]. *)
Definition refreshed (self : DisplayAuth) (pin : string) (w1 : world) : system :=
  (set_pin_generated_time (clock w1 (ticks w1)) (set_current_pin (VStr pin) self),
   if display_manager self
   then snd (Device.show_auth_screen pin (Device.ticked w1))
   else Device.ticked w1).

(** [current_time - self.pin_generated_time > self.pin_duration] *)
Definition expired (self : DisplayAuth) (now : Q) : bool :=
  gt (now - pin_generated_time self) (pin_duration self).

(** [verify_pin_checked], branch by branch, from the state [s1] that
    [get_current_pin] leaves. *)
Definition accepted (client_ip : string) (s1 : system) : (bool * string) * system :=
  let token := fst (_generate_session_token (snd s1)) in
  ((true, token),
   (add_token token (reset_attempts client_ip (fst s1)),
    snd (_generate_session_token (snd s1)))).

Definition rejected (client_ip : string) (s1 : system) : (bool * string) * system :=
  let self := increment_counter client_ip (open_counter client_ip (fst s1)) in
  let remaining_attempts :=
    max_attempts self - default 0 (pin_attempts self !! client_ip) in
  let r := get_pin_time_remaining (self, snd s1) in
  ((false, invalid_pin_message remaining_attempts (fst r)), snd r).

(** The rate-limit test at the head of [verify_pin]. *)
Definition locked (client_ip : string) (self : DisplayAuth) : bool :=
  match pin_attempts self !! client_ip with
  | Some n => max_attempts self <=? n
  | None => false
  end.

End AuthViews.

Ltac unfold_monad :=
  unfold bind, ret, Auth.device, Auth.get, Auth.update, Device.monotonic,
    Device.show_auth_screen in *.

(** ** Traces of a DisplayAuth object *)

Module AuthTraces.
Import Py Auth.

Definition event : Type := call * reply.

(** What one completed call does to the set of valid tokens. *)
Definition step_tokens (e : event) (tokens : gset string) : gset string :=
  match e with
  | (VerifyPin _ _, RVerify true token) => {[ token ]} ∪ tokens
  | (LogoutAll, _) => ∅
  | _ => tokens
  end.

(** The token a completed call handed out, if any. *)
Definition minted (e : event) : option string :=
  match e with
  | (VerifyPin _ _, RVerify true token) => Some token
  | _ => None
  end.

Definition is_logout (e : event) : bool :=
  match e with
  | (LogoutAll, _) => true
  | _ => false
  end.

(** No [logout_all] among the calls of the trace. *)
Definition no_logout (trace : list event) : bool :=
  forallb (fun e => negb (is_logout e)) trace.

(** [token] was returned by a successful [verify_pin] of the trace and no
    [logout_all] came after it. *)
Definition issued (token : string) (trace : list event) : Prop :=
  exists before entered_pin client_ip after,
    trace = (before ++ (VerifyPin entered_pin client_ip, RVerify true token) :: after)%list
    /\ no_logout after = true.

(** The rotating challenge: the PIN and when it was generated. *)
Definition challenge (self : DisplayAuth) : Py.value * Q :=
  (current_pin self, pin_generated_time self).

(** A repeated [verify_pin] by one client, one call per submitted PIN. *)
Definition retries (client_ip : string) (pins : list Py.value) : list call :=
  map (fun p => VerifyPin p client_ip) pins.

(** Whether a call gets as far as [self.get_current_pin()]: the method
    itself, [get_auth_info], and [verify_pin] once past its rate-limit
    test.  [refresh_pin] is called by the constructor and by
    [get_current_pin] only. *)
Definition reaches_get_current_pin (c : call) (self : DisplayAuth) : bool :=
  match c with
  | GetCurrentPin | GetAuthInfo => true
  | VerifyPin _ client_ip => negb (AuthViews.locked client_ip self)
  | RefreshPin | GetPinTimeRemaining | VerifyToken _ | LogoutAll => false
  end.

(** The first binary64 number above 120; the numbers from 64 to 128 are
    [2^-46] apart. *)
Definition above_120 : Q := 120 + (1 # 70368744177664).

End AuthTraces.

(** ** Sample DisplayAuth states *)

Module AuthSamples.
Import Py Auth.

(** PIN 482913 generated at [t = 0]; client A has used up its attempts. *)
Definition locked_out : DisplayAuth :=
  Self false (VStr "482913") 0 120 ∅ {[ "A" := 5 ]} 5.

(** The same challenge with no failed attempt recorded. *)
Definition fresh : DisplayAuth :=
  Self false (VStr "482913") 0 120 ∅ ∅ 5.

End AuthSamples.

(** ** The end-to-end scenario: five failures, lockout, rotation at t = 121 *)

Module Scenario.
Import Py Auth.

(** The clock stands at 0 for the first eleven readings (construction and
    five failed verifications), then at 121. *)
Definition scenario_clock : nat -> Q :=
  fun i => if (i <? 11)%nat then 0%Q else 121%Q.

(** The random source hands out the digits of 482913, then of 017744. *)
Definition scenario_random : nat -> Z :=
  fun i => nth i [4; 8; 2; 9; 1; 3; 0; 1; 7; 7; 4; 4] 0.

Definition scenario_device : world :=
  World scenario_clock 0 (Some scenario_random) 0 [] [].

Definition scenario_calls : list call :=
  [ VerifyPin (VStr "000000") "A";
    VerifyPin (VStr "000000") "A";
    VerifyPin (VStr "000000") "A";
    VerifyPin (VStr "000000") "A";
    VerifyPin (VStr "000000") "A";
    VerifyPin (VStr "482913") "A";
    GetCurrentPin;
    VerifyPin (VStr "017744") "A" ].

End Scenario.

(** ** Views of the stored frame *)

Module NVMViews.
Import NVM.

(** The first test of [load_secret]: the four bytes at the offset are not
    the magic. *)
Definition magic_mismatch (self : NVMSecretManager) (buf : list byte) : bool :=
  negb (Py.bytes_eqb
          (Py.slice buf (nvm_offset self) (nvm_offset self + 4))
          (magic self)).

(** The second test: the length byte is there and is zero or larger than
    [secret_length]. *)
Definition bad_length (self : NVMSecretManager) (buf : list byte) : bool :=
  match Py.index buf (nvm_offset self + 4) with
  | Some b =>
      (Byte.to_nat b =? 0)%nat || (secret_length self <? Byte.to_nat b)%nat
  | None => false
  end.

Definition frame_absent (self : NVMSecretManager) (buf : list byte) : bool :=
  magic_mismatch self buf || bad_length self buf.

(** The bytes of the frame region, [5 + secret_length] of them from the
    offset on. *)
Definition frame_region (self : NVMSecretManager) (buf : list byte)
  : list byte :=
  Py.slice buf (nvm_offset self) (nvm_offset self + 5 + secret_length self).

End NVMViews.

(** ** NVMSecretManager: diagnostics and the module-level clear *)

Module NVMInfo.
Import NVM.

(** The dictionaries [get_secret_info] returns: not stored, stored, or the
    [except] result, whose text is that of the exception. *)
Inductive secret_info :=
| NotStored (message : string)
| Stored (length : nat) (secret : string) (nvm_offset : nat) (message : string)
| InfoError.

(** The [try] block of [get_secret_info]; [None] is an exception. *)
Definition get_secret_info_try (self : NVMSecretManager)
  : M world (option secret_info) :=
  fun w =>
    let off := nvm_offset self in
    let magic_check := Py.slice (nvm w) off (off + 4) in
    if negb (Py.bytes_eqb magic_check (magic self))
    then (Some (NotStored "No secret stored"), w)
    else
      match Py.index (nvm w) (off + 4) with
      | None => (None, w)
      | Some b =>
          let secret_len := Byte.to_nat b in
          let '(r, w') := load_secret self w in
          match r with
          | Some secret =>
              (Some (Stored secret_len secret off "Secret found in NVM"), w')
          | None => (None, w')
          end
      end.

Definition get_secret_info (self : NVMSecretManager) : M world secret_info :=
  let* r := get_secret_info_try self in
  match r with
  | Some info => ret info
  | None => ret InfoError
  end.

(** The module-level [clear_totp_secret()]: a default manager, cleared. *)
Definition clear_totp_secret : M world bool :=
  clear_secret (__init__ 0 16).

End NVMInfo.

(** ** DisplayAuth, the second definition (no rate limiting)

    The class statement is repeated further down the file; this later
    definition is the one the name is bound to when [EnhancedWebServer] is
    built. *)

Module Auth2.

Record DisplayAuth := Self {
  display_manager : bool;
  current_pin : Py.value;
  pin_generated_time : Q;
  pin_duration : Q;
  session_tokens : gset string
}.

Definition system : Type := DisplayAuth * world.

Definition device {A} (m : M world A) : M system A :=
  fun '(self, w) => let '(a, w') := m w in (a, (self, w')).

Definition get : M system DisplayAuth := fun '(self, w) => (self, (self, w)).

Definition update (f : DisplayAuth -> DisplayAuth) : M system unit :=
  fun '(self, w) => (tt, (f self, w)).

Definition set_current_pin (v : Py.value) (self : DisplayAuth) :=
  Self (display_manager self) v (pin_generated_time self) (pin_duration self)
       (session_tokens self).

Definition set_pin_generated_time (t : Q) (self : DisplayAuth) :=
  Self (display_manager self) (current_pin self) t (pin_duration self)
       (session_tokens self).

Definition set_session_tokens (ts : gset string) (self : DisplayAuth) :=
  Self (display_manager self) (current_pin self) (pin_generated_time self)
       (pin_duration self) ts.

(** [_generate_random_pin]: six [randint(0, 9)] digits joined, or the
    clock-seeded six digits when [urandom] is missing; the same draws and
    readings as in the first definition. *)
Definition _generate_random_pin : M world string :=
  fun w =>
    match urandom w with
    | Some src => Auth.random_digits src 6 EmptyString w
    | None =>
        (let* t := Device.monotonic in
         let seed := Py.int_of (Py.fmod (t * 1000000) 1000000) in
         ret (Py.format_06d seed)) w
    end.

Definition refresh_pin : M system string :=
  let* pin := device _generate_random_pin in
  run* update (set_current_pin (Py.VStr pin)) in
  let* t := device Device.monotonic in
  run* update (set_pin_generated_time t) in
  let* self := get in
  run* (if display_manager self
        then device (Device.show_auth_screen pin)
        else ret tt) in
  ret pin.

Definition get_current_pin : M system Py.value :=
  let* now := device Device.monotonic in
  let* self := get in
  run* (if Py.gt (now - pin_generated_time self) (pin_duration self)
        then (run* refresh_pin in ret tt)
        else ret tt) in
  let* self := get in
  ret (current_pin self).

(** [get_time_remaining]: the seconds left, not truncated. *)
Definition get_time_remaining : M system Q :=
  let* now := device Device.monotonic in
  let* self := get in
  let elapsed := (now - pin_generated_time self)%Q in
  ret (Py.max0 (pin_duration self - elapsed)).

(** The token is [f"session_{int(time.monotonic() * 1000)}"], with the
    exact product as in the first definition. *)
Definition verify_pin (entered_pin : Py.value) : M system (bool * string) :=
  let* current_pin := get_current_pin in
  if String.eqb (Py.str entered_pin) (Py.str current_pin)
  then
    let* t := device Device.monotonic in
    let token := "session_" ++ Py.str_int (Py.int_of (t * 1000)) in
    run* update (fun self =>
           set_session_tokens ({[ token ]} ∪ session_tokens self) self) in
    ret (true, token)
  else ret (false, "Invalid PIN").

Definition verify_token (token : string) (self : DisplayAuth) : bool :=
  bool_decide (token ∈ session_tokens self).

(** [DisplayAuth(display_manager)]. *)
Definition __init__ (display_manager : bool) : M world DisplayAuth :=
  fun w =>
    let self := Self display_manager Py.VNone 0 120 ∅ in
    let '(_, (self', w')) := refresh_pin (self, w) in
    (self', w').

(** A run of [verify_pin] calls, one per submitted PIN, with the replies. *)
Fixpoint attempts (pins : list Py.value) : M system (list (bool * string)) :=
  match pins with
  | [] => ret []
  | p :: rest =>
      let* r := verify_pin p in
      let* rs := attempts rest in
      ret (r :: rs)
  end.

End Auth2.

(** ** FileManager._get_parent_path *)

Module Files.

(** [s.lstrip(c)] and [s.rstrip(c)] for a one-character set. *)
Fixpoint lstrip (c : ascii) (s : string) : string :=
  match s with
  | EmptyString => EmptyString
  | String d rest => if Ascii.eqb d c then lstrip c rest else s
  end.

Fixpoint rstrip (c : ascii) (s : string) : string :=
  match s with
  | EmptyString => EmptyString
  | String d rest =>
      match rstrip c rest with
      | EmptyString => if Ascii.eqb d c then EmptyString else String d EmptyString
      | String e rest' => String d (String e rest')
      end
  end.

(** [s.strip(c)]. *)
Definition strip (c : ascii) (s : string) : string := rstrip c (lstrip c s).

(** [s.split(sep)] for a one-character separator: at least one part. *)
Fixpoint split (sep : ascii) (s : string) : list string :=
  match s with
  | EmptyString => [EmptyString]
  | String d rest =>
      if Ascii.eqb d sep then EmptyString :: split sep rest
      else match split sep rest with
           | [] => [String d EmptyString]
           | part :: parts => String d part :: parts
           end
  end.

(** [sep.join(parts)]. *)
Fixpoint join (sep : string) (parts : list string) : string :=
  match parts with
  | [] => EmptyString
  | [part] => part
  | part :: rest => part ++ sep ++ join sep rest
  end.

Definition _get_parent_path (path : string) : string :=
  if String.eqb path "/" then "/"
  else
    let parts := split "/" (strip "/" path) in
    if (length parts <=? 1)%nat then "/"
    else "/" ++ join "/" (removelast parts).

(** A path component: not empty and without a slash. *)
Definition component (part : string) : Prop :=
  part <> EmptyString /\ Py.mem_char "/" part = false.

End Files.

(** ** Invariants of a DisplayAuth object *)

Module AuthInvariants.
Import Py Auth.

(** The PIN is a string of six decimal digits. *)
Definition pin_ok (self : DisplayAuth) : Prop :=
  exists pin,
    current_pin self = VStr pin
    /\ String.length pin = 6%nat
    /\ all_chars is_digit pin = true.

(** Every recorded failure count lies between 1 and [max_attempts]. *)
Definition attempts_ok (self : DisplayAuth) : Prop :=
  forall client_ip n,
    pin_attempts self !! client_ip = Some n -> 1 <= n <= max_attempts self.

(** The failures recorded for a client, 0 when it has no counter. *)
Definition count (client_ip : string) (self : DisplayAuth) : Z :=
  default 0 (pin_attempts self !! client_ip).

End AuthInvariants.

(** * Properties *)

(** ** Checks on concrete inputs *)

Module SampleChecks.
Import Samples.

Example str_int_samples :
  Py.str_int 0 = "0" /\ Py.str_int 120 = "120" /\ Py.str_int (-7) = "-7"
  /\ Py.str_int 1000000 = "1000000" /\ Py.format_06d 17744 = "017744".
Proof. repeat split; reflexivity. Qed.

Example contains_samples :
  Py.str_contains "ab" "xxabyy" = true /\ Py.str_contains "ab" "xaxb" = false
  /\ Py.str_contains EmptyString EmptyString = true.
Proof. repeat split; reflexivity. Qed.

Example int_of_samples :
  Py.int_of (7 # 2) = 3 /\ Py.int_of (- (7 # 2)) = -3
  /\ Py.int_of (Py.fmod (2500001 # 2) 1000000) = 250000.
Proof. repeat split; reflexivity. Qed.

Example pin_samples :
  fst (Auth._generate_random_pin (counting 0 0)) = "012345"
  /\ fst (Auth._generate_random_pin (bare (1234567 # 100000) 0)) = "345670".
Proof. split; vm_compute; reflexivity. Qed.

Example token_samples :
  fst (Auth._generate_session_token (counting 0 0))
    = "ABCDEFGHIJKLMNOPQRSTUVWXYZabcdef"
  /\ fst (Auth._generate_session_token (bare (5 # 2) 0)) = "session_2500".
Proof. split; vm_compute; reflexivity. Qed.

Example secret_samples :
  fst (NVM.generate_secret NVM.default (counting 0 0))
    = Some "ABCDEFGHIJKLMNOP"
  /\ fst (NVM.generate_secret NVM.default (bare (3 # 1000) 0))
    = Some "DEFGHIJKLMNOPQRS".
Proof. split; vm_compute; reflexivity. Qed.

Example save_load_sample :
  let '(ok, w) := NVM.save_secret NVM.default "HELLO" (bare 0 32) in
  ok = true /\ fst (NVM.load_secret NVM.default w) = Some "HELLOAAAAAAAAAAA".
Proof. vm_compute. split; reflexivity. Qed.

Example repr_samples :
  Py.repr_str "cookie" = "'cookie'"
  /\ Py.repr_str "it's"
     = String Py.double_quote ("it's" ++ String Py.double_quote EmptyString)
  /\ Py.repr_str (String "a" (String Py.double_quote "b'c"))
     = "'a" ++ String Py.double_quote ("b" ++ String Py.backslash "'c'")
  /\ Py.repr_str (String (ascii_of_nat 127)
                    (String (ascii_of_nat 11)
                       (String (ascii_of_nat 161) EmptyString)))
     = "'" ++ String Py.backslash "x7f" ++ String Py.backslash "x0b"
           ++ String (ascii_of_nat 161) "'"
  /\ Py.repr_list ["a"; "b"] = "['a', 'b']"
  /\ Py.lower "X-Authenticated_Session_Token" = "x-authenticated_session_token".
Proof. repeat split; vm_compute; reflexivity. Qed.

(** Header names are lower-cased and the values of a repeated name
    collected, in the order of arrival. *)
Example headers_samples :
  Gate.Headers_str [("Cookie", "a"); ("Accept", "x"); ("cookie", "b")]
    = "<Headers {'cookie': ['a', 'b'], 'accept': ['x']}>"
  /\ Gate.Headers_str [("Authorization", "Bearer abc")]
     = "<Headers {'authorization': ['Bearer abc']}>".
Proof. split; vm_compute; reflexivity. Qed.

End SampleChecks.

(** ** Facts about the Python built-ins *)

Module PyFacts.
Import Py.





Lemma all_chars_app p s t :
  all_chars p (s ++ t) = all_chars p s && all_chars p t.
Proof.
  induction s as [|d s IH]; simpl; [reflexivity|].
  rewrite IH. apply andb_assoc.
Qed.

Lemma all_chars_repeat p c n : p c = true -> all_chars p (str_repeat c n) = true.
Proof. intros Hc. induction n; simpl; [reflexivity|]. rewrite Hc, IHn. reflexivity. Qed.

Lemma strlen_app s t :
  String.length (s ++ t) = (String.length s + String.length t)%nat.
Proof. induction s as [|a s IH]; simpl; [reflexivity|]. rewrite IH. reflexivity. Qed.

Lemma strlen_repeat c n : String.length (str_repeat c n) = n.
Proof. induction n as [|n IH]; simpl; [reflexivity|]. rewrite IH. reflexivity. Qed.


Lemma digit_char_is_digit d : 0 <= d < 10 -> is_digit (digit_char d) = true.
Proof.
  intros Hd.
  assert (Hc : d = 0 \/ d = 1 \/ d = 2 \/ d = 3 \/ d = 4 \/ d = 5 \/ d = 6
               \/ d = 7 \/ d = 8 \/ d = 9) by lia.
  repeat (destruct Hc as [->|Hc]; [reflexivity|]). subst. reflexivity.
Qed.

Lemma dec_digits_all fuel : forall n acc,
  all_chars is_digit acc = true ->
  all_chars is_digit (dec_digits fuel n acc) = true.
Proof.
  induction fuel as [|fuel IH]; intros n acc Hacc; cbn [dec_digits]; [exact Hacc|].
  assert (Hd : all_chars is_digit (String (digit_char (n mod 10)) acc) = true).
  { cbn [all_chars]. rewrite Hacc, digit_char_is_digit; [reflexivity|].
    apply Z.mod_pos_bound. lia. }
  destruct (n / 10 =? 0); [exact Hd|]. apply IH. exact Hd.
Qed.

Lemma dec_digits_length_le fuel : forall k n acc,
  0 <= n < 10 ^ Z.of_nat (S k) ->
  (String.length (dec_digits fuel n acc) <= S k + String.length acc)%nat.
Proof.
  induction fuel as [|fuel IH]; intros k n acc Hn; cbn [dec_digits]; [lia|].
  destruct (n / 10 =? 0) eqn:Hq; [cbn [String.length]; lia|].
  apply Z.eqb_neq in Hq.
  destruct k as [|k].
  - exfalso. apply Hq. apply Z.div_small. change (10 ^ Z.of_nat 1) with 10 in Hn. lia.
  - specialize (IH k (n / 10) (String (digit_char (n mod 10)) acc)).
    cbn [String.length] in IH.
    assert (0 <= n / 10 < 10 ^ Z.of_nat (S k)).
    { split; [apply Z.div_pos; lia|].
      apply Z.div_lt_upper_bound; [lia|].
      replace (Z.of_nat (S (S k))) with (Z.succ (Z.of_nat (S k))) in Hn by lia.
      rewrite Z.pow_succ_r in Hn by lia. lia. }
    specialize (IH ltac:(assumption)). lia.
Qed.

Lemma dec_digits_length_ge fuel n acc :
  (String.length acc <= String.length (dec_digits fuel n acc))%nat.
Proof.
  revert n acc. induction fuel as [|fuel IH]; intros n acc; cbn [dec_digits]; [lia|].
  destruct (n / 10 =? 0); [cbn [String.length]; lia|].
  specialize (IH (n / 10) (String (digit_char (n mod 10)) acc)).
  cbn [String.length] in IH. lia.
Qed.

Lemma str_int_digits n : 0 <= n -> all_chars is_digit (str_int n) = true.
Proof.
  intros Hn. unfold str_int.
  destruct (n <? 0) eqn:Hneg; [apply Z.ltb_lt in Hneg; lia|].
  apply dec_digits_all. reflexivity.
Qed.

(** [f"{n:06d}"] is six decimal digits whenever [0 <= n < 10^6]. *)
Lemma format_06d_six n :
  0 <= n < 1000000 ->
  String.length (format_06d n) = 6%nat /\ all_chars is_digit (format_06d n) = true.
Proof.
  intros Hn. unfold format_06d, rjust.
  assert (Hlen : (String.length (str_int n) <= 6)%nat).
  { unfold str_int. destruct (n <? 0) eqn:Hneg; [apply Z.ltb_lt in Hneg; lia|].
    unfold dec_of_nonneg.
    pose proof (dec_digits_length_le (S (Z.to_nat (Z.log2 n))) 5 n EmptyString) as H.
    cbn [String.length] in H. apply H.
    change (10 ^ Z.of_nat 6) with 1000000. lia. }
  split.
  - rewrite strlen_app, strlen_repeat. lia.
  - rewrite all_chars_app, all_chars_repeat by reflexivity.
    cbn [andb]. apply str_int_digits. lia.
Qed.

Lemma digit_char_value d :
  0 <= d < 10 -> Z.of_nat (nat_of_ascii (digit_char d)) - 48 = d.
Proof.
  intros Hd.
  assert (Hc : d = 0 \/ d = 1 \/ d = 2 \/ d = 3 \/ d = 4 \/ d = 5 \/ d = 6
               \/ d = 7 \/ d = 8 \/ d = 9) by lia.
  repeat (destruct Hc as [->|Hc]; [reflexivity|]). subst. reflexivity.
Qed.

Lemma dec_digits_value fuel : forall n acc a,
  0 <= n < 10 ^ Z.of_nat fuel ->
  exists k, 0 <= k /\
    dec_value_from a (dec_digits fuel n acc)
      = dec_value_from (a * 10 ^ k + n) acc.
Proof.
  induction fuel as [|fuel IH]; intros n acc a Hn.
  - exists 0. change (10 ^ Z.of_nat 0) with 1 in Hn.
    cbn [dec_digits]. split; [lia|]. f_equal. lia.
  - cbn [dec_digits].
    replace (Z.of_nat (S fuel)) with (Z.succ (Z.of_nat fuel)) in Hn by lia.
    rewrite Z.pow_succ_r in Hn by lia.
    pose proof (Z.mod_pos_bound n 10 ltac:(lia)) as Hmod.
    pose proof (Z.div_mod n 10 ltac:(lia)) as Hdm.
    destruct (n / 10 =? 0) eqn:Hq.
    + apply Z.eqb_eq in Hq. exists 1. split; [lia|].
      cbn [dec_value_from]. rewrite digit_char_value by exact Hmod.
      f_equal. lia.
    + destruct (IH (n / 10) (String (digit_char (n mod 10)) acc) a) as (k & Hk & E).
      { split; [apply Z.div_pos; lia|]. apply Z.div_lt_upper_bound; lia. }
      exists (Z.succ k). split; [lia|].
      rewrite E. cbn [dec_value_from]. rewrite digit_char_value by exact Hmod.
      f_equal. rewrite Z.pow_succ_r by exact Hk. lia.
Qed.

(** [str_int] prints the number it is given: reading the digits back
    returns it. *)
Lemma dec_of_nonneg_value n : 0 <= n -> dec_value (dec_of_nonneg n) = n.
Proof.
  intros Hn. unfold dec_value, dec_of_nonneg.
  destruct (dec_digits_value (S (Z.to_nat (Z.log2 n))) n EmptyString 0)
    as (k & _ & E).
  - split; [exact Hn|].
    destruct (Z.eq_dec n 0) as [->|Hnz]; [reflexivity|].
    destruct (Z.log2_spec n ltac:(lia)) as [_ Hlt].
    replace (Z.of_nat (S (Z.to_nat (Z.log2 n)))) with (Z.succ (Z.log2 n))
      by (pose proof (Z.log2_nonneg n); lia).
    eapply Z.lt_le_trans; [exact Hlt|].
    apply Z.pow_le_mono_l. lia.
  - rewrite E. cbn [dec_value_from]. lia.
Qed.

(** A one-digit number prints as one digit. *)
Lemma str_int_one_digit d :
  0 <= d < 10 ->
  String.length (str_int d) = 1%nat /\ all_chars is_digit (str_int d) = true.
Proof.
  intros Hd.
  assert (Hc : d = 0 \/ d = 1 \/ d = 2 \/ d = 3 \/ d = 4 \/ d = 5 \/ d = 6
               \/ d = 7 \/ d = 8 \/ d = 9) by lia.
  repeat (destruct Hc as [->|Hc]; [split; reflexivity|]). subst. split; reflexivity.
Qed.

Lemma get_mem_char s : forall i c,
  String.get i s = Some c -> mem_char c s = true.
Proof.
  induction s as [|d s IH]; intros i c H; [discriminate|].
  destruct i as [|i]; cbn in H |- *.
  - injection H as ->. rewrite Ascii.eqb_refl. reflexivity.
  - rewrite (IH _ _ H). apply orb_true_r.
Qed.

Lemma get_in_range s : forall i,
  (i < String.length s)%nat -> exists c, String.get i s = Some c.
Proof.
  induction s as [|d s IH]; intros i Hi; cbn in Hi; [lia|].
  destruct i as [|i]; cbn; [eauto|]. apply IH. lia.
Qed.

Lemma str_index_in_range s i :
  0 <= i < Z.of_nat (String.length s) ->
  exists c, str_index s i = Some c /\ mem_char c s = true.
Proof.
  intros Hi. unfold str_index.
  destruct (Z.leb_spec 0 i); [|lia].
  destruct (Z.ltb_spec i (Z.of_nat (String.length s))); [|lia].
  cbn [andb]. destruct (get_in_range s (Z.to_nat i)) as [c Hc]; [lia|].
  exists c. split; [exact Hc|exact (get_mem_char _ _ _ Hc)].
Qed.

End PyFacts.

(** ** DisplayAuth: what each method computes *)

Module AuthFacts.
Import Py Auth AuthViews.

Lemma refresh_pin_eq self w :
  refresh_pin (self, w) =
    (fst (_generate_random_pin w),
     refreshed self (fst (_generate_random_pin w)) (snd (_generate_random_pin w))).
Proof.
  unfold refresh_pin, refreshed. unfold_monad.
  destruct (_generate_random_pin w) as [pin w1]. cbn.
  destruct (display_manager self); reflexivity.
Qed.

Lemma get_current_pin_eq self w :
  get_current_pin (self, w) =
    if expired self (clock w (ticks w))
    then (VStr (fst (refresh_pin (self, Device.ticked w))),
          snd (refresh_pin (self, Device.ticked w)))
    else (current_pin self, (self, Device.ticked w)).
Proof.
  unfold get_current_pin, expired. unfold_monad. cbn.
  destruct (gt _ _); [|reflexivity].
  rewrite refresh_pin_eq. reflexivity.
Qed.

Lemma get_pin_time_remaining_eq self w :
  get_pin_time_remaining (self, w) =
    (int_of (max0 (pin_duration self - (clock w (ticks w) - pin_generated_time self))),
     (self, Device.ticked w)).
Proof. reflexivity. Qed.

(** The three fields rotation never touches. *)
Lemma refreshed_frame self pin w1 :
  pin_attempts (fst (refreshed self pin w1)) = pin_attempts self
  /\ session_tokens (fst (refreshed self pin w1)) = session_tokens self
  /\ max_attempts (fst (refreshed self pin w1)) = max_attempts self
  /\ pin_duration (fst (refreshed self pin w1)) = pin_duration self.
Proof. repeat split. Qed.

Lemma refresh_pin_frame s :
  pin_attempts (fst (snd (refresh_pin s))) = pin_attempts (fst s)
  /\ session_tokens (fst (snd (refresh_pin s))) = session_tokens (fst s)
  /\ max_attempts (fst (snd (refresh_pin s))) = max_attempts (fst s)
  /\ pin_duration (fst (snd (refresh_pin s))) = pin_duration (fst s).
Proof. destruct s as [self w]. rewrite refresh_pin_eq. apply refreshed_frame. Qed.

Lemma get_current_pin_frame s :
  pin_attempts (fst (snd (get_current_pin s))) = pin_attempts (fst s)
  /\ session_tokens (fst (snd (get_current_pin s))) = session_tokens (fst s)
  /\ max_attempts (fst (snd (get_current_pin s))) = max_attempts (fst s)
  /\ pin_duration (fst (snd (get_current_pin s))) = pin_duration (fst s).
Proof.
  destruct s as [self w]. rewrite get_current_pin_eq.
  destruct (expired _ _); cbn [fst snd]; [|repeat split].
  apply (refresh_pin_frame (self, Device.ticked w)).
Qed.

Lemma verify_pin_checked_eq entered_pin client_ip s :
  verify_pin_checked entered_pin client_ip s =
    if String.eqb (str entered_pin) (str (fst (get_current_pin s)))
    then accepted client_ip (snd (get_current_pin s))
    else rejected client_ip (snd (get_current_pin s)).
Proof.
  unfold verify_pin_checked, accepted, rejected.
  unfold bind at 1.
  destruct (get_current_pin s) as [p [self1 w1]]. cbn [fst snd].
  destruct (String.eqb _ _).
  - unfold_monad. cbn. destruct (_generate_session_token w1) as [t w2].
    reflexivity.
  - reflexivity.
Qed.

Lemma verify_pin_eq entered_pin client_ip self w :
  verify_pin entered_pin client_ip (self, w) =
    if locked client_ip self
    then ((false, lockout_message), (self, w))
    else verify_pin_checked entered_pin client_ip (self, w).
Proof.
  unfold verify_pin, locked. unfold bind at 1. unfold get.
  destruct (pin_attempts self !! client_ip) as [n|]; [|reflexivity].
  destruct (max_attempts self <=? n); reflexivity.
Qed.

End AuthFacts.

(** ** DisplayAuth: frame properties of single calls *)

Module AuthFrames.
Import Py Auth AuthViews AuthTraces AuthFacts.

Lemma reset_attempts_other c c' self :
  c <> c' -> pin_attempts (reset_attempts c' self) !! c = pin_attempts self !! c.
Proof.
  intros Hne. unfold reset_attempts.
  destruct (pin_attempts self !! c'); [|reflexivity].
  cbn. apply lookup_delete_ne. congruence.
Qed.

Lemma open_counter_other c c' self :
  c <> c' -> pin_attempts (open_counter c' self) !! c = pin_attempts self !! c.
Proof.
  intros Hne. unfold open_counter.
  destruct (pin_attempts self !! c'); [reflexivity|].
  cbn. apply lookup_insert_ne. congruence.
Qed.

Lemma increment_counter_other c c' self :
  c <> c' -> pin_attempts (increment_counter c' self) !! c = pin_attempts self !! c.
Proof.
  intros Hne. unfold increment_counter.
  destruct (pin_attempts self !! c'); [|reflexivity].
  cbn. apply lookup_insert_ne. congruence.
Qed.

Lemma reset_attempts_max c self :
  max_attempts (reset_attempts c self) = max_attempts self.
Proof. unfold reset_attempts. destruct (_ !! _); reflexivity. Qed.

Lemma open_counter_max c self :
  max_attempts (open_counter c self) = max_attempts self.
Proof. unfold open_counter. destruct (_ !! _); reflexivity. Qed.

Lemma increment_counter_max c self :
  max_attempts (increment_counter c self) = max_attempts self.
Proof. unfold increment_counter. destruct (_ !! _); reflexivity. Qed.

Lemma reset_attempts_tokens c self :
  session_tokens (reset_attempts c self) = session_tokens self.
Proof. unfold reset_attempts. destruct (_ !! _); reflexivity. Qed.

Lemma open_counter_tokens c self :
  session_tokens (open_counter c self) = session_tokens self.
Proof. unfold open_counter. destruct (_ !! _); reflexivity. Qed.

Lemma increment_counter_tokens c self :
  session_tokens (increment_counter c self) = session_tokens self.
Proof. unfold increment_counter. destruct (_ !! _); reflexivity. Qed.

Lemma rejected_self c s1 :
  fst (snd (rejected c s1)) = increment_counter c (open_counter c (fst s1)).
Proof. destruct s1 as [self1 w1]. reflexivity. Qed.

Lemma accepted_self c s1 :
  fst (snd (accepted c s1))
    = add_token (fst (_generate_session_token (snd s1)))
        (reset_attempts c (fst s1)).
Proof. reflexivity. Qed.

(** A [verify_pin] for another client leaves this client's counter and
    the limit alone. *)
Lemma verify_pin_other c c' entered_pin s :
  c <> c' ->
  pin_attempts (fst (snd (verify_pin entered_pin c' s))) !! c
    = pin_attempts (fst s) !! c.
Proof.
  intros Hne. destruct s as [self w]. rewrite verify_pin_eq.
  destruct (locked c' self); [reflexivity|].
  rewrite verify_pin_checked_eq.
  destruct (get_current_pin_frame (self, w)) as (Ha & _).
  rewrite <- Ha.
  destruct (String.eqb _ _).
  - rewrite accepted_self. unfold add_token. cbn. apply reset_attempts_other. exact Hne.
  - rewrite rejected_self.
    rewrite increment_counter_other, open_counter_other by exact Hne.
    reflexivity.
Qed.

Lemma verify_pin_max entered_pin c s :
  max_attempts (fst (snd (verify_pin entered_pin c s))) = max_attempts (fst s).
Proof.
  destruct s as [self w]. rewrite verify_pin_eq.
  destruct (locked c self); [reflexivity|].
  rewrite verify_pin_checked_eq.
  destruct (get_current_pin_frame (self, w)) as (_ & _ & Hm & _).
  rewrite <- Hm.
  destruct (String.eqb _ _).
  - rewrite accepted_self. unfold add_token. cbn. apply reset_attempts_max.
  - rewrite rejected_self.
    rewrite increment_counter_max, open_counter_max. reflexivity.
Qed.

Lemma get_auth_info_state s :
  fst (snd (get_auth_info s)) = fst (snd (get_current_pin s)).
Proof.
  unfold get_auth_info. unfold bind at 1.
  destruct (get_current_pin s) as [p [self1 w1]]. reflexivity.
Qed.

Lemma exec_max c s :
  max_attempts (fst (snd (exec c s))) = max_attempts (fst s).
Proof.
  destruct c; cbn [exec]; unfold bind at 1.
  - destruct (refresh_pin_frame s) as (_ & _ & H & _).
    destruct (refresh_pin s) as [p s1]. exact H.
  - destruct (get_current_pin_frame s) as (_ & _ & H & _).
    destruct (get_current_pin s) as [p s1]. exact H.
  - destruct s as [self w]. reflexivity.
  - pose proof (verify_pin_max entered_pin client_ip s) as H.
    destruct (verify_pin entered_pin client_ip s) as [r s1]. exact H.
  - destruct s as [self w]. reflexivity.
  - pose proof (get_auth_info_state s) as H.
    destruct (get_current_pin_frame s) as (_ & _ & Hm & _).
    destruct (get_auth_info s) as [i s1]. unfold ret. cbn [fst snd] in *.
    rewrite H. exact Hm.
  - destruct s as [self w]. reflexivity.
Qed.

(** Only a [verify_pin] for [c] itself can change the counter of [c]. *)
Lemma exec_attempts c call s :
  (forall entered_pin, call <> VerifyPin entered_pin c) ->
  pin_attempts (fst (snd (exec call s))) !! c = pin_attempts (fst s) !! c.
Proof.
  intros Hcall. destruct call; cbn [exec]; unfold bind at 1.
  - destruct (refresh_pin_frame s) as (H & _).
    destruct (refresh_pin s) as [p s1]. unfold ret. cbn [fst snd] in *. rewrite H. reflexivity.
  - destruct (get_current_pin_frame s) as (H & _).
    destruct (get_current_pin s) as [p s1]. unfold ret. cbn [fst snd] in *. rewrite H. reflexivity.
  - destruct s as [self w]. reflexivity.
  - assert (Hne : c <> client_ip) by (intros ->; exact (Hcall entered_pin eq_refl)).
    pose proof (verify_pin_other c client_ip entered_pin s Hne) as H.
    destruct (verify_pin entered_pin client_ip s) as [r s1]. exact H.
  - destruct s as [self w]. reflexivity.
  - pose proof (get_auth_info_state s) as H.
    destruct (get_current_pin_frame s) as (Ha & _).
    destruct (get_auth_info s) as [i s1]. unfold ret. cbn [fst snd] in *.
    rewrite H, Ha. reflexivity.
  - destruct s as [self w]. reflexivity.
Qed.

Lemma verify_pin_locked entered_pin c n self w :
  pin_attempts self !! c = Some n -> max_attempts self <= n ->
  verify_pin entered_pin c (self, w) = ((false, lockout_message), (self, w)).
Proof.
  intros Hn Hmax. rewrite verify_pin_eq. unfold locked. rewrite Hn.
  destruct (Z.leb_spec (max_attempts self) n); [reflexivity|lia].
Qed.

End AuthFrames.

(** ** DisplayAuth: lockout *)

Module Lockout.
Import Py Auth AuthViews AuthTraces AuthFacts AuthFrames.

Lemma run_cons c rest s :
  run (c :: rest) s =
    ((c, fst (exec c s)) :: fst (run rest (snd (exec c s))),
     snd (run rest (snd (exec c s)))).
Proof.
  cbn [run]. unfold bind, ret.
  destruct (exec c s) as [r s1]. cbn [fst snd].
  destruct (run rest s1) as [tr s2]. reflexivity.
Qed.

Lemma exec_verify_pin entered_pin c s :
  exec (VerifyPin entered_pin c) s =
    (RVerify (fst (fst (verify_pin entered_pin c s)))
             (snd (fst (verify_pin entered_pin c s))),
     snd (verify_pin entered_pin c s)).
Proof.
  cbn [exec]. unfold bind, ret.
  destruct (verify_pin entered_pin c s) as [[ok detail] s1]. reflexivity.
Qed.

(** C2 (amended): once the failure count of [client_ip] has reached
    [max_attempts], [verify_pin] for that client returns
    [(False, "Too many failed attempts. Wait for PIN refresh.")] whatever
    PIN is submitted, takes no clock reading, leaves the object and the
    device untouched, and so does every later call by that client; the
    reply carries the lockout reason only, no time remaining. *)
Theorem verify_pin_lockout_ignores_pin client_ip n self w pins :
  pin_attempts self !! client_ip = Some n ->
  max_attempts self <= n ->
  (forall entered_pin,
      verify_pin entered_pin client_ip (self, w)
        = ((false, lockout_message), (self, w)))
  /\ run (retries client_ip pins) (self, w)
       = (map (fun p => (VerifyPin p client_ip, RVerify false lockout_message))
              pins,
          (self, w)).
Proof.
  intros Hn Hmax. split.
  - intros entered_pin. exact (verify_pin_locked _ _ _ _ _ Hn Hmax).
  - induction pins as [|p pins IH]; [reflexivity|].
    unfold retries in *. cbn [map]. rewrite run_cons, exec_verify_pin.
    rewrite (verify_pin_locked _ _ _ _ _ Hn Hmax). cbn [fst snd].
    rewrite IH. reflexivity.
Qed.

Lemma verify_pin_lockout_witness :
  pin_attempts AuthSamples.locked_out !! "A" = Some 5
  /\ max_attempts AuthSamples.locked_out <= 5
  /\ verify_pin (VStr "482913") "A" (AuthSamples.locked_out, Samples.bare 33 0)
       = ((false, lockout_message), (AuthSamples.locked_out, Samples.bare 33 0)).
Proof.
  assert (H1 : pin_attempts AuthSamples.locked_out !! "A" = Some 5)
    by (vm_compute; reflexivity).
  assert (H2 : max_attempts AuthSamples.locked_out <= 5) by (cbn; lia).
  split; [exact H1|]. split; [exact H2|].
  exact (proj1 (verify_pin_lockout_ignores_pin "A" 5 AuthSamples.locked_out
                  (Samples.bare 33 0) [] H1 H2) (VStr "482913")).
Defined.

(** C2 as stated fails: for the locked-out client A, 87 seconds before the
    PIN expires, the reply to the right PIN is a failure whose text has no
    digit in it, so it does not carry the time remaining. *)
Lemma lockout_reply_lacks_time_remaining :
  let s := (AuthSamples.locked_out, Samples.bare 33 0) in
  fst (get_pin_time_remaining s) = 87
  /\ fst (verify_pin (VStr "482913") "A" s) = (false, lockout_message)
  /\ str_contains (str_int 87) (snd (fst (verify_pin (VStr "482913") "A" s))) = false
  /\ all_chars (fun c => negb (is_digit c))
       (snd (fst (verify_pin (VStr "482913") "A" s))) = true.
Proof. vm_compute. repeat split; reflexivity. Qed.

Lemma locked_step call s c n :
  pin_attempts (fst s) !! c = Some n -> max_attempts (fst s) <= n ->
  pin_attempts (fst (snd (exec call s))) !! c = Some n
  /\ max_attempts (fst (snd (exec call s))) = max_attempts (fst s)
  /\ forall entered_pin,
       call = VerifyPin entered_pin c ->
       fst (exec call s) = RVerify false lockout_message.
Proof.
  intros Hn Hmax. split; [|split; [apply exec_max|]].
  - destruct call as [ | | |p c'| | | ];
      try (rewrite exec_attempts; [exact Hn|intros; discriminate]).
    destruct (decide (c' = c)) as [->|Hne].
    + rewrite exec_verify_pin. destruct s as [self w].
      rewrite (verify_pin_locked _ _ _ _ _ Hn Hmax). exact Hn.
    + rewrite exec_attempts; [exact Hn|]. intros e [= _ ?]. congruence.
  - intros entered_pin ->. rewrite exec_verify_pin. destruct s as [self w].
    rewrite (verify_pin_locked _ _ _ _ _ Hn Hmax). reflexivity.
Qed.

Lemma locked_run calls : forall s c n,
  pin_attempts (fst s) !! c = Some n -> max_attempts (fst s) <= n ->
  pin_attempts (fst (snd (run calls s))) !! c = Some n
  /\ max_attempts (fst (snd (run calls s))) = max_attempts (fst s)
  /\ forall entered_pin r,
       In (VerifyPin entered_pin c, r) (fst (run calls s)) ->
       r = RVerify false lockout_message.
Proof.
  induction calls as [|call calls IH]; intros s c n Hn Hmax.
  - cbn. repeat split; [exact Hn|]. intros ? ? [].
  - rewrite run_cons. cbn [fst snd].
    destruct (locked_step call s c n Hn Hmax) as (Hn1 & Hm1 & Hr1).
    rewrite <- Hm1 in Hmax.
    destruct (IH _ c n Hn1 Hmax) as (Hn2 & Hm2 & Hr2).
    split; [exact Hn2|]. split; [congruence|].
    intros entered_pin r [Heq|Hin].
    + injection Heq as Hc Hr. rewrite <- Hr. exact (Hr1 entered_pin Hc).
    + exact (Hr2 _ _ Hin).
Qed.

(** C10: [refresh_pin] and [get_current_pin] leave [pin_attempts] as it
    was, and a client whose count has reached [max_attempts] stays locked
    out through any later run of calls on the object, rotations included:
    its count never changes and each of its [verify_pin] calls gets the
    lockout reply. *)
Theorem rotation_keeps_attempts :
  (forall s, pin_attempts (fst (snd (refresh_pin s))) = pin_attempts (fst s))
  /\ (forall s, pin_attempts (fst (snd (get_current_pin s))) = pin_attempts (fst s))
  /\ (forall calls s c n,
        pin_attempts (fst s) !! c = Some n -> max_attempts (fst s) <= n ->
        pin_attempts (fst (snd (run calls s))) !! c = Some n
        /\ max_attempts (fst (snd (run calls s))) = max_attempts (fst s)
        /\ forall entered_pin r,
             In (VerifyPin entered_pin c, r) (fst (run calls s)) ->
             r = RVerify false lockout_message).
Proof.
  split; [|split].
  - intros s. apply refresh_pin_frame.
  - intros s. apply get_current_pin_frame.
  - intros calls. apply locked_run.
Qed.

Lemma rotation_keeps_attempts_witness :
  let s := (AuthSamples.locked_out, Samples.counting 200 0) in
  let calls := [GetCurrentPin; VerifyPin (VStr "012345") "A"] in
  pin_attempts (fst s) !! "A" = Some 5
  /\ max_attempts (fst s) <= 5
  /\ pin_attempts (fst (snd (run calls s))) !! "A" = Some 5.
Proof.
  intros s calls.
  assert (H1 : pin_attempts (fst s) !! "A" = Some 5) by (vm_compute; reflexivity).
  assert (H2 : max_attempts (fst s) <= 5) by (cbn; lia).
  split; [exact H1|]. split; [exact H2|].
  exact (proj1 (proj2 (proj2 rotation_keeps_attempts) calls s "A" 5 H1 H2)).
Defined.

End Lockout.

(** ** DisplayAuth: session tokens *)

Module Tokens.
Import Py Auth AuthViews AuthTraces AuthFacts AuthFrames Lockout.

Lemma step_tokens_cases e tokens :
  step_tokens e tokens =
    if is_logout e then ∅
    else match minted e with
         | Some token => {[ token ]} ∪ tokens
         | None => tokens
         end.
Proof.
  destruct e as [[] []]; try reflexivity; destruct ok; reflexivity.
Qed.

Lemma minted_iff e token :
  minted e = Some token <->
  exists entered_pin client_ip,
    e = (VerifyPin entered_pin client_ip, RVerify true token).
Proof.
  split.
  - destruct e as [[] []]; try discriminate.
    destruct ok; [|discriminate]. intros [= ->]. eauto.
  - intros (p & c & ->). reflexivity.
Qed.

Lemma issued_nil token : ~ issued token [].
Proof. intros (before & p & c & after & H & _). destruct before; discriminate. Qed.

Lemma issued_cons token e trace :
  issued token (e :: trace) <->
  issued token trace \/ (minted e = Some token /\ no_logout trace = true).
Proof.
  split.
  - intros (before & p & c & after & H & Hafter).
    destruct before as [|e' before]; cbn in H; injection H as -> ->.
    + right. split; [reflexivity|exact Hafter].
    + left. exists before, p, c, after. split; [reflexivity|exact Hafter].
  - intros [(before & p & c & after & -> & Hafter)|[Hm Hno]].
    + exists (e :: before), p, c, after. split; [reflexivity|exact Hafter].
    + apply minted_iff in Hm as (p & c & ->).
      exists [], p, c, trace. split; [reflexivity|exact Hno].
Qed.

(** The token set after a trace, from the token set before it. *)
Lemma fold_tokens_iff trace : forall tokens token,
  token ∈ foldl (fun ts e => step_tokens e ts) tokens trace <->
  issued token trace \/ (token ∈ tokens /\ no_logout trace = true).
Proof.
  induction trace as [|e trace IH]; intros tokens token.
  - cbn. split; [intros H; right; split; [exact H|reflexivity]|].
    intros [H|[H _]]; [destruct (issued_nil _ H)|exact H].
  - cbn [foldl]. rewrite IH, issued_cons, step_tokens_cases.
    unfold no_logout at 3. cbn [forallb]. fold (no_logout trace).
    destruct (is_logout e) eqn:Hlog; cbn [negb andb].
    + assert (Hm : minted e = None)
        by (destruct e as [[] []]; try reflexivity; discriminate).
      rewrite Hm. pose proof (not_elem_of_empty (C:=gset string) token).
      intuition (try discriminate).
    + destruct (minted e) as [t|].
      * rewrite elem_of_union, elem_of_singleton.
        intuition (subst; try congruence; auto).
      * intuition (try discriminate).
Qed.

Lemma exec_tokens call s :
  session_tokens (fst (snd (exec call s)))
    = step_tokens (call, fst (exec call s)) (session_tokens (fst s)).
Proof.
  destruct call as [ | | |p c| | | ].
  - cbn [exec]. unfold bind, ret.
    destruct (refresh_pin_frame s) as (_ & H & _).
    destruct (refresh_pin s) as [pin s1]. exact H.
  - cbn [exec]. unfold bind, ret.
    destruct (get_current_pin_frame s) as (_ & H & _).
    destruct (get_current_pin s) as [pin s1]. exact H.
  - destruct s as [self w]. reflexivity.
  - rewrite exec_verify_pin. cbn [fst snd].
    rewrite <- (proj1 (proj2 (get_current_pin_frame s))).
    destruct s as [self w].
    rewrite verify_pin_eq. destruct (locked c self).
    { cbn [fst snd step_tokens].
      exact (eq_sym (proj1 (proj2 (get_current_pin_frame (self, w))))). }
    rewrite verify_pin_checked_eq.
    destruct (String.eqb _ _).
    + rewrite accepted_self. unfold accepted. cbn.
      rewrite reset_attempts_tokens. reflexivity.
    + rewrite rejected_self. unfold rejected. cbn.
      rewrite increment_counter_tokens, open_counter_tokens. reflexivity.
  - destruct s as [self w]. reflexivity.
  - cbn [exec]. unfold bind, ret.
    pose proof (get_auth_info_state s) as Hs.
    destruct (get_current_pin_frame s) as (_ & H & _).
    destruct (get_auth_info s) as [i s1]. cbn [fst snd step_tokens] in *.
    rewrite Hs. exact H.
  - destruct s as [self w]. reflexivity.
Qed.

Lemma run_tokens calls : forall s,
  session_tokens (fst (snd (run calls s)))
    = foldl (fun ts e => step_tokens e ts) (session_tokens (fst s))
        (fst (run calls s)).
Proof.
  induction calls as [|call calls IH]; intros s; [reflexivity|].
  rewrite run_cons. cbn [fst snd foldl].
  rewrite IH, exec_tokens. reflexivity.
Qed.

Lemma init_tokens dm w0 : session_tokens (fst (__init__ dm w0)) = ∅.
Proof.
  unfold __init__.
  destruct (refresh_pin_frame (Self dm VNone 0 120 ∅ ∅ 5, w0)) as (_ & H & _).
  destruct (refresh_pin _) as [pin [self w]]. exact H.
Qed.

(** C5: on a [DisplayAuth] object that has gone through any run of calls
    since its construction, [verify_token(token)] is true exactly when
    [token] is in [session_tokens], that is, exactly when some successful
    [verify_pin] of the run returned [token] and no [logout_all] followed
    it. *)
Theorem verify_token_iff_issued dm w0 calls token :
  let result := run calls (__init__ dm w0) in
  (verify_token token (fst (snd result)) = true
     <-> token ∈ session_tokens (fst (snd result)))
  /\ (verify_token token (fst (snd result)) = true
      <-> issued token (fst result)).
Proof.
  intros result.
  assert (Hmem : verify_token token (fst (snd result)) = true
                 <-> token ∈ session_tokens (fst (snd result))).
  { unfold verify_token. apply bool_decide_eq_true. }
  split; [exact Hmem|].
  rewrite Hmem. subst result.
  rewrite run_tokens, fold_tokens_iff, init_tokens.
  split.
  - intros [H|[H _]]; [exact H|]. exfalso. exact (not_elem_of_empty _ H).
  - intros H. left. exact H.
Qed.

End Tokens.

(** ** Rationals: [int()] and [%] *)

Module QFacts.
Import Py.

Lemma int_of_floor x : (0 <= x)%Q -> int_of x = Qfloor x.
Proof.
  destruct x as [n d]. unfold Qle, int_of, Qfloor. cbn. intros Hn.
  apply Z.quot_div_nonneg; lia.
Qed.

Lemma int_of_bounds x k :
  (0 <= x)%Q -> (x < inject_Z k)%Q -> 0 <= int_of x < k.
Proof.
  intros H0 Hk. rewrite (int_of_floor _ H0). split.
  - destruct x as [n d]. unfold Qle in H0. cbn in *.
    apply Z.div_pos; lia.
  - rewrite Zlt_Qlt. eapply Qle_lt_trans; [apply Qfloor_le|exact Hk].
Qed.

Lemma fmod_bounds x m : (0 < m)%Q -> (0 <= fmod x m)%Q /\ (fmod x m < m)%Q.
Proof.
  intros Hm. unfold fmod.
  pose proof (Qfloor_le (x / m)) as Hlo.
  pose proof (Qlt_floor (x / m)) as Hhi.
  rewrite inject_Z_plus in Hhi.
  set (q := inject_Z (Qfloor (x / m))) in *.
  assert (Hx : (m * (x / m) == x)%Q).
  { apply Qmult_div_r. intros Hz. rewrite Hz in Hm. discriminate. }
  assert (H1 : (m * q <= m * (x / m))%Q)
    by exact (proj2 (Qmult_le_l _ _ _ Hm) Hlo).
  assert (H2 : (m * (x / m) < m * (q + inject_Z 1))%Q)
    by exact (proj2 (Qmult_lt_l _ _ _ Hm) Hhi).
  rewrite Hx in H1, H2.
  assert (H3 : (m * (q + inject_Z 1) == m * q + m)%Q) by (unfold inject_Z; ring).
  rewrite H3 in H2.
  split; lra.
Qed.

Lemma gt_false x y : gt x y = false <-> (x <= y)%Q.
Proof.
  unfold gt. rewrite negb_false_iff. apply Qle_bool_iff.
Qed.

Lemma gt_true x y : gt x y = true <-> (y < x)%Q.
Proof.
  unfold gt. rewrite negb_true_iff. split.
  - intros H. apply Qnot_le_lt. intros Hle.
    apply Qle_bool_iff in Hle. congruence.
  - intros H. destruct (Qle_bool x y) eqn:E; [|reflexivity].
    apply Qle_bool_iff in E. exfalso. exact (Qlt_not_le _ _ H E).
Qed.

End QFacts.

(** ** DisplayAuth: the rotating PIN *)

Module Rotation.
Import Py Auth AuthViews AuthTraces PyFacts QFacts AuthFacts AuthFrames Lockout.

Lemma random_digits_step src n pin w :
  random_digits src (S n) pin w
    = random_digits src n
        (pin ++ str_int (0 + src (draws w) mod (9 - 0 + 1))) (Device.drawn w).
Proof. reflexivity. Qed.

Lemma random_digits_shape src n : forall pin w,
  all_chars is_digit pin = true ->
  String.length (fst (random_digits src n pin w)) = (String.length pin + n)%nat
  /\ all_chars is_digit (fst (random_digits src n pin w)) = true.
Proof.
  induction n as [|n IH]; intros pin w Hpin.
  - cbn. split; [lia|exact Hpin].
  - rewrite random_digits_step.
    assert (Hd : 0 <= 0 + src (draws w) mod (9 - 0 + 1) < 10).
    { change (9 - 0 + 1) with 10.
      pose proof (Z.mod_pos_bound (src (draws w)) 10). lia. }
    destruct (str_int_one_digit _ Hd) as [Hl Ha].
    destruct (IH (pin ++ str_int (0 + src (draws w) mod (9 - 0 + 1)))
                 (Device.drawn w)) as [IHl IHa].
    + rewrite all_chars_app, Hpin, Ha. reflexivity.
    + split; [|exact IHa]. rewrite IHl, strlen_app, Hl. lia.
Qed.

(** [_generate_random_pin] always returns six decimal digits. *)
Lemma generate_random_pin_six w :
  String.length (fst (_generate_random_pin w)) = 6%nat
  /\ all_chars is_digit (fst (_generate_random_pin w)) = true.
Proof.
  unfold _generate_random_pin. destruct (urandom w) as [src|].
  - apply (random_digits_shape src 6 EmptyString w). reflexivity.
  - unfold bind, Device.monotonic, ret. cbn [fst].
    apply format_06d_six.
    destruct (fmod_bounds (clock w (ticks w) * 1000000) 1000000) as [H0 H1];
      [reflexivity|].
    apply int_of_bounds; [exact H0|exact H1].
Qed.

Lemma challenge_reset c self : challenge (reset_attempts c self) = challenge self.
Proof. unfold reset_attempts. destruct (_ !! _); reflexivity. Qed.

Lemma challenge_open c self : challenge (open_counter c self) = challenge self.
Proof. unfold open_counter. destruct (_ !! _); reflexivity. Qed.

Lemma challenge_increment c self :
  challenge (increment_counter c self) = challenge self.
Proof. unfold increment_counter. destruct (_ !! _); reflexivity. Qed.

Lemma get_current_pin_live self w :
  expired self (clock w (ticks w)) = false ->
  get_current_pin (self, w) = (current_pin self, (self, Device.ticked w)).
Proof. intros H. rewrite get_current_pin_eq, H. reflexivity. Qed.

(** Short of [refresh_pin] itself, no call changes the challenge while
    the PIN is not expired at the clock reading the call starts with. *)
Lemma exec_keeps_live_challenge call self w :
  call <> RefreshPin ->
  expired self (clock w (ticks w)) = false ->
  challenge (fst (snd (exec call (self, w)))) = challenge self.
Proof.
  intros Hcall Hlive. destruct call as [ | | |p c| | | ].
  - congruence.
  - cbn [exec]. unfold bind, ret.
    rewrite (get_current_pin_live _ _ Hlive). reflexivity.
  - reflexivity.
  - rewrite exec_verify_pin. cbn [fst snd]. rewrite verify_pin_eq.
    destruct (locked c self); [reflexivity|].
    rewrite verify_pin_checked_eq, (get_current_pin_live _ _ Hlive).
    cbn [fst snd]. destruct (String.eqb _ _).
    + rewrite accepted_self. cbn [fst snd].
      unfold add_token. apply challenge_reset.
    + rewrite rejected_self. cbn [fst snd].
      rewrite challenge_increment. apply challenge_open.
  - reflexivity.
  - cbn [exec]. unfold bind, ret.
    pose proof (get_auth_info_state (self, w)) as Hs.
    rewrite (get_current_pin_live _ _ Hlive) in Hs. cbn [fst snd] in Hs.
    destruct (get_auth_info (self, w)) as [i s1]. cbn [fst snd] in *.
    rewrite Hs. reflexivity.
  - reflexivity.
Qed.

(** Every change of the challenge is made by [get_current_pin]: a call
    that reaches it leaves the challenge as [get_current_pin] alone would
    have, any other call leaves it as it was, whatever the clock reads;
    [refresh_pin] apart, which is the step [get_current_pin] itself
    takes. *)
Lemma exec_challenge_on_demand call self w :
  call <> RefreshPin ->
  challenge (fst (snd (exec call (self, w))))
    = if reaches_get_current_pin call self
      then challenge (fst (snd (get_current_pin (self, w))))
      else challenge self.
Proof.
  intros Hcall. destruct call as [ | | |p c| | | ];
    cbn [reaches_get_current_pin].
  - congruence.
  - cbn [exec]. unfold bind, ret.
    destruct (get_current_pin (self, w)) as [v s1]. reflexivity.
  - reflexivity.
  - rewrite exec_verify_pin. cbn [fst snd]. rewrite verify_pin_eq.
    destruct (locked c self); [reflexivity|]. cbn [negb].
    rewrite verify_pin_checked_eq. destruct (String.eqb _ _).
    + rewrite accepted_self. unfold add_token. apply challenge_reset.
    + rewrite rejected_self.
      rewrite challenge_increment. apply challenge_open.
  - reflexivity.
  - cbn [exec]. unfold bind, ret.
    pose proof (get_auth_info_state (self, w)) as Hs.
    destruct (get_auth_info (self, w)) as [i s1]. cbn [fst snd] in *.
    rewrite Hs. reflexivity.
  - reflexivity.
Qed.

(** C4 (amended): with the challenge generated at [t0], [get_current_pin]
    returns the stored PIN unchanged, and leaves the challenge as it is,
    at every reading [now] with [now - t0 <= duration], the boundary
    [now = t0 + duration] included.  With the duration 120 and a reading
    with [now - t0 >= 120 + 2^-46], the first binary64 number above 120
    (so that the rounded difference the code computes exceeds 120 as
    well), it runs [refresh_pin] once and returns the PIN that
    [_generate_random_pin] produced, six decimal digits, which is drawn
    afresh and need not differ from the old one; the generation time
    becomes the reading [refresh_pin] takes.  Rotation is driven by demand
    alone: whatever the clock reads, [get_pin_time_remaining],
    [verify_token], [logout_all] and a [verify_pin] that is refused for
    too many attempts leave the challenge as it was, and [verify_pin]
    otherwise and [get_auth_info] leave it as their call of
    [get_current_pin] does. *)
Theorem get_current_pin_rotation self w :
  let now := clock w (ticks w) in
  ((now - pin_generated_time self <= pin_duration self)%Q ->
     get_current_pin (self, w) = (current_pin self, (self, Device.ticked w)))
  /\ ((pin_duration self == 120)%Q ->
      (above_120 <= now - pin_generated_time self)%Q ->
      let fresh := _generate_random_pin (Device.ticked w) in
      get_current_pin (self, w)
        = (VStr (fst fresh), refreshed self (fst fresh) (snd fresh))
      /\ challenge (fst (snd (get_current_pin (self, w))))
         = (VStr (fst fresh), clock (snd fresh) (ticks (snd fresh)))
      /\ String.length (fst fresh) = 6%nat
      /\ all_chars is_digit (fst fresh) = true)
  /\ (forall call,
        call <> RefreshPin ->
        challenge (fst (snd (exec call (self, w))))
          = if reaches_get_current_pin call self
            then challenge (fst (snd (get_current_pin (self, w))))
            else challenge self).
Proof.
  intros now. subst now. split; [|split].
  - intros Hle. apply get_current_pin_live. apply gt_false. exact Hle.
  - intros Hd Hgt fresh.
    assert (Heq : get_current_pin (self, w)
                  = (VStr (fst fresh), refreshed self (fst fresh) (snd fresh))).
    { rewrite get_current_pin_eq. unfold expired.
      assert (Hlt : (pin_duration self
                     < clock w (ticks w) - pin_generated_time self)%Q).
      { rewrite Hd. eapply Qlt_le_trans; [|exact Hgt]. reflexivity. }
      rewrite (proj2 (gt_true _ _) Hlt), refresh_pin_eq. reflexivity. }
    split; [exact Heq|]. split; [|apply generate_random_pin_six].
    rewrite Heq. reflexivity.
  - intros call Hcall. apply exec_challenge_on_demand. exact Hcall.
Qed.

Lemma get_current_pin_rotation_witness :
  let self := AuthSamples.fresh in
  let early := Samples.counting 60 0 in
  let late := Samples.counting 121 0 in
  (clock early (ticks early) - pin_generated_time self <= pin_duration self)%Q
  /\ (pin_duration self == 120)%Q
  /\ (above_120 <= clock late (ticks late) - pin_generated_time self)%Q
  /\ get_current_pin (self, early) = (VStr "482913", (self, Device.ticked early))
  /\ get_current_pin (self, late)
     = (VStr "012345",
        refreshed self "012345"
          (snd (_generate_random_pin (Device.ticked late)))).
Proof.
  intros self early late.
  assert (He : (clock early (ticks early) - pin_generated_time self
                <= pin_duration self)%Q) by (vm_compute; discriminate).
  assert (Hd : (pin_duration self == 120)%Q) by reflexivity.
  assert (Hl : (above_120 <= clock late (ticks late) - pin_generated_time self)%Q)
    by (vm_compute; discriminate).
  split; [exact He|]. split; [exact Hd|]. split; [exact Hl|]. split.
  - exact (proj1 (get_current_pin_rotation self early) He).
  - exact (proj1 (proj1 (proj2 (get_current_pin_rotation self late)) Hd Hl)).
Defined.

(** C4 as stated fails at the boundary: the PIN 482913 was generated at
    [t0 = 0] with duration 120 and the clock reads exactly 120, so
    [now >= t0 + 120]; [get_current_pin] still returns 482913, although
    the random source would have produced 012345. *)
Lemma pin_kept_at_exact_expiry :
  let self := AuthSamples.fresh in
  let w := Samples.counting 120 0 in
  (pin_generated_time self + 120 <= clock w (ticks w))%Q
  /\ fst (get_current_pin (self, w)) = current_pin self
  /\ fst (_generate_random_pin (Device.ticked w)) = "012345"
  /\ current_pin self = VStr "482913".
Proof.
  cbv zeta. split; [vm_compute; discriminate|].
  split; [vm_compute; reflexivity|].
  split; [vm_compute; reflexivity|reflexivity].
Qed.

(** A rotation draws the new PIN independently of the old one: here the
    expired PIN 012345 is replaced by 012345. *)
Example rotation_may_repeat_pin :
  let self := set_current_pin (VStr "012345") AuthSamples.fresh in
  let w := Samples.counting 200 0 in
  expired self (clock w (ticks w)) = true
  /\ fst (get_current_pin (self, w)) = current_pin self
  /\ pin_generated_time (fst (snd (get_current_pin (self, w)))) = 200%Q.
Proof. cbv zeta. repeat split; vm_compute; reflexivity. Qed.

(** C3, the scenario on the code: after construction the PIN is 482913;
    client A fails five times and is locked out on the sixth call although
    the PIN is right; at [t = 121] the challenge rotates to 017744, and
    [verify_pin("017744", "A")] is rejected with the lockout reply: no
    token is issued, the count of A is still 5. *)
Theorem scenario_ends_locked_out :
  let s0 := __init__ true Scenario.scenario_device in
  let result := run Scenario.scenario_calls s0 in
  current_pin (fst s0) = VStr "482913"
  /\ map snd (fst result) =
       [ RVerify false (invalid_pin_message 4 120);
         RVerify false (invalid_pin_message 3 120);
         RVerify false (invalid_pin_message 2 120);
         RVerify false (invalid_pin_message 1 120);
         RVerify false (invalid_pin_message 0 120);
         RVerify false lockout_message;
         RValue (VStr "017744");
         RVerify false lockout_message ]
  /\ current_pin (fst (snd result)) = VStr "017744"
  /\ pin_attempts (fst (snd result)) !! "A" = Some 5
  /\ session_tokens (fst (snd result)) = ∅.
Proof.
  cbv zeta. repeat split; vm_compute; reflexivity.
Qed.

End Rotation.

(** ** Session tokens and the access gate *)

Module GateFacts.
Import Py Auth AuthViews AuthTraces PyFacts AuthFacts Gate.







End GateFacts.

Module GateClaims.
Import Py Auth AuthViews PyFacts AuthFacts Gate GateFacts.

Lemma check_auth_dict d :
  _check_auth (Server true) (Req (Some (HeadersDict d)))
    = str_contains literal (default EmptyString (d !! "Authorization")).
Proof.
  unfold _check_auth, auth_header. cbn [auth_required negb req_headers].
  case_bool_decide as Hd; [|reflexivity].
  subst d. rewrite lookup_empty. reflexivity.
Qed.

(** C1, on the code: with [auth_required] true the gate admits requests
    that have no [Authorization] header at all.  The header object of the
    HTTP library is not a [dict], so the gate searches
    [str(request.headers)], which shows every header name, lower-cased,
    and every value: a cookie that carries the literal opens the gate, and
    so does a header whose name spells it, in whatever case.  The same
    cookie in a [dict] of headers is refused, as the comment in the code
    and the claim have it: for a [dict] the gate searches the
    [Authorization] entry and nothing else.  With [auth_required] false
    every request is admitted. *)
Theorem check_auth_accepts_other_header :
  let cookie := [("Cookie", "authenticated_session_token")] in
  let named := [("X-Authenticated_Session_Token", "1")] in
  Headers_str cookie = "<Headers {'cookie': ['authenticated_session_token']}>"
  /\ Headers_str named = "<Headers {'x-authenticated_session_token': ['1']}>"
  /\ authorization_value (Req (Some (HeadersObject cookie))) = EmptyString
  /\ authorization_value (Req (Some (HeadersObject named))) = EmptyString
  /\ _check_auth (Server true) (Req (Some (HeadersObject cookie)))
       = true
  /\ _check_auth (Server true) (Req (Some (HeadersObject named)))
       = true
  /\ _check_auth (Server true)
       (Req (Some (HeadersDict {[ "Cookie" := "authenticated_session_token" ]})))
       = false
  /\ (forall d,
        _check_auth (Server true) (Req (Some (HeadersDict d)))
          = str_contains literal (default EmptyString (d !! "Authorization")))
  /\ (forall request, _check_auth (Server false) request = true).
Proof.
  cbv zeta. repeat split; try (vm_compute; reflexivity).
  intros d. apply check_auth_dict.
Qed.




End GateClaims.

(** ** NVMSecretManager: the stored frame *)

Module NVMFacts.
Import Py PyFacts QFacts NVM NVMViews.

Lemma seeded_chars_total seed n : forall i secret,
  exists s, seeded_chars seed i n secret = Some s.
Proof.
  induction n as [|n IH]; intros i secret; cbn [seeded_chars]; [eauto|].
  destruct (str_index_in_range chars ((seed + i) mod 32)) as (c & Hc & _).
  { change (Z.of_nat (String.length chars)) with 32.
    apply Z.mod_pos_bound. lia. }
  rewrite Hc. apply IH.
Qed.

Lemma generate_secret_fallback_total self w :
  exists s, fst (generate_secret_fallback self w) = Some s.
Proof.
  unfold generate_secret_fallback, bind, Device.monotonic, ret. cbn [fst].
  apply seeded_chars_total.
Qed.

(** [generate_secret] always returns a secret. *)
Lemma generate_secret_total self w :
  exists s, fst (generate_secret self w) = Some s.
Proof.
  unfold generate_secret. destruct (urandom w) as [src|].
  - destruct (random_chars src (secret_length self) EmptyString w) as [[s|] w1].
    + exists s. reflexivity.
    + apply generate_secret_fallback_total.
  - apply generate_secret_fallback_total.
Qed.

Lemma generate_and_save_eq self w secret :
  fst (generate_secret self w) = Some secret ->
  _generate_and_save_new_secret self w =
    let w1 := snd (generate_secret self w) in
    if fst (save_secret self secret w1)
    then (Some secret, snd (save_secret self secret w1))
    else (Some "JBSWY3DPEHPK3PXP", snd (save_secret self secret w1)).
Proof.
  intros Hg. unfold _generate_and_save_new_secret. unfold bind at 1.
  destruct (generate_secret self w) as [g w1]. cbn [fst snd] in *. subst g.
  unfold bind, ret. destruct (save_secret self secret w1) as [[] w2]; reflexivity.
Qed.

(** A failed [save_secret] has written nothing. *)
Lemma save_secret_failed self secret w :
  fst (save_secret self secret w) = false -> snd (save_secret self secret w) = w.
Proof.
  unfold save_secret. destruct (frame self (fit self secret)) as [data|]; [|reflexivity].
  destruct (store (nvm w) (nvm_offset self) data); [discriminate|reflexivity].
Qed.

Lemma generate_and_save_total self w :
  exists s, fst (_generate_and_save_new_secret self w) = Some s.
Proof.
  destruct (generate_secret_total self w) as [secret Hg].
  rewrite (generate_and_save_eq _ _ _ Hg). cbv zeta.
  destruct (fst (save_secret _ _ _)); eauto.
Qed.

Lemma load_secret_eq self w :
  load_secret self w =
    match fst (load_secret_try self w) with
    | Some secret => (Some secret, snd (load_secret_try self w))
    | None => _generate_and_save_new_secret self (snd (load_secret_try self w))
    end.
Proof.
  unfold load_secret, bind, ret.
  destruct (load_secret_try self w) as [[s|] w1]; reflexivity.
Qed.

Lemma load_secret_try_absent self w :
  frame_absent self (nvm w) = true ->
  load_secret_try self w = _generate_and_save_new_secret self w.
Proof.
  unfold frame_absent, magic_mismatch, bad_length, load_secret_try.
  destruct (negb (bytes_eqb _ _)); [reflexivity|].
  cbn [orb]. destruct (index (nvm w) (nvm_offset self + 4)); [|discriminate].
  intros ->. reflexivity.
Qed.

End NVMFacts.

(** ** NVMSecretManager: save, load, clear *)

Module NVMRoundTrip.
Import Py PyFacts NVM NVMViews NVMFacts.

Lemma store_eq buf a data :
  (a + length data <= length buf)%nat ->
  store buf a data
    = Some (firstn a buf ++ data ++ skipn (a + length data) buf)%list.
Proof.
  intros H. unfold store.
  destruct (Nat.leb_spec (a + length data) (length buf)); [reflexivity|lia].
Qed.

(** Reading back inside the bytes just stored. *)
Lemma slice_stored buf a data i n :
  (a + length data <= length buf)%nat ->
  (i + n <= length data)%nat ->
  slice (firstn a buf ++ data ++ skipn (a + length data) buf)%list
        (a + i) (a + i + n)
    = firstn n (skipn i data).
Proof.
  intros Hfit Hin. unfold slice.
  replace (a + i + n - (a + i))%nat with n by lia.
  assert (Hpre : length (firstn a buf) = a) by (rewrite length_take; lia).
  rewrite skipn_app, Hpre.
  rewrite (skipn_all2 (firstn a buf)) by lia.
  replace (a + i - a)%nat with i by lia. cbn [app].
  rewrite skipn_app, firstn_app.
  replace (n - length (skipn i data))%nat with 0%nat
    by (rewrite length_drop; lia).
  cbn [firstn]. apply app_nil_r.
Qed.

Lemma index_stored buf a data i :
  (a + length data <= length buf)%nat ->
  (i < length data)%nat ->
  index (firstn a buf ++ data ++ skipn (a + length data) buf)%list (a + i)
    = nth_error data i.
Proof.
  intros Hfit Hi. unfold index.
  assert (Hpre : length (firstn a buf) = a) by (rewrite length_take; lia).
  rewrite nth_error_app2 by lia. rewrite Hpre.
  replace (a + i - a)%nat with i by lia.
  apply nth_error_app1. exact Hi.
Qed.

Lemma length_list_byte_of_string s :
  length (list_byte_of_string s) = String.length s.
Proof.
  induction s as [|c s IH]; [reflexivity|].
  change (list_byte_of_string (String c s))
    with (byte_of_ascii c :: list_byte_of_string s).
  cbn [length String.length]. rewrite IH. reflexivity.
Qed.

Lemma is_ascii_byte_of_ascii c :
  is_ascii_byte (byte_of_ascii c) = is_ascii_char c.
Proof.
  unfold is_ascii_byte, is_ascii_char.
  rewrite (@Byte.to_of_nat (nat_of_ascii c) (byte_of_ascii c)
             (eq_sym (byte_of_ascii_via_nat c))).
  reflexivity.
Qed.

(** Decoding what [encode('ascii')] produced gives the string back. *)
Lemma decode_encoded s :
  all_chars is_ascii_char s = true ->
  encode_ascii s = Some (list_byte_of_string s)
  /\ decode_ascii (list_byte_of_string s) = Some s.
Proof.
  intros Ha. unfold encode_ascii, decode_ascii. rewrite Ha.
  split; [reflexivity|].
  assert (Hb : forallb is_ascii_byte (list_byte_of_string s) = true).
  { induction s as [|c s IH]; [reflexivity|].
    change (list_byte_of_string (String c s))
      with (byte_of_ascii c :: list_byte_of_string s).
    cbn [all_chars forallb] in *.
    apply andb_true_iff in Ha as [Hc Hs].
    rewrite is_ascii_byte_of_ascii, Hc, (IH Hs). reflexivity. }
  rewrite Hb, string_of_list_byte_of_string. reflexivity.
Qed.

Lemma fit_short self s :
  (String.length s <= secret_length self)%nat ->
  fit self s = ljust s (secret_length self) "A".
Proof.
  intros Hlen. unfold fit.
  destruct (Nat.ltb_spec (secret_length self) (String.length s)); [lia|].
  destruct (Nat.ltb_spec (String.length s) (secret_length self)); [reflexivity|].
  unfold ljust.
  replace (secret_length self - String.length s)%nat with 0%nat by lia.
  cbn [str_repeat]. clear. induction s as [|c s IH]; [reflexivity|].
  change (String c s ++ EmptyString) with (String c (s ++ EmptyString)). rewrite <- IH. reflexivity.
Qed.

Lemma length_ljust s n c :
  (String.length s <= n)%nat -> String.length (ljust s n c) = n.
Proof. intros H. unfold ljust. rewrite strlen_app, strlen_repeat. lia. Qed.

Lemma frame_eq off len secret b :
  Byte.of_nat (String.length secret) = Some b ->
  all_chars is_ascii_char secret = true ->
  frame (__init__ off len) secret
    = Some (list_byte_of_string "TOTP" ++ [b] ++ list_byte_of_string secret)%list.
Proof.
  intros Hb Ha. unfold frame. rewrite Hb.
  rewrite (proj1 (decode_encoded _ Ha)). reflexivity.
Qed.

Lemma bytes_eqb_refl a : bytes_eqb a a = true.
Proof.
  induction a as [|x a IH]; [reflexivity|].
  cbn [bytes_eqb]. rewrite IH, (@Byte.byte_dec_lb x x eq_refl). reflexivity.
Qed.

(** [load_secret]'s [try] block on an NVM that holds a well-formed
    frame at the offset. *)
Lemma load_secret_try_stored off len w buf b payload secret :
  (0 < len)%nat ->
  Byte.to_nat b = len ->
  length payload = len ->
  decode_ascii payload = Some secret ->
  let data := (list_byte_of_string "TOTP" ++ [b] ++ payload)%list in
  (off + length data <= length buf)%nat ->
  nvm w = (firstn off buf ++ data ++ skipn (off + length data) buf)%list ->
  load_secret_try (__init__ off len) w = (Some secret, w).
Proof.
  intros Hpos Hb Hpay Hdec data Hfit Hnvm.
  assert (Hlen : length data = (5 + len)%nat).
  { unfold data. rewrite !List.length_app, Hpay. reflexivity. }
  unfold load_secret_try.
  cbn [nvm_offset secret_length magic __init__]. rewrite Hnvm.
  pose proof (slice_stored buf off data 0 4 Hfit ltac:(lia)) as Hmagic.
  rewrite Nat.add_0_r in Hmagic. rewrite Hmagic.
  change (firstn 4 (skipn 0 data)) with (list_byte_of_string "TOTP").
  rewrite bytes_eqb_refl. cbn [negb].
  rewrite index_stored by (exact Hfit || lia).
  change (nth_error data 4) with (Some b). cbv iota beta.
  rewrite Hb.
  destruct (Nat.eqb_spec len 0); [lia|].
  rewrite Nat.ltb_irrefl. cbn [orb].
  replace (slice _ (off + 5) (off + 5 + len)) with (firstn len (skipn 5 data)).
  2:{ symmetry. apply slice_stored; [exact Hfit|lia]. }
  change (skipn 5 data) with payload.
  rewrite <- Hpay, firstn_all, Hdec. reflexivity.
Qed.

(** C6 (amended): for a manager built with [secret_length <= 255] whose
    frame fits in NVM, and every ASCII secret [s] with
    [0 < len(s) <= secret_length], [save_secret(s)] returns [True] and a
    following [load_secret()] returns [s] right-padded with ['A'] to
    [secret_length], leaving NVM as saved. *)
Theorem save_then_load_round_trip off len s w :
  let self := __init__ off len in
  (0 < String.length s <= len)%nat ->
  all_chars is_ascii_char s = true ->
  (len <= 255)%nat ->
  (off + 5 + len <= length (nvm w))%nat ->
  fst (save_secret self s w) = true
  /\ load_secret self (snd (save_secret self s w))
       = (Some (ljust s len "A"), snd (save_secret self s w)).
Proof.
  intros self Hlen Ha H255 Hfit.
  assert (Hs' : fit self s = ljust s len "A") by (apply fit_short; cbn; lia).
  assert (Hl' : String.length (ljust s len "A") = len)
    by (apply length_ljust; lia).
  assert (Ha' : all_chars is_ascii_char (ljust s len "A") = true).
  { unfold ljust. rewrite all_chars_app, Ha.
    apply all_chars_repeat. reflexivity. }
  destruct (Byte.of_nat len) as [b|] eqn:Hb.
  2:{ apply Byte.of_nat_None_iff in Hb. lia. }
  pose proof (@Byte.to_of_nat _ _ Hb) as Hto.
  set (payload := list_byte_of_string (ljust s len "A")).
  set (data := (list_byte_of_string "TOTP" ++ [b] ++ payload)%list).
  assert (Hpay : length payload = len)
    by (unfold payload; rewrite length_list_byte_of_string; exact Hl').
  assert (Hdata : (off + length data <= length (nvm w))%nat).
  { unfold data. rewrite !List.length_app, Hpay.
    change (length (list_byte_of_string "TOTP")) with 4%nat.
    cbn [length]. lia. }
  assert (Hsave : save_secret self s w
                  = (true, snd (Device.set_nvm
                                  (firstn off (nvm w) ++ data
                                     ++ skipn (off + length data) (nvm w))%list w))).
  { unfold save_secret. rewrite Hs'.
    unfold self. rewrite (frame_eq off len _ b) by (rewrite ?Hl'; assumption).
    cbn [nvm_offset __init__]. fold payload. fold data.
    rewrite (store_eq _ _ _ Hdata). reflexivity. }
  rewrite Hsave. cbn [fst snd]. split; [reflexivity|].
  rewrite load_secret_eq.
  rewrite (load_secret_try_stored off len _ (nvm w) b payload (ljust s len "A"));
    try assumption; try lia; try reflexivity.
  unfold payload. apply (proj2 (decode_encoded _ Ha')).
Qed.

Lemma save_then_load_round_trip_witness :
  let w := Samples.bare 0 32 in
  (0 < String.length "HELLO" <= 16)%nat
  /\ all_chars is_ascii_char "HELLO" = true
  /\ (16 <= 255)%nat
  /\ (0 + 5 + 16 <= length (nvm w))%nat
  /\ load_secret default (snd (save_secret default "HELLO" w))
       = (Some "HELLOAAAAAAAAAAA", snd (save_secret default "HELLO" w)).
Proof.
  intros w.
  assert (H1 : (0 < String.length "HELLO" <= 16)%nat) by (cbn; lia).
  assert (H2 : all_chars is_ascii_char "HELLO" = true) by reflexivity.
  assert (H3 : (16 <= 255)%nat) by lia.
  assert (H4 : (0 + 5 + 16 <= length (nvm w))%nat) by (cbn; lia).
  repeat (split; [assumption|]).
  exact (proj2 (save_then_load_round_trip 0 16 "HELLO" w H1 H2 H3 H4)).
Defined.

(** C6 as stated fails: the one-character secret with code point 233 has
    a length within bounds, but [encode('ascii')] rejects it, so
    [save_secret] returns [False] without writing and [load_secret] then
    makes up a secret of its own. *)
Lemma non_ascii_secret_not_saved :
  let s := String (ascii_of_nat 233) EmptyString in
  let w := Samples.bare 0 32 in
  (0 < String.length s <= secret_length default)%nat
  /\ fst (save_secret default s w) = false
  /\ fst (load_secret default (snd (save_secret default s w)))
       = Some "ABCDEFGHIJKLMNOP"
  /\ fst (load_secret default (snd (save_secret default s w)))
       <> Some (ljust s (secret_length default) "A").
Proof.
  cbv zeta. split; [cbn; lia|].
  split; [vm_compute; reflexivity|].
  split; [vm_compute; reflexivity|].
  vm_compute. discriminate.
Qed.

(** C7, on the code: the default manager saves a 16-character secret,
    which fills the 21 bytes of the frame; [clear_secret] then returns
    [True] but has zeroed [nvm_size = secret_length + 4 = 20] bytes only,
    and the last byte of the secret, ['P'], is still in NVM. *)
Theorem clear_secret_leaves_last_byte :
  let w1 := snd (save_secret default "JBSWY3DPEHPK3PXP" (Samples.bare 0 32)) in
  let cleared := clear_secret default w1 in
  frame_region default (nvm w1)
    = (list_byte_of_string "TOTP" ++ [x10]
         ++ list_byte_of_string "JBSWY3DPEHPK3PXP")%list
  /\ fst cleared = true
  /\ frame_region default (nvm (snd cleared)) = (repeat x00 20 ++ [x50])%list
  /\ frame_region default (nvm (snd cleared)) <> repeat x00 21
  /\ string_of_list_byte [x50] = "P".
Proof.
  cbv zeta. split; [vm_compute; reflexivity|].
  split; [vm_compute; reflexivity|].
  split; [vm_compute; reflexivity|].
  split; [vm_compute; discriminate|reflexivity].
Qed.

(** [clear_secret] in general: when the store succeeds it has replaced
    exactly [nvm_size = secret_length + 4] bytes from the offset on by
    zeros, one less than the frame is long. *)
Lemma clear_secret_zeroes_nvm_size self w :
  (nvm_offset self + nvm_size self <= length (nvm w))%nat ->
  fst (clear_secret self w) = true
  /\ nvm (snd (clear_secret self w))
       = (firstn (nvm_offset self) (nvm w) ++ repeat x00 (nvm_size self)
            ++ skipn (nvm_offset self + nvm_size self) (nvm w))%list.
Proof.
  intros Hfit. unfold clear_secret.
  rewrite store_eq by (rewrite repeat_length; exact Hfit).
  rewrite repeat_length. split; reflexivity.
Qed.

End NVMRoundTrip.

(** * Further properties of the code *)

(** ** NVMSecretManager: generated secrets *)

Module SecretShape.
Import Py PyFacts NVM NVMViews NVMFacts NVMRoundTrip.

Lemma all_chars_mem p s c :
  all_chars p s = true -> mem_char c s = true -> p c = true.
Proof.
  induction s as [|d s IH]; cbn [all_chars mem_char]; intros Ha Hm; [discriminate|].
  apply andb_true_iff in Ha as [Hd Hs].
  apply orb_true_iff in Hm as [Hm|Hm]; [|exact (IH Hs Hm)].
  apply Ascii.eqb_eq in Hm. subst. exact Hd.
Qed.

Lemma all_chars_weaken (p q : ascii -> bool) s :
  (forall c, p c = true -> q c = true) ->
  all_chars p s = true -> all_chars q s = true.
Proof.
  intros Hpq. induction s as [|d s IH]; cbn [all_chars]; [reflexivity|].
  intros Ha. apply andb_true_iff in Ha as [Hd Hs].
  rewrite (Hpq _ Hd), (IH Hs). reflexivity.
Qed.

Lemma random_chars_step src n secret w :
  random_chars src (S n) secret w =
    match str_index chars (src (draws w) mod 2 ^ 5) with
    | Some c => random_chars src n (secret ++ String c EmptyString) (Device.drawn w)
    | None => (None, Device.drawn w)
    end.
Proof.
  cbn [random_chars]. unfold Device.getrandbits, Device.raw_word, bind, ret.
  destruct (str_index _ _); reflexivity.
Qed.

(** The [try] loop of [generate_secret] never fails, touches only the
    random source, and appends [n] characters of the alphabet. *)
Lemma random_chars_shape src n : forall secret w,
  all_chars (fun c => mem_char c chars) secret = true ->
  exists t,
    fst (random_chars src n secret w) = Some t
    /\ String.length t = (String.length secret + n)%nat
    /\ all_chars (fun c => mem_char c chars) t = true
    /\ nvm (snd (random_chars src n secret w)) = nvm w.
Proof.
  induction n as [|n IH]; intros secret w Hs.
  - exists secret. cbn. repeat split; [lia|exact Hs].
  - rewrite random_chars_step.
    destruct (str_index_in_range chars (src (draws w) mod 2 ^ 5))
      as (c & Hc & Hmem).
    { change (Z.of_nat (String.length chars)) with 32. change (2 ^ 5) with 32.
      apply Z.mod_pos_bound. lia. }
    rewrite Hc.
    destruct (IH (secret ++ String c EmptyString) (Device.drawn w))
      as (t & Ht & Hl & Ha & Hn).
    { rewrite all_chars_app, Hs. cbn [all_chars andb]. cbv beta.
      rewrite Hmem. reflexivity. }
    exists t. split; [exact Ht|]. split; [|split; [exact Ha|exact Hn]].
    rewrite Hl, strlen_app. cbn. lia.
Qed.

Lemma seeded_chars_shape seed n : forall i secret,
  all_chars (fun c => mem_char c chars) secret = true ->
  exists t,
    seeded_chars seed i n secret = Some t
    /\ String.length t = (String.length secret + n)%nat
    /\ all_chars (fun c => mem_char c chars) t = true.
Proof.
  induction n as [|n IH]; intros i secret Hs; cbn [seeded_chars].
  - exists secret. repeat split; [lia|exact Hs].
  - destruct (str_index_in_range chars ((seed + i) mod 32)) as (c & Hc & Hmem).
    { change (Z.of_nat (String.length chars)) with 32.
      apply Z.mod_pos_bound. lia. }
    rewrite Hc.
    destruct (IH (i + 1) (secret ++ String c EmptyString)) as (t & Ht & Hl & Ha).
    { rewrite all_chars_app, Hs. cbn [all_chars andb]. cbv beta.
      rewrite Hmem. reflexivity. }
    exists t. split; [exact Ht|]. split; [|exact Ha].
    rewrite Hl, strlen_app. cbn. lia.
Qed.

Lemma generate_secret_fits self w :
  exists secret,
    fst (generate_secret self w) = Some secret
    /\ String.length secret = secret_length self
    /\ all_chars (fun c => mem_char c chars) secret = true
    /\ all_chars is_ascii_char secret = true
    /\ nvm (snd (generate_secret self w)) = nvm w.
Proof.
  assert (Hascii : forall s, all_chars (fun c => mem_char c chars) s = true ->
                             all_chars is_ascii_char s = true).
  { intros s. apply all_chars_weaken. intros c Hc.
    apply (all_chars_mem is_ascii_char chars c); [reflexivity|exact Hc]. }
  assert (Hfb : forall w0, exists secret,
             fst (generate_secret_fallback self w0) = Some secret
             /\ String.length secret = secret_length self
             /\ all_chars (fun c => mem_char c chars) secret = true
             /\ nvm (snd (generate_secret_fallback self w0)) = nvm w0).
  { intros w0. unfold generate_secret_fallback, bind, Device.monotonic, ret.
    cbn [fst snd].
    destruct (seeded_chars_shape
                (int_of (clock w0 (ticks w0) * 1000) mod 32)
                (secret_length self) 0 EmptyString eq_refl) as (t & Ht & Hl & Ha).
    exists t. repeat split; assumption. }
  unfold generate_secret. destruct (urandom w) as [src|].
  - destruct (random_chars_shape src (secret_length self) EmptyString w eq_refl)
      as (t & Ht & Hl & Ha & Hn).
    destruct (random_chars src (secret_length self) EmptyString w) as [r w1].
    cbn [fst snd] in *. subst r. exists t. cbn [fst snd].
    repeat split; try assumption. apply Hascii. exact Ha.
  - destruct (Hfb w) as (t & Ht & Hl & Ha & Hn).
    exists t. repeat split; try assumption. apply Hascii. exact Ha.
Qed.

(** X1: [generate_secret] always returns a string of exactly
    [secret_length] characters, each from the base32 alphabet
    [A-Z2-7] (so the string is ASCII), whether [urandom] is there or the
    clock-seeded fallback runs; it never touches NVM. *)
Theorem generate_secret_shape self w :
  exists secret,
    fst (generate_secret self w) = Some secret
    /\ String.length secret = secret_length self
    /\ all_chars (fun c => mem_char c chars) secret = true
    /\ all_chars is_ascii_char secret = true
    /\ nvm (snd (generate_secret self w)) = nvm w.
Proof. apply generate_secret_fits. Qed.

End SecretShape.

(** ** NVMSecretManager: what is written, what is read back *)

Module FrameFacts.
Import Py PyFacts NVM NVMViews NVMFacts NVMRoundTrip SecretShape.

(** A successful slice assignment: same length, the data in place, every
    other byte as before. *)
Lemma store_spec buf a data buf' :
  store buf a data = Some buf' ->
  (a + length data <= length buf)%nat
  /\ length buf' = length buf
  /\ (forall i, (i < a)%nat -> nth_error buf' i = nth_error buf i)
  /\ (forall i, (a + length data <= i)%nat -> nth_error buf' i = nth_error buf i)
  /\ (forall i, (i < length data)%nat -> nth_error buf' (a + i) = nth_error data i).
Proof.
  unfold store.
  destruct (Nat.leb_spec (a + length data) (length buf)) as [Hfit|]; [|discriminate].
  intros [= <-].
  assert (Hpre : length (firstn a buf) = a) by (rewrite length_firstn; lia).
  split; [exact Hfit|]. split; [|split; [|split]].
  - rewrite !List.length_app, Hpre, length_skipn. lia.
  - intros i Hi. rewrite nth_error_app1 by lia.
    rewrite nth_error_firstn.
    destruct (Nat.ltb_spec i a); [reflexivity|lia].
  - intros i Hi. rewrite nth_error_app2 by lia. rewrite Hpre.
    rewrite nth_error_app2 by lia. rewrite nth_error_skipn.
    f_equal. lia.
  - intros i Hi. apply (index_stored buf a data i Hfit Hi).
Qed.

Lemma length_substring_0 n : forall s,
  (n <= String.length s)%nat -> String.length (String.substring 0 n s) = n.
Proof.
  induction n as [|n IH]; intros s Hn.
  - destruct s; reflexivity.
  - destruct s as [|c s]; cbn in Hn; [lia|].
    cbn [String.substring String.length]. rewrite IH by lia. reflexivity.
Qed.

(** [save_secret] always frames a secret of exactly [secret_length]
    characters. *)
Lemma length_fit self s : String.length (fit self s) = secret_length self.
Proof.
  unfold fit.
  destruct (Nat.ltb_spec (secret_length self) (String.length s)).
  - unfold slice_to. apply length_substring_0. lia.
  - destruct (Nat.ltb_spec (String.length s) (secret_length self)).
    + apply length_ljust. lia.
    + lia.
Qed.

Lemma fit_exact self s : String.length s = secret_length self -> fit self s = s.
Proof.
  intros H. unfold fit. rewrite H, Nat.ltb_irrefl. reflexivity.
Qed.

Lemma frame_length off len s data :
  frame (__init__ off len) (fit (__init__ off len) s) = Some data ->
  length data = (5 + len)%nat.
Proof.
  unfold frame. destruct (Byte.of_nat _) as [b|]; [|discriminate].
  unfold encode_ascii. destruct (all_chars _ _); [|discriminate].
  intros [= <-]. cbn [magic __init__ length].
  rewrite length_list_byte_of_string, length_fit. reflexivity.
Qed.

(** Saving a secret whose fitted form is ASCII succeeds, and the next
    [load_secret] reads the fitted form back without touching anything. *)
Lemma save_secret_fitted off len s w :
  all_chars is_ascii_char (fit (__init__ off len) s) = true ->
  (len <= 255)%nat ->
  (off + 5 + len <= length (nvm w))%nat ->
  fst (save_secret (__init__ off len) s w) = true
  /\ ((0 < len)%nat ->
      load_secret (__init__ off len) (snd (save_secret (__init__ off len) s w))
        = (Some (fit (__init__ off len) s),
           snd (save_secret (__init__ off len) s w))).
Proof.
  intros Ha H255 Hfit.
  pose proof (length_fit (__init__ off len) s) as Hl.
  cbn [secret_length __init__] in Hl.
  set (fitted := fit (__init__ off len) s) in *.
  destruct (Byte.of_nat len) as [b|] eqn:Hb.
  2:{ apply Byte.of_nat_None_iff in Hb. lia. }
  pose proof (@Byte.to_of_nat _ _ Hb) as Hto.
  set (payload := list_byte_of_string fitted).
  set (data := (list_byte_of_string "TOTP" ++ [b] ++ payload)%list).
  assert (Hpay : length payload = len)
    by (unfold payload; rewrite length_list_byte_of_string; exact Hl).
  assert (Hdata : (off + length data <= length (nvm w))%nat).
  { unfold data. rewrite !List.length_app, Hpay.
    change (length (list_byte_of_string "TOTP")) with 4%nat.
    cbn [length]. lia. }
  assert (Hframe : frame (__init__ off len) fitted = Some data).
  { apply frame_eq; [rewrite Hl; exact Hb|exact Ha]. }
  assert (Hsave : save_secret (__init__ off len) s w
                  = (true, snd (Device.set_nvm
                                  (firstn off (nvm w) ++ data
                                     ++ skipn (off + length data) (nvm w))%list w))).
  { unfold save_secret. fold fitted. rewrite Hframe.
    cbn [nvm_offset __init__].
    rewrite (store_eq _ _ _ Hdata). reflexivity. }
  rewrite Hsave. cbn [fst snd]. split; [reflexivity|]. intros Hpos.
  rewrite load_secret_eq.
  rewrite (load_secret_try_stored off len _ (nvm w) b payload fitted);
    try assumption; try lia; try reflexivity.
  unfold payload. apply (proj2 (decode_encoded _ Ha)).
Qed.

(** What [load_secret] does on a store without a valid frame, when the
    frame fits: it returns the secret it generated, and that secret is what
    the next [load_secret] reads. *)
Lemma load_absent_persists off len w :
  let self := __init__ off len in
  (0 < len <= 255)%nat ->
  (off + 5 + len <= length (nvm w))%nat ->
  frame_absent self (nvm w) = true ->
  exists secret,
    fst (generate_secret self w) = Some secret
    /\ fst (load_secret self w) = Some secret
    /\ String.length secret = len
    /\ load_secret self (snd (load_secret self w))
         = (Some secret, snd (load_secret self w)).
Proof.
  intros self Hlen Hfit Habsent.
  destruct (generate_secret_fits self w) as (secret & Hg & Hl & _ & Ha & Hn).
  exists secret. split; [exact Hg|].
  rewrite load_secret_eq, (load_secret_try_absent _ _ Habsent).
  rewrite (generate_and_save_eq _ _ _ Hg). cbv zeta.
  set (w1 := snd (generate_secret self w)) in *.
  assert (Hfx : fit self secret = secret) by (apply fit_exact; exact Hl).
  destruct (save_secret_fitted off len secret w1) as [Hok Hload].
  { fold self. rewrite Hfx. exact Ha. }
  { lia. }
  { rewrite Hn. exact Hfit. }
  fold self in Hok, Hload. rewrite Hok. cbn [fst snd].
  split; [reflexivity|]. split; [exact Hl|].
  rewrite (Hload ltac:(lia)), Hfx. reflexivity.
Qed.

(** X2: on a store that holds no valid frame (wrong magic, or a length
    byte that is zero or too large) and has room for the frame, the first
    [load_secret] returns a generated secret of [secret_length] characters
    and persists it: a second [load_secret] returns the same secret and
    changes nothing. *)
Theorem first_load_persists off len w :
  let self := __init__ off len in
  (0 < len <= 255)%nat ->
  (off + 5 + len <= length (nvm w))%nat ->
  frame_absent self (nvm w) = true ->
  exists secret,
    fst (load_secret self w) = Some secret
    /\ String.length secret = len
    /\ load_secret self (snd (load_secret self w))
         = (Some secret, snd (load_secret self w)).
Proof.
  intros self Hlen Hfit Habsent.
  destruct (load_absent_persists off len w Hlen Hfit Habsent)
    as (secret & _ & H1 & H2 & H3).
  exists secret. repeat split; assumption.
Qed.

Lemma first_load_persists_witness :
  let w := Samples.counting 0 32 in
  (0 < 16 <= 255)%nat
  /\ (0 + 5 + 16 <= length (nvm w))%nat
  /\ frame_absent default (nvm w) = true
  /\ exists secret,
       fst (load_secret default w) = Some secret
       /\ String.length secret = 16%nat
       /\ load_secret default (snd (load_secret default w))
            = (Some secret, snd (load_secret default w)).
Proof.
  intros w.
  assert (H1 : (0 < 16 <= 255)%nat) by lia.
  assert (H2 : (0 + 5 + 16 <= length (nvm w))%nat) by (cbn; lia).
  assert (H3 : frame_absent default (nvm w) = true) by (vm_compute; reflexivity).
  repeat (split; [assumption|]).
  exact (first_load_persists 0 16 w H1 H2 H3).
Defined.

(** X3: a secret longer than [secret_length] is cut to its first
    [secret_length] characters; when those are ASCII and the frame fits,
    [save_secret] succeeds and [load_secret] returns exactly that prefix,
    whatever follows it in the secret. *)
Theorem save_truncates_then_loads off len s w :
  let self := __init__ off len in
  (0 < len <= 255)%nat ->
  (len < String.length s)%nat ->
  all_chars is_ascii_char (slice_to s len) = true ->
  (off + 5 + len <= length (nvm w))%nat ->
  fst (save_secret self s w) = true
  /\ load_secret self (snd (save_secret self s w))
       = (Some (slice_to s len), snd (save_secret self s w)).
Proof.
  intros self Hlen Hlong Ha Hfit.
  assert (Hcut : fit self s = slice_to s len).
  { unfold fit. cbn [secret_length self __init__].
    destruct (Nat.ltb_spec len (String.length s)); [reflexivity|lia]. }
  destruct (save_secret_fitted off len s w) as [Hok Hload].
  { fold self. rewrite Hcut. exact Ha. }
  { lia. }
  { exact Hfit. }
  fold self in Hok, Hload. split; [exact Hok|].
  rewrite (Hload ltac:(lia)), Hcut. reflexivity.
Qed.

Lemma save_truncates_then_loads_witness :
  let w := Samples.bare 0 32 in
  let s := "ABCDEFGHIJKLMNOPQRSTUVWXYZ" in
  (0 < 16 <= 255)%nat
  /\ (16 < String.length s)%nat
  /\ all_chars is_ascii_char (slice_to s 16) = true
  /\ (0 + 5 + 16 <= length (nvm w))%nat
  /\ load_secret default (snd (save_secret default s w))
       = (Some "ABCDEFGHIJKLMNOP", snd (save_secret default s w)).
Proof.
  intros w s.
  assert (H1 : (0 < 16 <= 255)%nat) by lia.
  assert (H2 : (16 < String.length s)%nat) by (cbn; lia).
  assert (H3 : all_chars is_ascii_char (slice_to s 16) = true) by reflexivity.
  assert (H4 : (0 + 5 + 16 <= length (nvm w))%nat) by (cbn; lia).
  repeat (split; [assumption|]).
  exact (proj2 (save_truncates_then_loads 0 16 s w H1 H2 H3 H4)).
Defined.

End FrameFacts.

(** ** NVMSecretManager: load_secret on a store without a valid frame *)

Module LoadOutcome.
Import Py PyFacts NVM NVMViews NVMFacts NVMRoundTrip SecretShape FrameFacts.

(** What a successful [save_secret] leaves in NVM: the frame in place of
    the bytes from the offset on, the rest as before. *)
Lemma save_secret_state off len s w :
  let self := __init__ off len in
  all_chars is_ascii_char (fit self s) = true ->
  (len <= 255)%nat ->
  (off + 5 + len <= length (nvm w))%nat ->
  exists b,
    Byte.of_nat len = Some b
    /\ save_secret self s w
       = (true,
          snd (Device.set_nvm
                 (firstn off (nvm w)
                  ++ (magic self ++ [b] ++ list_byte_of_string (fit self s))
                  ++ skipn (off + 5 + len) (nvm w))%list w)).
Proof.
  intros self Ha H255 Hfit.
  pose proof (length_fit self s) as Hl.
  change (String.length (fit self s) = len) in Hl.
  destruct (Byte.of_nat len) as [b|] eqn:Hb.
  2:{ apply Byte.of_nat_None_iff in Hb. lia. }
  exists b. split; [reflexivity|].
  assert (Hframe : frame self (fit self s)
                   = Some (list_byte_of_string "TOTP" ++ [b]
                           ++ list_byte_of_string (fit self s))%list).
  { apply frame_eq; [rewrite Hl; exact Hb|exact Ha]. }
  assert (Hlen : length (list_byte_of_string "TOTP" ++ [b]
                         ++ list_byte_of_string (fit self s))%list
                 = (5 + len)%nat).
  { rewrite !List.length_app, !length_list_byte_of_string, Hl. reflexivity. }
  unfold save_secret. rewrite Hframe. cbn [nvm_offset self __init__ magic].
  rewrite store_eq by (rewrite Hlen; lia).
  rewrite Hlen. replace (off + (5 + len))%nat with (off + 5 + len)%nat by lia.
  reflexivity.
Qed.

(** [save_secret] fails, and writes nothing, when the length does not fit
    in one byte or the frame does not fit in NVM. *)
Lemma save_secret_no_room off len s w :
  (255 < len)%nat \/ (length (nvm w) < off + 5 + len)%nat ->
  save_secret (__init__ off len) s w = (false, w).
Proof.
  intros Hroom. set (self := __init__ off len).
  pose proof (length_fit self s) as Hl.
  change (String.length (fit self s) = len) in Hl.
  unfold save_secret, frame. cbv zeta. rewrite Hl.
  destruct (Byte.of_nat len) as [b|] eqn:Hb; [|reflexivity].
  assert (H255 : (len <= 255)%nat).
  { destruct (Nat.le_gt_cases len 255) as [H|H]; [exact H|].
    assert (Hnone : Byte.of_nat len = None)
      by (apply Byte.of_nat_None_iff; lia).
    congruence. }
  unfold encode_ascii. destruct (all_chars _ _); [|reflexivity].
  unfold store. cbn [nvm_offset self __init__ magic].
  rewrite !List.length_app, !length_list_byte_of_string, Hl.
  cbn [length String.length].
  destruct (Nat.leb_spec (off + (4 + (1 + len))) (length (nvm w)));
    [lia|reflexivity].
Qed.

(** C8: [load_secret] always returns a secret to its caller, it never
    raises.  When the magic bytes do not match, or the length byte is zero
    or exceeds [secret_length], it generates a secret of [secret_length]
    characters.  If the frame has room (the length fits in one byte and
    the [5 + secret_length] bytes fit in NVM at the offset), it returns
    that secret and has persisted it: NVM now holds the magic, the length
    byte and the bytes of the secret from the offset on, every other byte
    as before, and the next [load_secret] reads the same secret back and
    changes nothing.  If the frame has no room, persisting fails: the
    fixed fallback secret is returned and NVM is as it was. *)
Theorem load_secret_never_raises :
  (forall self w, exists secret, fst (load_secret self w) = Some secret)
  /\ (forall off len w,
        let self := __init__ off len in
        frame_absent self (nvm w) = true ->
        exists secret,
          fst (generate_secret self w) = Some secret
          /\ String.length secret = len
          /\ ((len <= 255)%nat ->
              (off + 5 + len <= length (nvm w))%nat ->
              exists b,
                Byte.of_nat len = Some b
                /\ fst (load_secret self w) = Some secret
                /\ nvm (snd (load_secret self w))
                   = (firstn off (nvm w)
                      ++ (magic self ++ [b] ++ list_byte_of_string secret)
                      ++ skipn (off + 5 + len) (nvm w))%list
                /\ frame_region self (nvm (snd (load_secret self w)))
                   = (magic self ++ [b] ++ list_byte_of_string secret)%list
                /\ ((0 < len)%nat ->
                    load_secret self (snd (load_secret self w))
                      = (Some secret, snd (load_secret self w))))
          /\ ((255 < len)%nat \/ (length (nvm w) < off + 5 + len)%nat ->
              fst (load_secret self w) = Some "JBSWY3DPEHPK3PXP"
              /\ nvm (snd (load_secret self w)) = nvm w)).
Proof.
  split.
  - intros self w. rewrite load_secret_eq.
    destruct (fst (load_secret_try self w)) as [s|]; [eauto|].
    apply generate_and_save_total.
  - intros off len w self Habsent.
    destruct (generate_secret_fits self w) as (secret & Hg & Hl & _ & Ha & Hn).
    cbn [secret_length self __init__] in Hl.
    exists secret. split; [exact Hg|]. split; [exact Hl|].
    assert (Hload : load_secret self w
                    = let w1 := snd (generate_secret self w) in
                      if fst (save_secret self secret w1)
                      then (Some secret, snd (save_secret self secret w1))
                      else (Some "JBSWY3DPEHPK3PXP",
                            snd (save_secret self secret w1))).
    { rewrite load_secret_eq, (load_secret_try_absent _ _ Habsent).
      rewrite (generate_and_save_eq _ _ _ Hg). cbv zeta.
      destruct (fst (save_secret _ _ _)); reflexivity. }
    cbv zeta in Hload.
    set (w1 := snd (generate_secret self w)) in *.
    assert (Hfx : fit self secret = secret) by (apply fit_exact; exact Hl).
    split.
    + intros H255 Hfit.
      destruct (save_secret_state off len secret w1) as (b & Hb & Hsave).
      { fold self. rewrite Hfx. exact Ha. }
      { exact H255. }
      { rewrite Hn. exact Hfit. }
      fold self in Hsave. rewrite Hfx in Hsave.
      exists b. split; [exact Hb|].
      rewrite Hload, Hsave. cbn [fst snd Device.set_nvm nvm].
      rewrite Hn. split; [reflexivity|]. split; [reflexivity|].
      assert (Hlen : length (magic self ++ [b] ++ list_byte_of_string secret)%list
                     = (5 + len)%nat).
      { cbn [magic self __init__].
        rewrite !List.length_app, !length_list_byte_of_string, Hl. reflexivity. }
      split.
      * unfold frame_region. cbn [nvm_offset secret_length self __init__].
        pose proof (slice_stored (nvm w) off
                      (magic self ++ [b] ++ list_byte_of_string secret)%list
                      0 (5 + len)) as Hs.
        rewrite Hlen in Hs.
        replace (off + (5 + len))%nat with (off + 5 + len)%nat in Hs by lia.
        replace (off + 0 + (5 + len))%nat with (off + 5 + len)%nat in Hs by lia.
        replace (off + 0)%nat with off in Hs by lia.
        rewrite Hs by lia. cbn [skipn].
        apply firstn_all2. rewrite Hlen. lia.
      * intros Hpos.
        destruct (save_secret_fitted off len secret w1) as [_ Hagain].
        { fold self. rewrite Hfx. exact Ha. }
        { exact H255. }
        { rewrite Hn. exact Hfit. }
        fold self in Hagain. specialize (Hagain Hpos).
        rewrite Hsave, Hfx in Hagain. cbn [fst snd Device.set_nvm] in Hagain.
        rewrite Hn in Hagain. exact Hagain.
    + intros Hroom.
      assert (Hno : save_secret self secret w1 = (false, w1)).
      { apply save_secret_no_room. rewrite Hn. exact Hroom. }
      rewrite Hload, Hno. cbn [fst snd]. split; [reflexivity|exact Hn].
Qed.

Lemma load_secret_never_raises_witness :
  let w := Samples.bare 0 32 in
  frame_absent default (nvm w) = true
  /\ (16 <= 255)%nat
  /\ (0 + 5 + 16 <= length (nvm w))%nat
  /\ exists secret,
       fst (load_secret default w) = Some secret
       /\ frame_region default (nvm (snd (load_secret default w)))
          = (list_byte_of_string "TOTP" ++ [x10] ++ list_byte_of_string secret)%list
       /\ load_secret default (snd (load_secret default w))
          = (Some secret, snd (load_secret default w)).
Proof.
  intros w.
  assert (H1 : frame_absent default (nvm w) = true) by (vm_compute; reflexivity).
  assert (H2 : (16 <= 255)%nat) by lia.
  assert (H3 : (0 + 5 + 16 <= length (nvm w))%nat) by (cbn; lia).
  repeat (split; [assumption|]).
  destruct (proj2 load_secret_never_raises 0%nat 16%nat w H1)
    as (secret & _ & _ & Hfit & _).
  destruct (Hfit H2 H3) as (b & Hb & Hret & _ & Hregion & Hagain).
  exists secret. split; [exact Hret|].
  assert (Hx : b = x10) by (vm_compute in Hb; congruence).
  subst b. split; [exact Hregion|]. apply Hagain. lia.
Defined.

(** On a store too small for the frame nothing can be persisted: every
    [load_secret] returns the fallback secret. *)
Example load_secret_without_room :
  let w := Samples.bare 0 8 in
  load_secret default w = (Some "JBSWY3DPEHPK3PXP", Device.ticked w).
Proof. vm_compute. reflexivity. Qed.

End LoadOutcome.

(** ** NVMSecretManager: the bytes a call may touch *)

Module FrameEffects.
Import Py PyFacts NVM NVMViews NVMInfo NVMFacts NVMRoundTrip SecretShape FrameFacts.

(** X4: whether it succeeds or not, [save_secret] keeps the size of NVM,
    leaves every byte outside the [5 + secret_length] bytes of the frame as
    it was, and reads neither the clock nor the random source. *)
Theorem save_secret_touches_frame_only off len s w :
  let w' := snd (save_secret (__init__ off len) s w) in
  length (nvm w') = length (nvm w)
  /\ (forall i, (i < off \/ off + 5 + len <= i)%nat ->
        nth_error (nvm w') i = nth_error (nvm w) i)
  /\ ticks w' = ticks w /\ draws w' = draws w /\ screen w' = screen w.
Proof.
  cbv zeta. unfold save_secret.
  destruct (frame (__init__ off len) (fit (__init__ off len) s)) as [data|] eqn:Hf;
    [|cbn [snd]; repeat split].
  pose proof (frame_length _ _ _ _ Hf) as Hlen.
  destruct (store (nvm w) (nvm_offset (__init__ off len)) data) as [buf'|] eqn:Hs;
    [|cbn [snd]; repeat split].
  destruct (store_spec _ _ _ _ Hs) as (_ & Hl & Hlo & Hhi & _).
  cbn [nvm_offset __init__] in *. cbn [Device.set_nvm snd nvm ticks draws screen].
  split; [exact Hl|]. split; [|repeat split].
  intros i [Hi|Hi]; [apply Hlo; exact Hi|apply Hhi; lia].
Qed.

Lemma save_secret_touches_frame_only_witness :
  let w := Samples.bare 0 32 in
  (25 < 0 \/ 0 + 5 + 16 <= 25)%nat
  /\ nth_error (nvm (snd (save_secret (__init__ 0 16) "HELLO" w))) 25
       = nth_error (nvm w) 25.
Proof.
  intros w.
  assert (H : (25 < 0 \/ 0 + 5 + 16 <= 25)%nat) by (right; lia).
  split; [exact H|].
  exact (proj1 (proj2 (save_secret_touches_frame_only 0 16 "HELLO" w)) 25%nat H).
Defined.

Lemma clear_secret_frame self w :
  let r := clear_secret self w in
  (fst r = true <-> (nvm_offset self + nvm_size self <= length (nvm w))%nat)
  /\ (fst r = false -> snd r = w)
  /\ length (nvm (snd r)) = length (nvm w)
  /\ (forall i, (i < nvm_offset self \/ nvm_offset self + nvm_size self <= i)%nat ->
        nth_error (nvm (snd r)) i = nth_error (nvm w) i)
  /\ (fst r = true ->
      forall i, (i < nvm_size self)%nat ->
        nth_error (nvm (snd r)) (nvm_offset self + i) = Some x00).
Proof.
  cbv zeta. unfold clear_secret.
  destruct (store (nvm w) (nvm_offset self) (repeat x00 (nvm_size self)))
    as [buf'|] eqn:Hs.
  - destruct (store_spec _ _ _ _ Hs) as (Hfit & Hl & Hlo & Hhi & Hin).
    rewrite repeat_length in *.
    cbn [Device.set_nvm fst snd nvm].
    split; [split; [intros _; exact Hfit|reflexivity]|].
    split; [discriminate|]. split; [exact Hl|]. split.
    + intros i [Hi|Hi]; [apply Hlo; exact Hi|apply Hhi; exact Hi].
    + intros _ i Hi. rewrite (Hin i Hi). apply nth_error_repeat. exact Hi.
  - cbn [fst snd]. unfold store in Hs. rewrite repeat_length in Hs.
    destruct (Nat.leb_spec (nvm_offset self + nvm_size self) (length (nvm w)));
      [discriminate|].
    split; [split; [discriminate|lia]|].
    repeat split. discriminate.
Qed.

(** X5: [clear_secret] succeeds exactly when the [secret_length + 4] bytes
    from the offset on lie inside NVM; then those bytes are zero, the size
    of NVM and every other byte are unchanged; when it fails nothing is
    written. *)
Theorem clear_secret_effect self w :
  let r := clear_secret self w in
  (fst r = true <-> (nvm_offset self + nvm_size self <= length (nvm w))%nat)
  /\ (fst r = false -> snd r = w)
  /\ length (nvm (snd r)) = length (nvm w)
  /\ (forall i, (i < nvm_offset self \/ nvm_offset self + nvm_size self <= i)%nat ->
        nth_error (nvm (snd r)) i = nth_error (nvm w) i)
  /\ (fst r = true ->
      forall i, (i < nvm_size self)%nat ->
        nth_error (nvm (snd r)) (nvm_offset self + i) = Some x00).
Proof. apply clear_secret_frame. Qed.

Lemma clear_secret_effect_witness :
  let w := snd (save_secret default "JBSWY3DPEHPK3PXP" (Samples.bare 0 32)) in
  fst (clear_secret default w) = true
  /\ (3 < nvm_size default)%nat
  /\ nth_error (nvm (snd (clear_secret default w))) (nvm_offset default + 3)
       = Some x00.
Proof.
  intros w.
  assert (H1 : fst (clear_secret default w) = true) by (vm_compute; reflexivity).
  assert (H2 : (3 < nvm_size default)%nat) by (cbn; lia).
  split; [exact H1|]. split; [exact H2|].
  exact (proj2 (proj2 (proj2 (proj2 (clear_secret_effect default w)))) H1 3%nat H2).
Defined.

Lemma clear_then_absent off len w :
  fst (clear_secret (__init__ off len) w) = true ->
  frame_absent (__init__ off len) (nvm (snd (clear_secret (__init__ off len) w)))
    = true.
Proof.
  unfold clear_secret. cbn [nvm_size nvm_offset __init__].
  destruct (store (nvm w) off (repeat x00 (len + 4))) as [buf'|] eqn:Hs;
    [|discriminate].
  intros _. cbn [Device.set_nvm snd nvm].
  destruct (store_spec _ _ _ _ Hs) as (Hfit & _).
  unfold store in Hs.
  destruct (Nat.leb_spec (off + length (repeat x00 (len + 4))) (length (nvm w)));
    [|discriminate].
  injection Hs as <-.
  unfold frame_absent, magic_mismatch. cbn [nvm_offset magic __init__].
  pose proof (slice_stored (nvm w) off (repeat x00 (len + 4)) 0 4 Hfit) as Hm.
  rewrite Nat.add_0_r in Hm. rewrite Hm by (rewrite repeat_length; lia).
  replace (len + 4)%nat with (4 + len)%nat by lia. reflexivity.
Qed.

(** X6: after a successful [clear_secret] (also through the module-level
    [clear_totp_secret]) the magic is gone, so the next [load_secret] does
    not read the store: it returns the secret [generate_secret] makes up
    then, and when the frame fits that secret is persisted and read back by
    the following [load_secret]. *)
Theorem clear_then_load_regenerates off len w :
  let self := __init__ off len in
  let w1 := snd (clear_secret self w) in
  (0 < len <= 255)%nat ->
  (off + 5 + len <= length (nvm w))%nat ->
  fst (clear_secret self w) = true
  /\ fst (load_secret self w1) = fst (generate_secret self w1)
  /\ load_secret self (snd (load_secret self w1))
       = (fst (generate_secret self w1), snd (load_secret self w1)).
Proof.
  intros self w1 Hlen Hfit.
  destruct (clear_secret_frame self w) as (Hok & _ & Hl & _).
  cbv zeta in Hok, Hl. cbn [nvm_offset nvm_size self __init__] in Hok.
  assert (Hclear : fst (clear_secret self w) = true) by (apply Hok; lia).
  split; [exact Hclear|].
  destruct (load_absent_persists off len w1) as (secret & Hg & H1 & _ & H3).
  - exact Hlen.
  - unfold w1. rewrite Hl. exact Hfit.
  - apply clear_then_absent. exact Hclear.
  - fold self in Hg, H1, H3. rewrite Hg. split; [exact H1|exact H3].
Qed.

Lemma clear_then_load_regenerates_witness :
  let w := snd (save_secret default "JBSWY3DPEHPK3PXP" (Samples.bare 0 32)) in
  let w1 := snd (clear_totp_secret w) in
  (0 < 16 <= 255)%nat
  /\ (0 + 5 + 16 <= length (nvm w))%nat
  /\ fst (clear_totp_secret w) = true
  /\ fst (load_secret default w1) = fst (generate_secret default w1).
Proof.
  intros w w1.
  assert (H1 : (0 < 16 <= 255)%nat) by lia.
  assert (H2 : (0 + 5 + 16 <= length (nvm w))%nat) by (vm_compute; lia).
  repeat (split; [assumption|]).
  destruct (clear_then_load_regenerates 0 16 w H1 H2) as (Ha & Hb & _).
  split; [exact Ha|exact Hb].
Defined.

End FrameEffects.

(** ** NVMSecretManager: reading a frame that is already there *)

Module FrameRead.
Import Py PyFacts NVM NVMViews NVMInfo NVMFacts NVMRoundTrip SecretShape FrameFacts.

Lemma slice_after (pre rest : list byte) i n :
  slice (pre ++ rest)%list (length pre + i) (length pre + i + n)
    = firstn n (skipn i rest).
Proof.
  unfold slice.
  replace (length pre + i + n - (length pre + i))%nat with n by lia.
  rewrite skipn_app, (skipn_all2 pre) by lia.
  replace (length pre + i - length pre)%nat with i by lia. reflexivity.
Qed.

Lemma index_after (pre rest : list byte) i :
  index (pre ++ rest)%list (length pre + i) = nth_error rest i.
Proof.
  unfold index. rewrite nth_error_app2 by lia. f_equal. lia.
Qed.

(** The three reads of [load_secret] on an NVM that holds, at the offset,
    the magic, a length byte and at least that many payload bytes. *)
Lemma frame_reads pre b payload post :
  let buf := (pre ++ list_byte_of_string "TOTP" ++ [b] ++ payload ++ post)%list in
  Byte.to_nat b = length payload ->
  slice buf (length pre) (length pre + 4) = list_byte_of_string "TOTP"
  /\ index buf (length pre + 4) = Some b
  /\ slice buf (length pre + 5) (length pre + 5 + Byte.to_nat b) = payload.
Proof.
  intros buf Hb. unfold buf. split; [|split].
  - pose proof (slice_after pre
                  (list_byte_of_string "TOTP" ++ [b] ++ payload ++ post)%list 0 4) as H.
    rewrite Nat.add_0_r in H. rewrite H. reflexivity.
  - rewrite index_after. reflexivity.
  - rewrite slice_after, Hb.
    change (skipn 5 (list_byte_of_string "TOTP" ++ [b] ++ payload ++ post)%list)
      with (payload ++ post)%list.
    rewrite firstn_app, firstn_all, Nat.sub_diag. cbn [firstn].
    apply app_nil_r.
Qed.

Lemma load_secret_try_frame len w pre b payload post :
  nvm w = (pre ++ list_byte_of_string "TOTP" ++ [b] ++ payload ++ post)%list ->
  Byte.to_nat b = length payload ->
  (0 < length payload <= len)%nat ->
  load_secret_try (__init__ (length pre) len) w = (decode_ascii payload, w).
Proof.
  intros Hnvm Hb Hlen.
  destruct (frame_reads pre b payload post Hb) as (Hm & Hi & Hp).
  unfold load_secret_try. cbn [nvm_offset secret_length magic __init__].
  rewrite Hnvm, Hm, bytes_eqb_refl. cbn [negb]. rewrite Hi. cbv iota beta.
  rewrite Hp, Hb.
  destruct (Nat.eqb_spec (length payload) 0); [lia|].
  destruct (Nat.ltb_spec len (length payload)); [lia|]. reflexivity.
Qed.

(** X7: when NVM holds at the offset the magic [TOTP], a length byte [n]
    with [0 < n <= secret_length] and [n] ASCII payload bytes (a frame
    written for a shorter secret included), [load_secret] returns exactly
    that payload as a string and changes nothing: no write, no clock
    reading, no random draw. *)
Theorem load_secret_reads_frame len w pre b payload post :
  nvm w = (pre ++ list_byte_of_string "TOTP" ++ [b] ++ payload ++ post)%list ->
  Byte.to_nat b = length payload ->
  (0 < length payload <= len)%nat ->
  forallb is_ascii_byte payload = true ->
  load_secret (__init__ (length pre) len) w
    = (Some (string_of_list_byte payload), w).
Proof.
  intros Hnvm Hb Hlen Ha.
  rewrite load_secret_eq, (load_secret_try_frame len w pre b payload post Hnvm Hb Hlen).
  unfold decode_ascii. rewrite Ha. reflexivity.
Qed.

Lemma load_secret_reads_frame_witness :
  let payload := list_byte_of_string "HELLO" in
  let w := World (Samples.quiet_clock 0) 0 None 0
             ([x00; x00] ++ list_byte_of_string "TOTP" ++ [x05] ++ payload
                ++ repeat x00 8)%list [] in
  Byte.to_nat x05 = length payload
  /\ (0 < length payload <= 16)%nat
  /\ forallb is_ascii_byte payload = true
  /\ load_secret (__init__ 2 16) w = (Some "HELLO", w).
Proof.
  intros payload w.
  assert (H1 : Byte.to_nat x05 = length payload) by reflexivity.
  assert (H2 : (0 < length payload <= 16)%nat) by (cbn; lia).
  assert (H3 : forallb is_ascii_byte payload = true) by reflexivity.
  repeat (split; [assumption|]).
  exact (load_secret_reads_frame 16 w [x00; x00] x05 payload (repeat x00 8)
           eq_refl H1 H2 H3).
Defined.

(** X8: when the frame is there but its payload holds a byte above 127,
    [decode('ascii')] raises inside [load_secret]: the [except] branch
    discards the stored payload and [load_secret] returns whatever
    [_generate_and_save_new_secret] returns, overwriting the frame when the
    store accepts it. *)
Theorem load_secret_corrupt_payload len w pre b payload post :
  nvm w = (pre ++ list_byte_of_string "TOTP" ++ [b] ++ payload ++ post)%list ->
  Byte.to_nat b = length payload ->
  (0 < length payload <= len)%nat ->
  forallb is_ascii_byte payload = false ->
  load_secret (__init__ (length pre) len) w
    = _generate_and_save_new_secret (__init__ (length pre) len) w
  /\ exists secret,
       fst (load_secret (__init__ (length pre) len) w) = Some secret
       /\ secret <> string_of_list_byte payload.
Proof.
  intros Hnvm Hb Hlen Ha.
  assert (Hload : load_secret (__init__ (length pre) len) w
                  = _generate_and_save_new_secret (__init__ (length pre) len) w).
  { rewrite load_secret_eq,
      (load_secret_try_frame len w pre b payload post Hnvm Hb Hlen).
    unfold decode_ascii. rewrite Ha. reflexivity. }
  split; [exact Hload|]. rewrite Hload.
  destruct (generate_secret_fits (__init__ (length pre) len) w)
    as (secret & Hg & _ & _ & Hascii & _).
  rewrite (generate_and_save_eq _ _ _ Hg). cbv zeta.
  assert (Hbad : forall t, all_chars is_ascii_char t = true ->
                           t <> string_of_list_byte payload).
  { intros t Ht ->.
    pose proof (proj2 (decode_encoded _ Ht)) as Hd. unfold decode_ascii in Hd.
    rewrite list_byte_of_string_of_list_byte, Ha in Hd. discriminate. }
  destruct (fst (save_secret _ secret _)); cbn [fst].
  - exists secret. split; [reflexivity|]. apply Hbad. exact Hascii.
  - eexists. split; [reflexivity|]. apply Hbad. reflexivity.
Qed.

Lemma load_secret_corrupt_payload_witness :
  let payload := [x48; xe9; x4c] in
  let w := World (Samples.quiet_clock 0) 0 None 0
             (list_byte_of_string "TOTP" ++ [x03] ++ payload ++ repeat x00 24)%list
             [] in
  Byte.to_nat x03 = length payload
  /\ (0 < length payload <= 16)%nat
  /\ forallb is_ascii_byte payload = false
  /\ load_secret default w = _generate_and_save_new_secret default w.
Proof.
  intros payload w.
  assert (H1 : Byte.to_nat x03 = length payload) by reflexivity.
  assert (H2 : (0 < length payload <= 16)%nat) by (cbn; lia).
  assert (H3 : forallb is_ascii_byte payload = false) by reflexivity.
  repeat (split; [assumption|]).
  exact (proj1 (load_secret_corrupt_payload 16 w [] x03 payload (repeat x00 24)
                  eq_refl H1 H2 H3)).
Defined.

Lemma get_secret_info_eq self w :
  get_secret_info self w =
    match fst (get_secret_info_try self w) with
    | Some info => (info, snd (get_secret_info_try self w))
    | None => (InfoError, snd (get_secret_info_try self w))
    end.
Proof.
  unfold get_secret_info, bind, ret.
  destruct (get_secret_info_try self w) as [[info|] w1]; reflexivity.
Qed.

(** X9: [get_secret_info] is a pure read in the two regular cases.  With
    no magic at the offset it reports that nothing is stored; with a
    well-formed ASCII frame it reports the stored length, the stored secret
    and the offset; in both cases the device is left exactly as it was. *)
Theorem get_secret_info_reads :
  (forall self w,
      magic_mismatch self (nvm w) = true ->
      get_secret_info self w = (NotStored "No secret stored", w))
  /\ (forall len w pre b payload post,
        nvm w = (pre ++ list_byte_of_string "TOTP" ++ [b] ++ payload ++ post)%list ->
        Byte.to_nat b = length payload ->
        (0 < length payload <= len)%nat ->
        forallb is_ascii_byte payload = true ->
        get_secret_info (__init__ (length pre) len) w
          = (Stored (length payload) (string_of_list_byte payload) (length pre)
               "Secret found in NVM", w)).
Proof.
  split.
  - intros self w Hm. rewrite get_secret_info_eq. unfold get_secret_info_try.
    unfold magic_mismatch in Hm. rewrite Hm. reflexivity.
  - intros len w pre b payload post Hnvm Hb Hlen Ha.
    rewrite get_secret_info_eq. unfold get_secret_info_try.
    destruct (frame_reads pre b payload post Hb) as (Hm & Hi & _).
    cbn [nvm_offset magic __init__]. rewrite Hnvm, Hm, bytes_eqb_refl.
    cbn [negb]. rewrite Hi. cbv iota beta.
    assert (Hload := load_secret_try_frame len w pre b payload post Hnvm Hb Hlen).
    assert (Hl : load_secret (__init__ (length pre) len) w
                 = (Some (string_of_list_byte payload), w)).
    { rewrite load_secret_eq, Hload. unfold decode_ascii. rewrite Ha. reflexivity. }
    rewrite Hl, Hb. reflexivity.
Qed.

Lemma get_secret_info_reads_witness :
  let w := Samples.bare 0 32 in
  magic_mismatch default (nvm w) = true
  /\ get_secret_info default w = (NotStored "No secret stored", w).
Proof.
  intros w.
  assert (H : magic_mismatch default (nvm w) = true) by reflexivity.
  split; [exact H|]. exact (proj1 get_secret_info_reads default w H).
Defined.

(** X10: [get_secret_info] is not read-only when the magic is there but
    the length byte is zero or above [secret_length]: it calls
    [load_secret], which generates and saves a new secret.  The report says
    "stored" with the bad length byte it read, next to a secret of
    [secret_length] characters that was not in NVM before and is there
    afterwards. *)
Theorem get_secret_info_rewrites_bad_length len w pre b post :
  nvm w = (pre ++ list_byte_of_string "TOTP" ++ [b] ++ post)%list ->
  (Byte.to_nat b = 0 \/ len < Byte.to_nat b)%nat ->
  (0 < len <= 255)%nat ->
  (length pre + 5 + len <= length (nvm w))%nat ->
  exists secret,
    let r := get_secret_info (__init__ (length pre) len) w in
    fst r = Stored (Byte.to_nat b) secret (length pre) "Secret found in NVM"
    /\ String.length secret = len
    /\ Byte.to_nat b <> len
    /\ load_secret (__init__ (length pre) len) (snd r) = (Some secret, snd r).
Proof.
  intros Hnvm Hbad Hlen Hfit.
  assert (Hm : slice (nvm w) (length pre) (length pre + 4)
               = list_byte_of_string "TOTP").
  { rewrite Hnvm.
    pose proof (slice_after pre (list_byte_of_string "TOTP" ++ [b] ++ post)%list 0 4) as H.
    rewrite Nat.add_0_r in H. rewrite H. reflexivity. }
  assert (Hi : index (nvm w) (length pre + 4) = Some b).
  { rewrite Hnvm, index_after. reflexivity. }
  assert (Habsent : frame_absent (__init__ (length pre) len) (nvm w) = true).
  { unfold frame_absent, magic_mismatch, bad_length.
    cbn [nvm_offset magic secret_length __init__].
    rewrite Hm, bytes_eqb_refl, Hi. cbn [negb orb].
    destruct Hbad as [H0|Hbig].
    - rewrite H0. reflexivity.
    - destruct (Nat.ltb_spec len (Byte.to_nat b)); [apply orb_true_r|lia]. }
  destruct (load_absent_persists (length pre) len w Hlen Hfit Habsent)
    as (secret & _ & H1 & H2 & H3).
  exists secret. cbv zeta.
  rewrite get_secret_info_eq. unfold get_secret_info_try.
  cbn [nvm_offset magic __init__]. rewrite Hm, bytes_eqb_refl. cbn [negb].
  rewrite Hi. cbv iota beta.
  destruct (load_secret (__init__ (length pre) len) w) as [r w1] eqn:Hl.
  cbn [fst snd] in H1, H3. subst r. cbn [fst snd].
  split; [reflexivity|]. split; [exact H2|]. split; [lia|exact H3].
Qed.

Lemma get_secret_info_rewrites_bad_length_witness :
  let w := World (Samples.quiet_clock 0) 0 None 0
             (list_byte_of_string "TOTP" ++ [x00] ++ repeat x00 27)%list [] in
  (Byte.to_nat x00 = 0 \/ 16 < Byte.to_nat x00)%nat
  /\ (0 < 16 <= 255)%nat
  /\ (0 + 5 + 16 <= length (nvm w))%nat
  /\ exists secret,
       fst (get_secret_info default w) = Stored 0 secret 0 "Secret found in NVM"
       /\ String.length secret = 16%nat.
Proof.
  intros w.
  assert (H1 : (Byte.to_nat x00 = 0 \/ 16 < Byte.to_nat x00)%nat) by (left; reflexivity).
  assert (H2 : (0 < 16 <= 255)%nat) by lia.
  assert (H3 : (0 + 5 + 16 <= length (nvm w))%nat) by (cbn; lia).
  repeat (split; [assumption|]).
  destruct (get_secret_info_rewrites_bad_length 16 w [] x00 (repeat x00 27)
              eq_refl H1 H2 H3) as (secret & Ha & Hb & _).
  exists secret. split; [exact Ha|exact Hb].
Defined.

End FrameRead.

(** ** DisplayAuth: time remaining, counters and PIN over the lifetime *)

Module AuthLifetime.
Import Py PyFacts QFacts Auth AuthViews AuthTraces AuthInvariants.
Import AuthFacts AuthFrames Lockout Rotation.

Lemma int_of_nonneg x :
  (0 <= x)%Q -> 0 <= int_of x /\ (inject_Z (int_of x) <= x)%Q.
Proof.
  intros Hx. rewrite (int_of_floor _ Hx). split; [|apply Qfloor_le].
  destruct x as [n d]. unfold Qle in Hx. cbn in *. apply Z.div_pos; lia.
Qed.

Lemma max0_cases x :
  ((x <= 0)%Q /\ max0 x = 0%Q) \/ ((0 < x)%Q /\ max0 x = x).
Proof.
  unfold max0. destruct (Qle_bool x 0) eqn:E.
  - left. split; [apply Qle_bool_iff; exact E|reflexivity].
  - right. split; [|reflexivity]. apply Qnot_le_lt. intros H.
    apply Qle_bool_iff in H. congruence.
Qed.

Lemma get_pin_time_remaining_range self w :
  let now := clock w (ticks w) in
  let r := fst (get_pin_time_remaining (self, w)) in
  snd (get_pin_time_remaining (self, w)) = (self, Device.ticked w)
  /\ 0 <= r
  /\ ((pin_duration self <= now - pin_generated_time self)%Q -> r = 0)
  /\ ((pin_generated_time self <= now)%Q -> (0 <= pin_duration self)%Q ->
      (inject_Z r <= pin_duration self)%Q).
Proof.
  cbv zeta. rewrite get_pin_time_remaining_eq. cbn [fst snd].
  set (x := (pin_duration self - (clock w (ticks w) - pin_generated_time self))%Q).
  split; [reflexivity|].
  destruct (max0_cases x) as [[Hx E]|[Hx E]]; rewrite E.
  - split; [reflexivity|]. split; [reflexivity|].
    intros _ Hd. exact Hd.
  - destruct (int_of_nonneg x ltac:(lra)) as [H0 Hle].
    split; [exact H0|]. split.
    + intros Hexp. unfold x in Hx. lra.
    + intros Hnow _. unfold x in Hle |- *. lra.
Qed.

(** X11: [get_pin_time_remaining] only reads the clock; its result is never
    negative, is 0 from the moment the PIN has lived [pin_duration] seconds,
    and with a clock that has not gone back behind the generation time it
    never exceeds [pin_duration]. *)
Theorem get_pin_time_remaining_bounds self w :
  let now := clock w (ticks w) in
  let r := fst (get_pin_time_remaining (self, w)) in
  snd (get_pin_time_remaining (self, w)) = (self, Device.ticked w)
  /\ 0 <= r
  /\ ((pin_duration self <= now - pin_generated_time self)%Q -> r = 0)
  /\ ((pin_generated_time self <= now)%Q -> (0 <= pin_duration self)%Q ->
      (inject_Z r <= pin_duration self)%Q).
Proof. apply get_pin_time_remaining_range. Qed.

Lemma get_pin_time_remaining_bounds_witness :
  let self := AuthSamples.fresh in
  let w := Samples.bare (67 # 2) 0 in
  (pin_generated_time self <= clock w (ticks w))%Q
  /\ (0 <= pin_duration self)%Q
  /\ fst (get_pin_time_remaining (self, w)) = 86
  /\ (inject_Z (fst (get_pin_time_remaining (self, w))) <= pin_duration self)%Q.
Proof.
  intros self w.
  assert (H1 : (pin_generated_time self <= clock w (ticks w))%Q)
    by (vm_compute; discriminate).
  assert (H2 : (0 <= pin_duration self)%Q) by (vm_compute; discriminate).
  split; [exact H1|]. split; [exact H2|]. split; [reflexivity|].
  exact (proj2 (proj2 (proj2 (get_pin_time_remaining_bounds self w))) H1 H2).
Defined.

(** The counter of [c] after the two updates of the wrong-PIN branch. *)
Lemma rejected_counter c self :
  pin_attempts (increment_counter c (open_counter c self)) !! c
    = Some (count c self + 1).
Proof.
  unfold count, increment_counter, open_counter.
  destruct (pin_attempts self !! c) as [n|] eqn:E.
  - rewrite E. cbn. apply lookup_insert_eq.
  - cbn. rewrite lookup_insert_eq. cbn. rewrite lookup_insert_eq. reflexivity.
Qed.

Lemma reset_attempts_own c self :
  pin_attempts (reset_attempts c self) !! c = None.
Proof.
  unfold reset_attempts. destruct (pin_attempts self !! c) eqn:E; [|exact E].
  cbn. apply lookup_delete_eq.
Qed.

Lemma get_current_pin_returns s :
  fst (get_current_pin s) = current_pin (fst (snd (get_current_pin s))).
Proof.
  destruct s as [self w]. rewrite get_current_pin_eq.
  destruct (expired _ _); [|reflexivity].
  rewrite refresh_pin_eq. reflexivity.
Qed.

(** What [verify_pin] can do to the counter of the client it is called
    for: nothing, delete it, or count one more failure. *)
Lemma verify_pin_own_counter entered_pin c s :
  let self' := fst (snd (verify_pin entered_pin c s)) in
  pin_attempts self' !! c = pin_attempts (fst s) !! c
  \/ pin_attempts self' !! c = None
  \/ (locked c (fst s) = false
      /\ pin_attempts self' !! c = Some (count c (fst s) + 1)).
Proof.
  cbv zeta. destruct s as [self w]. rewrite verify_pin_eq.
  destruct (locked c self) eqn:Hlock; [left; reflexivity|].
  rewrite verify_pin_checked_eq.
  destruct (get_current_pin_frame (self, w)) as (Ha & _).
  cbn [fst] in Ha |- *.
  destruct (String.eqb _ _).
  - right. left. rewrite accepted_self. unfold add_token. cbn.
    apply reset_attempts_own.
  - right. right. split; [exact Hlock|].
    rewrite rejected_self, rejected_counter. unfold count. rewrite Ha. reflexivity.
Qed.

Lemma exec_attempts_ok call s :
  1 <= max_attempts (fst s) ->
  attempts_ok (fst s) -> attempts_ok (fst (snd (exec call s))).
Proof.
  intros Hmax Hok c n Hn. rewrite exec_max.
  assert (Hother : (forall e, call <> VerifyPin e c) -> 1 <= n <= max_attempts (fst s)).
  { intros Hne. rewrite (exec_attempts c call s Hne) in Hn. exact (Hok _ _ Hn). }
  destruct call as [ | | |e c'| | | ]; try (apply Hother; intros; discriminate).
  destruct (decide (c' = c)) as [->|Hne].
  2:{ apply Hother. intros e' [= _ ?]. congruence. }
  rewrite exec_verify_pin in Hn. cbn [fst snd] in Hn.
  destruct (verify_pin_own_counter e c s) as [H|[H|[Hlock H]]];
    cbv zeta in H; rewrite H in Hn.
  - exact (Hok _ _ Hn).
  - discriminate.
  - injection Hn as <-. unfold count, locked in *.
    destruct (pin_attempts (fst s) !! c) as [m|] eqn:E; cbn.
    + specialize (Hok _ _ E). apply Z.leb_gt in Hlock. lia.
    + lia.
Qed.

Lemma init_fields dm w0 :
  pin_attempts (fst (__init__ dm w0)) = ∅
  /\ max_attempts (fst (__init__ dm w0)) = 5
  /\ pin_duration (fst (__init__ dm w0)) = 120%Q
  /\ pin_ok (fst (__init__ dm w0)).
Proof.
  unfold __init__. rewrite refresh_pin_eq. cbn [fst snd refreshed].
  repeat split.
  destruct (generate_random_pin_six w0) as [Hl Ha].
  eexists. split; [reflexivity|]. split; assumption.
Qed.

Lemma accepted_duration token c self :
  pin_duration (add_token token (reset_attempts c self)) = pin_duration self.
Proof. unfold add_token, reset_attempts. destruct (_ !! _); reflexivity. Qed.

Lemma rejected_duration c self :
  pin_duration (increment_counter c (open_counter c self)) = pin_duration self.
Proof.
  unfold increment_counter, open_counter.
  destruct (pin_attempts self !! c) as [n|] eqn:E.
  - rewrite E. reflexivity.
  - cbn. rewrite lookup_insert_eq. reflexivity.
Qed.

Lemma exec_duration call s :
  pin_duration (fst (snd (exec call s))) = pin_duration (fst s).
Proof.
  destruct call as [ | | |p c| | | ].
  - cbn [exec]. unfold bind, ret.
    destruct (refresh_pin_frame s) as (_ & _ & _ & H).
    destruct (refresh_pin s) as [x s1]. exact H.
  - cbn [exec]. unfold bind, ret.
    destruct (get_current_pin_frame s) as (_ & _ & _ & H).
    destruct (get_current_pin s) as [x s1]. exact H.
  - destruct s as [self w]. reflexivity.
  - rewrite exec_verify_pin. cbn [fst snd].
    rewrite <- (proj2 (proj2 (proj2 (get_current_pin_frame s)))).
    destruct s as [self w]. rewrite verify_pin_eq.
    destruct (locked c self).
    { cbn [fst snd].
      exact (eq_sym (proj2 (proj2 (proj2 (get_current_pin_frame (self, w)))))). }
    rewrite verify_pin_checked_eq.
    destruct (String.eqb _ _).
    + rewrite accepted_self. apply accepted_duration.
    + rewrite rejected_self. apply rejected_duration.
  - destruct s as [self w]. reflexivity.
  - cbn [exec]. unfold bind, ret.
    pose proof (get_auth_info_state s) as Hs.
    destruct (get_current_pin_frame s) as (_ & _ & _ & H).
    destruct (get_auth_info s) as [i s1]. cbn [fst snd] in *.
    rewrite Hs. exact H.
  - destruct s as [self w]. reflexivity.
Qed.

(** X12: on a [DisplayAuth] object, after any run of calls since its
    construction, [max_attempts] is still 5, [pin_duration] still 120, and
    every failure count on record lies between 1 and 5: no counter is ever
    0 or negative, and none goes past the limit. *)
Theorem attempts_stay_within_limit dm w0 calls :
  let self := fst (snd (run calls (__init__ dm w0))) in
  max_attempts self = 5
  /\ pin_duration self = 120%Q
  /\ forall client_ip n, pin_attempts self !! client_ip = Some n -> 1 <= n <= 5.
Proof.
  cbv zeta.
  destruct (init_fields dm w0) as (Hempty & Hmax & Hdur & _).
  assert (Hok0 : attempts_ok (fst (__init__ dm w0))).
  { intros c n Hn. rewrite Hempty, lookup_empty in Hn. discriminate. }
  revert Hmax Hdur Hok0. generalize (__init__ dm w0). clear.
  induction calls as [|call calls IH]; intros s Hmax Hdur Hok.
  - cbn. split; [exact Hmax|]. split; [exact Hdur|].
    intros c n Hn. rewrite <- Hmax. exact (Hok _ _ Hn).
  - rewrite run_cons. cbn [fst snd]. apply IH.
    + rewrite exec_max. exact Hmax.
    + rewrite exec_duration. exact Hdur.
    + apply exec_attempts_ok; [lia|exact Hok].
Qed.

Lemma attempts_stay_within_limit_witness :
  let self :=
    fst (snd (run Scenario.scenario_calls (__init__ true Scenario.scenario_device))) in
  pin_attempts self !! "A" = Some 5 /\ 1 <= 5 <= 5.
Proof.
  intros self.
  assert (H : pin_attempts self !! "A" = Some 5) by (vm_compute; reflexivity).
  split; [exact H|].
  exact (proj2 (proj2 (attempts_stay_within_limit true Scenario.scenario_device
                         Scenario.scenario_calls)) "A" 5 H).
Defined.

End AuthLifetime.

(** ** DisplayAuth: the PIN on record and the outcome of a verification *)

Module AuthOutcome.
Import Py PyFacts QFacts Auth AuthViews AuthTraces AuthInvariants.
Import AuthFacts AuthFrames Lockout Rotation AuthLifetime.

Lemma pin_ok_ext a b : current_pin a = current_pin b -> pin_ok a -> pin_ok b.
Proof. intros E (pin & Hp & H). exists pin. rewrite <- E. split; assumption. Qed.

Lemma challenge_pin a b : challenge a = challenge b -> current_pin a = current_pin b.
Proof. unfold challenge. congruence. Qed.

Lemma refresh_pin_pin_ok s : pin_ok (fst (snd (refresh_pin s))).
Proof.
  destruct s as [self w]. rewrite refresh_pin_eq. cbn [fst snd refreshed].
  destruct (generate_random_pin_six w) as [Hl Ha].
  eexists. split; [reflexivity|]. split; assumption.
Qed.

Lemma get_current_pin_pin_ok s :
  pin_ok (fst s) -> pin_ok (fst (snd (get_current_pin s))).
Proof.
  destruct s as [self w]. intros Hok. rewrite get_current_pin_eq.
  destruct (expired _ _); [|exact Hok].
  cbn [snd]. apply refresh_pin_pin_ok.
Qed.

Lemma accepted_pin c s1 :
  current_pin (fst (snd (accepted c s1))) = current_pin (fst s1).
Proof.
  rewrite accepted_self. unfold add_token.
  exact (challenge_pin _ _ (challenge_reset c (fst s1))).
Qed.

Lemma rejected_pin c s1 :
  current_pin (fst (snd (rejected c s1))) = current_pin (fst s1).
Proof.
  rewrite rejected_self. apply challenge_pin.
  rewrite challenge_increment. apply challenge_open.
Qed.

Lemma verify_pin_pin_ok entered_pin c s :
  pin_ok (fst s) -> pin_ok (fst (snd (verify_pin entered_pin c s))).
Proof.
  intros Hok. pose proof (get_current_pin_pin_ok s Hok) as H1.
  destruct s as [self w]. rewrite verify_pin_eq.
  destruct (locked c self); [exact Hok|].
  rewrite verify_pin_checked_eq. destruct (String.eqb _ _).
  - exact (pin_ok_ext _ _ (eq_sym (accepted_pin c _)) H1).
  - exact (pin_ok_ext _ _ (eq_sym (rejected_pin c _)) H1).
Qed.

Lemma exec_pin_ok call s :
  pin_ok (fst s) -> pin_ok (fst (snd (exec call s))).
Proof.
  intros Hok. destruct call as [ | | |p c| | | ].
  - cbn [exec]. unfold bind, ret. pose proof (refresh_pin_pin_ok s) as H.
    destruct (refresh_pin s) as [x s1]. exact H.
  - cbn [exec]. unfold bind, ret. pose proof (get_current_pin_pin_ok s Hok) as H.
    destruct (get_current_pin s) as [x s1]. exact H.
  - destruct s as [self w]. exact Hok.
  - rewrite exec_verify_pin. cbn [fst snd]. apply verify_pin_pin_ok. exact Hok.
  - destruct s as [self w]. exact Hok.
  - cbn [exec]. unfold bind, ret.
    pose proof (get_auth_info_state s) as Hs.
    pose proof (get_current_pin_pin_ok s Hok) as H.
    destruct (get_auth_info s) as [i s1]. cbn [fst snd] in *.
    rewrite Hs. exact H.
  - destruct s as [self w]. exact Hok.
Qed.

Lemma run_pin_ok calls : forall s,
  pin_ok (fst s) -> pin_ok (fst (snd (run calls s))).
Proof.
  induction calls as [|call calls IH]; intros s Hok; [exact Hok|].
  rewrite run_cons. cbn [fst snd]. apply IH. apply exec_pin_ok. exact Hok.
Qed.

(** X13: from construction on and through any run of calls, the PIN on
    record is a string of exactly six decimal digits (leading zeros kept),
    whichever of the two generators produced it; and what
    [get_current_pin] returns is always the PIN on record after the call. *)
Theorem pin_is_always_six_digits dm w0 calls :
  let s := snd (run calls (__init__ dm w0)) in
  (exists pin,
      current_pin (fst s) = VStr pin
      /\ String.length pin = 6%nat
      /\ all_chars is_digit pin = true)
  /\ fst (get_current_pin s) = current_pin (fst (snd (get_current_pin s))).
Proof.
  cbv zeta. split; [|apply get_current_pin_returns].
  apply run_pin_ok. apply init_fields.
Qed.

(** X14: when [verify_pin] returns success, the submitted value printed
    with [str] equals the PIN on record after the call, the token it
    returned is valid at once, the failure counter of that client is gone,
    every token that was valid before still is, and the counters of the
    other clients are untouched. *)
Theorem verify_pin_success_effects entered_pin client_ip s token s' :
  verify_pin entered_pin client_ip s = ((true, token), s') ->
  str entered_pin = str (current_pin (fst s'))
  /\ verify_token token (fst s') = true
  /\ pin_attempts (fst s') !! client_ip = None
  /\ (forall t, verify_token t (fst s) = true -> verify_token t (fst s') = true)
  /\ (forall other, other <> client_ip ->
        pin_attempts (fst s') !! other = pin_attempts (fst s) !! other).
Proof.
  intros Hv.
  assert (Hs' : s' = snd (verify_pin entered_pin client_ip s)) by (rewrite Hv; reflexivity).
  assert (Hother : forall other, other <> client_ip ->
             pin_attempts (fst s') !! other = pin_attempts (fst s) !! other).
  { intros other Hne. rewrite Hs'. apply verify_pin_other. exact Hne. }
  destruct s as [self w]. rewrite verify_pin_eq in Hv.
  destruct (locked client_ip self); [discriminate|].
  rewrite verify_pin_checked_eq in Hv.
  destruct (String.eqb _ _) eqn:Heq; [|unfold rejected in Hv; discriminate].
  apply String.eqb_eq in Heq.
  destruct (get_current_pin_frame (self, w)) as (_ & Htok & _).
  pose proof (get_current_pin_returns (self, w)) as Hret.
  set (s1 := snd (get_current_pin (self, w))) in *.
  assert (Ht : token = fst (_generate_session_token (snd s1)))
    by (unfold accepted in Hv; congruence).
  assert (Hst : s' = snd (accepted client_ip s1)) by (rewrite Hv; reflexivity).
  assert (Htokens : session_tokens (fst s')
                    = {[ token ]} ∪ session_tokens self).
  { rewrite Hst, accepted_self, <- Ht. unfold add_token. cbn.
    rewrite reset_attempts_tokens. cbn [fst] in Htok. rewrite Htok. reflexivity. }
  split; [|split; [|split; [|split]]].
  - rewrite Heq, Hret, Hst, accepted_pin. reflexivity.
  - unfold verify_token. apply bool_decide_eq_true. rewrite Htokens.
    apply elem_of_union. left. apply elem_of_singleton. reflexivity.
  - rewrite Hst, accepted_self. unfold add_token. cbn. apply reset_attempts_own.
  - intros t. unfold verify_token. rewrite !bool_decide_eq_true, Htokens.
    cbn [fst]. intros Ht'. apply elem_of_union. right. exact Ht'.
  - exact Hother.
Qed.

Lemma verify_pin_success_effects_witness :
  let s := (AuthSamples.fresh, Samples.counting 60 0) in
  let token := "ABCDEFGHIJKLMNOPQRSTUVWXYZabcdef" in
  verify_pin (VStr "482913") "A" s
    = ((true, token), snd (verify_pin (VStr "482913") "A" s))
  /\ verify_token token (fst (snd (verify_pin (VStr "482913") "A" s))) = true.
Proof.
  intros s token.
  assert (H : verify_pin (VStr "482913") "A" s
              = ((true, token), snd (verify_pin (VStr "482913") "A" s)))
    by (vm_compute; reflexivity).
  split; [exact H|].
  exact (proj1 (proj2 (verify_pin_success_effects _ _ _ _ _ H))).
Defined.

(** X15: when a client that is not locked out gets a failure from
    [verify_pin], exactly one more failure is on its record (1 for a client
    without a counter), no token was added, the PIN on record is the one
    [get_current_pin] left, and the reply is the wrong-PIN text with
    [max_attempts] minus the new count as attempts remaining, a number that
    is not negative as long as the counters are within the limit. *)
Theorem verify_pin_failure_effects entered_pin client_ip s :
  locked client_ip (fst s) = false ->
  fst (fst (verify_pin entered_pin client_ip s)) = false ->
  let s' := snd (verify_pin entered_pin client_ip s) in
  let n := count client_ip (fst s) + 1 in
  pin_attempts (fst s') !! client_ip = Some n
  /\ session_tokens (fst s') = session_tokens (fst s)
  /\ current_pin (fst s') = fst (get_current_pin s)
  /\ (exists remaining_time,
        0 <= remaining_time
        /\ snd (fst (verify_pin entered_pin client_ip s))
           = invalid_pin_message (max_attempts (fst s) - n) remaining_time)
  /\ (1 <= max_attempts (fst s) -> attempts_ok (fst s) ->
      0 <= max_attempts (fst s) - n).
Proof.
  intros Hlock Hfail. cbv zeta.
  destruct (get_current_pin_frame s) as (Ha & Htok & Hmax & _).
  pose proof (get_current_pin_returns s) as Hret.
  destruct s as [self w]. cbn [fst] in *.
  rewrite verify_pin_eq, Hlock in Hfail |- *.
  rewrite verify_pin_checked_eq in Hfail |- *.
  set (s1 := snd (get_current_pin (self, w))) in *.
  destruct (String.eqb _ _); [unfold accepted in Hfail; discriminate|].
  assert (Hcount : count client_ip (fst s1) = count client_ip self)
    by (unfold count; rewrite Ha; reflexivity).
  split; [|split; [|split; [|split]]].
  - rewrite rejected_self, rejected_counter, Hcount. reflexivity.
  - rewrite rejected_self, increment_counter_tokens, open_counter_tokens.
    exact Htok.
  - rewrite rejected_pin, Hret. reflexivity.
  - unfold rejected. cbn [fst snd].
    rewrite rejected_counter, increment_counter_max, open_counter_max, Hmax, Hcount.
    cbn [default].
    eexists. split; [|reflexivity].
    destruct s1 as [self1 w1].
    exact (proj1 (proj2 (get_pin_time_remaining_range
                           (increment_counter client_ip (open_counter client_ip self1))
                           w1))).
  - intros H1 Hok. unfold count, locked in *.
    destruct (pin_attempts self !! client_ip) as [m|] eqn:E; cbn.
    + apply Z.leb_gt in Hlock. lia.
    + lia.
Qed.

Lemma verify_pin_failure_effects_witness :
  let s := (AuthSamples.fresh, Samples.counting 60 0) in
  locked "A" (fst s) = false
  /\ fst (fst (verify_pin (VStr "000000") "A" s)) = false
  /\ pin_attempts (fst (snd (verify_pin (VStr "000000") "A" s))) !! "A" = Some 1.
Proof.
  intros s.
  assert (H1 : locked "A" (fst s) = false) by reflexivity.
  assert (H2 : fst (fst (verify_pin (VStr "000000") "A" s)) = false)
    by (vm_compute; reflexivity).
  split; [exact H1|]. split; [exact H2|].
  exact (proj1 (verify_pin_failure_effects (VStr "000000") "A" s H1 H2)).
Defined.

End AuthOutcome.

(** ** DisplayAuth: how calls compose *)

Module AuthCompose.
Import Py PyFacts QFacts Auth AuthViews AuthTraces AuthInvariants.
Import AuthFacts AuthFrames Lockout Rotation AuthLifetime AuthOutcome.

(** One wrong-PIN step of a client that is not locked out. *)
Lemma failed_attempt entered_pin c s :
  locked c (fst s) = false ->
  String.eqb (str entered_pin) (str (fst (get_current_pin s))) = false ->
  let r := verify_pin entered_pin c s in
  (exists a b, fst r = (false, invalid_pin_message a b))
  /\ count c (fst (snd r)) = count c (fst s) + 1
  /\ max_attempts (fst (snd r)) = max_attempts (fst s).
Proof.
  intros Hlock Hneq. cbv zeta.
  split; [|split; [|apply verify_pin_max]].
  - destruct s as [self w]. cbn [fst] in Hlock.
    rewrite verify_pin_eq, Hlock, verify_pin_checked_eq, Hneq.
    unfold rejected. cbn [fst]. eauto.
  - destruct (get_current_pin_frame s) as (Ha & _).
    destruct s as [self w]. cbn [fst] in *.
    rewrite verify_pin_eq, Hlock, verify_pin_checked_eq, Hneq.
    rewrite rejected_self. unfold count at 1. rewrite rejected_counter.
    unfold count. rewrite Ha. reflexivity.
Qed.

(** A submission that is not six characters long cannot match the PIN. *)
Lemma wrong_shape_differs entered_pin s :
  pin_ok (fst s) ->
  String.length (str entered_pin) <> 6%nat ->
  String.eqb (str entered_pin) (str (fst (get_current_pin s))) = false.
Proof.
  intros Hok Hlen. apply String.eqb_neq. intros Heq.
  destruct (get_current_pin_pin_ok s Hok) as (pin & Hp & Hl & _).
  rewrite get_current_pin_returns, Hp in Heq. cbn [str] in Heq.
  rewrite Heq in Hlen. contradiction.
Qed.

Lemma wrong_pins_run c pins : forall s,
  pin_ok (fst s) ->
  Forall (fun p => String.length (str p) <> 6%nat) pins ->
  1 <= max_attempts (fst s) ->
  count c (fst s) + Z.of_nat (length pins) = max_attempts (fst s) ->
  let r := run (retries c pins) s in
  Forall (fun e => exists a b, snd e = RVerify false (invalid_pin_message a b))
         (fst r)
  /\ pin_attempts (fst (snd r)) !! c = Some (max_attempts (fst s))
  /\ max_attempts (fst (snd r)) = max_attempts (fst s).
Proof.
  induction pins as [|p pins IH]; intros s Hok Hpins Hmax Hcount; cbv zeta.
  - cbn [retries map run]. unfold ret. cbn [fst snd].
    split; [constructor|]. split; [|reflexivity].
    unfold count in Hcount. cbn [length] in Hcount.
    destruct (pin_attempts (fst s) !! c) as [n|]; cbn in Hcount; [|lia].
    f_equal. lia.
  - inversion Hpins as [|? ? Hp Hrest]; subst.
    assert (Hlock : locked c (fst s) = false).
    { unfold locked, count in *. cbn [length] in Hcount.
      destruct (pin_attempts (fst s) !! c) as [n|]; [|reflexivity].
      cbn in Hcount. apply Z.leb_gt. lia. }
    destruct (failed_attempt p c s Hlock (wrong_shape_differs p s Hok Hp))
      as ((a & b & Hr) & Hc1 & Hm1).
    unfold retries. cbn [map]. fold (retries c pins).
    rewrite run_cons, exec_verify_pin. cbn [fst snd].
    destruct (IH (snd (verify_pin p c s))) as (H1 & H2 & H3).
    + apply verify_pin_pin_ok. exact Hok.
    + exact Hrest.
    + rewrite Hm1. exact Hmax.
    + rewrite Hc1, Hm1. cbn [length] in Hcount. lia.
    + cbv zeta in H1, H2, H3. split; [|split].
      * constructor; [|exact H1]. exists a, b. cbn [snd].
        rewrite Hr. reflexivity.
      * rewrite H2, Hm1. reflexivity.
      * rewrite H3, Hm1. reflexivity.
Qed.

(** X16: a client submits values that are not six characters long, as many
    as it has attempts left ([max_attempts] of them for a client without a
    counter).  Whatever the clock does and however often the PIN rotates in
    between, each submission gets the wrong-PIN reply, the count ends at
    [max_attempts], and from then on every [verify_pin] of that client,
    the right PIN included, gets the lockout reply and changes nothing. *)
Theorem wrong_pins_lock_out c pins s :
  pin_ok (fst s) ->
  Forall (fun p => String.length (str p) <> 6%nat) pins ->
  1 <= max_attempts (fst s) ->
  count c (fst s) + Z.of_nat (length pins) = max_attempts (fst s) ->
  let r := run (retries c pins) s in
  Forall (fun e => exists a b, snd e = RVerify false (invalid_pin_message a b))
         (fst r)
  /\ pin_attempts (fst (snd r)) !! c = Some (max_attempts (fst s))
  /\ forall entered_pin,
       verify_pin entered_pin c (snd r) = ((false, lockout_message), snd r).
Proof.
  intros Hok Hpins Hmax Hcount.
  destruct (wrong_pins_run c pins s Hok Hpins Hmax Hcount) as (H1 & H2 & H3).
  cbv zeta in *. split; [exact H1|]. split; [exact H2|].
  intros entered_pin.
  destruct (snd (run (retries c pins) s)) as [self w] eqn:E. cbn [fst] in *.
  apply (verify_pin_locked entered_pin c _ self w H2). lia.
Qed.

Lemma wrong_pins_lock_out_witness :
  let s := (AuthSamples.fresh, Samples.counting 60 0) in
  let pins := [VStr "1234"; VInt 7; VStr "abc"; VStr "1234567"; VNone] in
  pin_ok (fst s)
  /\ Forall (fun p => String.length (str p) <> 6%nat) pins
  /\ 1 <= max_attempts (fst s)
  /\ count "A" (fst s) + Z.of_nat (length pins) = max_attempts (fst s)
  /\ pin_attempts (fst (snd (run (retries "A" pins) s))) !! "A" = Some 5.
Proof.
  intros s pins.
  assert (H1 : pin_ok (fst s)).
  { exists "482913". repeat split. }
  assert (H2 : Forall (fun p => String.length (str p) <> 6%nat) pins).
  { unfold pins.
    repeat (constructor; [intros H; vm_compute in H; discriminate|]).
    constructor. }
  assert (H3 : 1 <= max_attempts (fst s)) by (cbn; lia).
  assert (H4 : count "A" (fst s) + Z.of_nat (length pins) = max_attempts (fst s))
    by reflexivity.
  repeat (split; [assumption|]).
  exact (proj1 (proj2 (wrong_pins_lock_out "A" pins s H1 H2 H3 H4))).
Defined.

Lemma get_auth_info_pin s :
  info_pin (fst (get_auth_info s)) = fst (get_current_pin s).
Proof.
  unfold get_auth_info. unfold bind at 1.
  destruct (get_current_pin s) as [p [self1 w1]]. reflexivity.
Qed.

(** X17: the PIN that [get_auth_info] hands out is the PIN on record after
    that call, and it is good: a client that is not locked out and submits
    it while the PIN has not expired (at the clock reading of its
    [verify_pin]) is accepted and receives a token. *)
Theorem shown_pin_is_accepted s c :
  let info := fst (get_auth_info s) in
  let s1 := snd (get_auth_info s) in
  let now := clock (snd s1) (ticks (snd s1)) in
  locked c (fst s1) = false ->
  (now - pin_generated_time (fst s1) <= pin_duration (fst s1))%Q ->
  info_pin info = current_pin (fst s1)
  /\ fst (fst (verify_pin (info_pin info) c s1)) = true
  /\ verify_token (snd (fst (verify_pin (info_pin info) c s1)))
       (fst (snd (verify_pin (info_pin info) c s1))) = true.
Proof.
  cbv zeta. intros Hlock Hlive.
  assert (Hpin : info_pin (fst (get_auth_info s))
                 = current_pin (fst (snd (get_auth_info s)))).
  { rewrite get_auth_info_pin, get_auth_info_state. apply get_current_pin_returns. }
  split; [exact Hpin|]. rewrite Hpin.
  destruct (snd (get_auth_info s)) as [self1 w1]. cbn [fst snd] in *.
  rewrite verify_pin_eq, Hlock, verify_pin_checked_eq.
  rewrite (get_current_pin_live self1 w1) by (apply gt_false; exact Hlive).
  cbn [fst snd]. rewrite String.eqb_refl.
  split; [reflexivity|].
  unfold accepted, verify_token, add_token. cbn.
  apply bool_decide_eq_true. apply elem_of_union. left.
  apply elem_of_singleton. reflexivity.
Qed.

Lemma shown_pin_is_accepted_witness :
  let s := (AuthSamples.fresh, Samples.counting 200 0) in
  let s1 := snd (get_auth_info s) in
  locked "A" (fst s1) = false
  /\ (clock (snd s1) (ticks (snd s1)) - pin_generated_time (fst s1)
        <= pin_duration (fst s1))%Q
  /\ info_pin (fst (get_auth_info s)) = VStr "012345"
  /\ fst (fst (verify_pin (info_pin (fst (get_auth_info s))) "A" s1)) = true.
Proof.
  intros s s1.
  assert (H1 : locked "A" (fst s1) = false) by (vm_compute; reflexivity).
  assert (H2 : (clock (snd s1) (ticks (snd s1)) - pin_generated_time (fst s1)
                  <= pin_duration (fst s1))%Q) by (vm_compute; discriminate).
  split; [exact H1|]. split; [exact H2|].
  split; [vm_compute; reflexivity|].
  exact (proj1 (proj2 (shown_pin_is_accepted s "A" H1 H2))).
Defined.

End AuthCompose.

(** ** The second DisplayAuth: no limit on guesses *)

Module Auth2Facts.
Import Py PyFacts QFacts Auth2.

Lemma second_get_current_pin_live self w :
  gt (clock w (ticks w) - pin_generated_time self) (pin_duration self) = false ->
  get_current_pin (self, w) = (current_pin self, (self, Device.ticked w)).
Proof.
  intros H. unfold get_current_pin, bind, ret, device, get, Device.monotonic.
  cbn. rewrite H. reflexivity.
Qed.

Lemma second_verify_pin_live entered_pin self w :
  gt (clock w (ticks w) - pin_generated_time self) (pin_duration self) = false ->
  verify_pin entered_pin (self, w) =
    if String.eqb (str entered_pin) (str (current_pin self))
    then
      let token :=
        "session_" ++ str_int (int_of (clock w (S (ticks w)) * 1000)) in
      ((true, token),
       (set_session_tokens ({[ token ]} ∪ session_tokens self) self,
        Device.ticked (Device.ticked w)))
    else ((false, "Invalid PIN"), (self, Device.ticked w)).
Proof.
  intros H. unfold verify_pin. unfold bind at 1.
  rewrite (second_get_current_pin_live self w H).
  destruct (String.eqb _ _); reflexivity.
Qed.

Lemma attempts_cons p pins s :
  attempts (p :: pins) s =
    (fst (verify_pin p s) :: fst (attempts pins (snd (verify_pin p s))),
     snd (attempts pins (snd (verify_pin p s)))).
Proof.
  cbn [attempts]. unfold bind, ret.
  destruct (verify_pin p s) as [r s1]. cbn [fst snd].
  destruct (attempts pins s1) as [rs s2]. reflexivity.
Qed.

Lemma wrong_then_right self pins : forall w right,
  (forall i, (ticks w <= i)%nat ->
     (clock w i - pin_generated_time self <= pin_duration self)%Q) ->
  Forall (fun p => str p <> str (current_pin self)) pins ->
  str right = str (current_pin self) ->
  let token :=
    "session_"
      ++ str_int (int_of (clock w (S (ticks w + length pins)) * 1000)) in
  let r := attempts (pins ++ [right]) (self, w) in
  fst r = (map (fun _ => (false, "Invalid PIN")) pins ++ [(true, token)])%list
  /\ fst (snd r) = set_session_tokens ({[ token ]} ∪ session_tokens self) self.
Proof.
  induction pins as [|p pins IH]; intros w right Hlive Hpins Hright; cbv zeta.
  - cbn [app length map]. rewrite attempts_cons.
    rewrite second_verify_pin_live by (apply gt_false; apply Hlive; lia).
    rewrite Hright, String.eqb_refl. cbn [fst snd attempts]. unfold ret.
    cbn [fst snd]. rewrite Nat.add_0_r. split; reflexivity.
  - inversion Hpins as [|? ? Hp Hrest]; subst.
    cbn [app length map]. rewrite attempts_cons.
    rewrite second_verify_pin_live by (apply gt_false; apply Hlive; lia).
    apply String.eqb_neq in Hp. rewrite Hp. cbn [fst snd].
    destruct (IH (Device.ticked w) right) as [H1 H2].
    + intros i Hi. apply (Hlive i). cbn in Hi. lia.
    + exact Hrest.
    + exact Hright.
    + cbv zeta in H1, H2. cbn [Device.ticked ticks clock] in H1, H2.
      replace (S (ticks w + S (length pins)))
        with (S (S (ticks w) + length pins)) by lia.
      rewrite H1, H2. split; reflexivity.
Qed.

(** X18: the later [DisplayAuth] definition keeps no count of failures.
    While the PIN is alive, any number of wrong submissions each get
    [(False, "Invalid PIN")] and leave the object as it is, and the right
    PIN submitted after them is accepted: the reply carries a token,
    ["session_"] followed by an integer in decimal, the token joins the
    session tokens and [verify_token] accepts it, and the PIN and its
    generation time are as before. *)
Theorem second_definition_never_locks_out self w pins right :
  (forall i, (ticks w <= i)%nat ->
     (clock w i - pin_generated_time self <= pin_duration self)%Q) ->
  Forall (fun p => str p <> str (current_pin self)) pins ->
  str right = str (current_pin self) ->
  let r := attempts (pins ++ [right]) (self, w) in
  exists ms,
    let token := "session_" ++ str_int ms in
    fst r = (map (fun _ => (false, "Invalid PIN")) pins ++ [(true, token)])%list
    /\ current_pin (fst (snd r)) = current_pin self
    /\ pin_generated_time (fst (snd r)) = pin_generated_time self
    /\ session_tokens (fst (snd r)) = {[ token ]} ∪ session_tokens self
    /\ verify_token token (fst (snd r)) = true.
Proof.
  intros Hlive Hpins Hright.
  destruct (wrong_then_right self pins w right Hlive Hpins Hright) as [H1 H2].
  cbv zeta in *.
  exists (int_of (clock w (S (ticks w + length pins)) * 1000)).
  split; [exact H1|]. rewrite H2.
  split; [reflexivity|]. split; [reflexivity|]. split; [reflexivity|].
  unfold verify_token. cbn. apply bool_decide_eq_true.
  apply elem_of_union. left. apply elem_of_singleton. reflexivity.
Qed.

Lemma second_definition_never_locks_out_witness :
  let self := Self false (VStr "482913") 0 120 ∅ in
  let w := Samples.bare (5 # 2) 0 in
  let pins := [VStr "000000"; VStr "000001"; VStr "000002"; VStr "000003";
               VStr "000004"; VStr "000005"; VStr "000006"] in
  (forall i, (ticks w <= i)%nat ->
     (clock w i - pin_generated_time self <= pin_duration self)%Q)
  /\ Forall (fun p => str p <> str (current_pin self)) pins
  /\ str (VInt 482913) = str (current_pin self)
  /\ exists ms,
       let token := "session_" ++ str_int ms in
       fst (attempts (pins ++ [VInt 482913]) (self, w))
       = (map (fun _ => (false, "Invalid PIN")) pins ++ [(true, token)])%list.
Proof.
  intros self w pins.
  assert (H1 : forall i, (ticks w <= i)%nat ->
             (clock w i - pin_generated_time self <= pin_duration self)%Q).
  { intros i _. vm_compute. discriminate. }
  assert (H2 : Forall (fun p => str p <> str (current_pin self)) pins).
  { unfold pins. repeat (constructor; [intros H; discriminate H|]). constructor. }
  assert (H3 : str (VInt 482913) = str (current_pin self)) by reflexivity.
  repeat (split; [assumption|]).
  destruct (second_definition_never_locks_out self w pins (VInt 482913) H1 H2 H3)
    as (ms & Hms & _).
  exists ms. exact Hms.
Defined.

(** Seven wrong PINs and then the right one, two and a half seconds after
    the start: the token is [session_2500]. *)
Example second_definition_sample :
  let self := Self false (VStr "482913") 0 120 ∅ in
  let w := Samples.bare (5 # 2) 0 in
  let pins := [VStr "000000"; VStr "000001"; VStr "000002"; VStr "000003";
               VStr "000004"; VStr "000005"; VStr "000006"] in
  fst (attempts (pins ++ [VInt 482913]) (self, w))
  = (map (fun _ => (false, "Invalid PIN")) pins ++ [(true, "session_2500")])%list.
Proof. vm_compute. reflexivity. Qed.

End Auth2Facts.

(** ** FileManager: the parent of a path *)

Module FilesFacts.
Import Py PyFacts Files.

Lemma append_cons c s t : String c s ++ t = String c (s ++ t).
Proof. reflexivity. Qed.

Lemma append_assoc s t u : (s ++ t) ++ u = s ++ (t ++ u).
Proof.
  induction s as [|c s IH]; [reflexivity|].
  rewrite !append_cons, IH. reflexivity.
Qed.

Lemma append_empty_r s : s ++ EmptyString = s.
Proof.
  induction s as [|c s IH]; [reflexivity|].
  rewrite append_cons, IH. reflexivity.
Qed.

Lemma component_head part :
  component part ->
  exists c rest, part = String c rest /\ Ascii.eqb c "/" = false.
Proof.
  intros [Hne Hfree]. destruct part as [|c rest]; [contradiction|].
  exists c, rest. split; [reflexivity|].
  cbn [mem_char] in Hfree. apply orb_false_iff in Hfree as [Hc _].
  rewrite Ascii.eqb_sym. exact Hc.
Qed.

(** [rstrip] leaves a string alone when it ends in a part that has no
    slash and is not empty. *)
Lemma rstrip_free t :
  mem_char "/" t = false -> rstrip "/" t = t.
Proof.
  induction t as [|d t IH]; [reflexivity|].
  cbn [mem_char]. intros H. apply orb_false_iff in H as [Hd Ht].
  cbn [rstrip]. rewrite (IH Ht).
  destruct t; [|reflexivity].
  rewrite Ascii.eqb_sym, Hd. reflexivity.
Qed.

Lemma rstrip_keep s t :
  component t -> rstrip "/" (s ++ t) = s ++ t.
Proof.
  intros Ht. induction s as [|d s IH].
  - apply rstrip_free. apply Ht.
  - rewrite append_cons. cbn [rstrip]. rewrite IH.
    destruct (s ++ t) eqn:E; [|reflexivity].
    exfalso. destruct (component_head t Ht) as (c & rest & -> & _).
    destruct s; discriminate.
Qed.

(** [split] cuts at the first slash after a slash-free part. *)
Lemma split_free x :
  mem_char "/" x = false -> split "/" x = [x].
Proof.
  induction x as [|d x IH]; [reflexivity|].
  cbn [mem_char]. intros H. apply orb_false_iff in H as [Hd Hx].
  cbn [split]. rewrite Ascii.eqb_sym, Hd, (IH Hx). reflexivity.
Qed.

Lemma split_app_sep x rest :
  mem_char "/" x = false ->
  split "/" (x ++ "/" ++ rest) = x :: split "/" rest.
Proof.
  intros Hx. induction x as [|d x IH].
  - reflexivity.
  - cbn [mem_char] in Hx. apply orb_false_iff in Hx as [Hd Hx].
    rewrite append_cons. cbn [split]. rewrite Ascii.eqb_sym, Hd, (IH Hx).
    reflexivity.
Qed.

(** Splitting what [join] put together gives the parts back. *)
Lemma split_join parts :
  parts <> [] ->
  Forall (fun p => mem_char "/" p = false) parts ->
  split "/" (join "/" parts) = parts.
Proof.
  induction parts as [|x parts IH]; intros Hne Hfree; [contradiction|].
  inversion Hfree as [|? ? Hx Hrest]; subst.
  destruct parts as [|y parts].
  - cbn [join]. apply split_free. exact Hx.
  - change (join "/" (x :: y :: parts)) with (x ++ "/" ++ join "/" (y :: parts)).
    rewrite (split_app_sep _ _ Hx), IH; [reflexivity|discriminate|exact Hrest].
Qed.

Lemma join_snoc parts last :
  parts <> [] ->
  join "/" (parts ++ [last]) = join "/" parts ++ "/" ++ last.
Proof.
  induction parts as [|x parts IH]; intros Hne; [contradiction|].
  destruct parts as [|y parts].
  - reflexivity.
  - change (join "/" ((x :: y :: parts) ++ [last]))
      with (x ++ "/" ++ join "/" ((y :: parts) ++ [last])).
    rewrite IH by discriminate.
    change (join "/" (x :: y :: parts)) with (x ++ "/" ++ join "/" (y :: parts)).
    rewrite !append_assoc. reflexivity.
Qed.

(** The path built from components starts with a slash-free character
    after its leading slash and ends in its last component. *)
Lemma join_shape parts last :
  Forall component parts -> component last ->
  (exists c rest,
      join "/" (parts ++ [last]) = String c rest /\ Ascii.eqb c "/" = false)
  /\ exists prefix, join "/" (parts ++ [last]) = prefix ++ last.
Proof.
  intros Hparts Hlast. destruct parts as [|x parts].
  - cbn [app join]. split; [exact (component_head last Hlast)|].
    exists EmptyString. reflexivity.
  - rewrite join_snoc by discriminate. split.
    + inversion Hparts as [|? ? Hx _]; subst.
      destruct (component_head x Hx) as (c & rest & -> & Hc).
      destruct parts as [|y parts].
      * cbn [join]. rewrite append_cons. eauto.
      * change (join "/" (String c rest :: y :: parts))
          with (String c rest ++ "/" ++ join "/" (y :: parts)).
        rewrite !append_cons. eauto.
    + exists (join "/" (x :: parts) ++ "/"). rewrite append_assoc. reflexivity.
Qed.

(** X19: for an absolute path written as a slash followed by its
    components joined by slashes (components not empty and without a
    slash), [_get_parent_path] returns the path of all components but the
    last; for a path of one component it returns the root ["/"]. *)
Theorem parent_of_path parts last :
  Forall component parts -> component last ->
  _get_parent_path ("/" ++ join "/" (parts ++ [last])) = "/" ++ join "/" parts.
Proof.
  intros Hparts Hlast.
  destruct (join_shape parts last Hparts Hlast)
    as ((c & rest & Hhead & Hc) & (prefix & Htail)).
  assert (Hfree : Forall (fun p => mem_char "/" p = false) (parts ++ [last])).
  { apply Forall_app. split.
    - eapply Forall_impl; [exact Hparts|]. intros p Hp. apply Hp.
    - constructor; [apply Hlast|constructor]. }
  unfold _get_parent_path.
  assert (Hstrip : strip "/" ("/" ++ join "/" (parts ++ [last]))
                   = join "/" (parts ++ [last])).
  { unfold strip. change ("/" ++ join "/" (parts ++ [last]))
      with (String "/" (join "/" (parts ++ [last]))).
    cbn [lstrip]. rewrite Ascii.eqb_refl.
    rewrite Hhead at 1. cbn [lstrip]. rewrite Hc, <- Hhead.
    rewrite Htail. apply rstrip_keep. exact Hlast. }
  rewrite Hstrip.
  replace (String.eqb ("/" ++ join "/" (parts ++ [last])) "/") with false.
  2:{ symmetry. apply String.eqb_neq. rewrite Hhead. discriminate. }
  rewrite split_join; [|destruct parts; discriminate|exact Hfree].
  rewrite removelast_last, List.length_app. cbn [length].
  destruct parts as [|x parts]; [reflexivity|].
  destruct (Nat.leb_spec (length (x :: parts) + 1) 1); [cbn in *; lia|reflexivity].
Qed.

Lemma parent_of_path_witness :
  Forall component ["apps"; "demo"] /\ component "main.py"
  /\ _get_parent_path "/apps/demo/main.py" = "/apps/demo".
Proof.
  assert (H1 : Forall component ["apps"; "demo"]).
  { repeat (constructor; [split; [discriminate|reflexivity]|]). constructor. }
  assert (H2 : component "main.py") by (split; [discriminate|reflexivity]).
  split; [exact H1|]. split; [exact H2|].
  exact (parent_of_path ["apps"; "demo"] "main.py" H1 H2).
Defined.

End FilesFacts.

(** ** Checks of the path helpers on concrete inputs *)

Module FilesChecks.
Import Files.

Example strip_split_samples :
  strip "/" "//a//b/" = "a//b"
  /\ split "/" "a//b" = ["a"; EmptyString; "b"]
  /\ split "/" EmptyString = [EmptyString]
  /\ join "/" ["a"; "b"; "c"] = "a/b/c".
Proof. repeat split; reflexivity. Qed.

Example parent_samples :
  _get_parent_path "/" = "/"
  /\ _get_parent_path EmptyString = "/"
  /\ _get_parent_path "/lib" = "/"
  /\ _get_parent_path "/lib/a/b.py" = "/lib/a"
  /\ _get_parent_path "/lib/a/" = "/lib"
  /\ _get_parent_path "lib/a" = "/lib".
Proof. repeat split; reflexivity. Qed.

End FilesChecks.
